(** * gstraining: support-ticket triage, topic discovery and transcript scrubbing

    A shallow embedding of the three scripts of the repository
    ([analyze_tickets.py], [discover_topics.py], [extract_chats.py]) and the
    properties their specification states about them.

    Python strings are sequences of Unicode code points: [str] is [list N].
    What Python takes from the Unicode character database ([str.lower], the
    classes behind the regular expression escapes) is a parameter of the
    development; on the ASCII range the classes are written out. *)

From Stdlib Require Import String Ascii.
From Stdlib Require Import List NArith ZArith Bool Lia Arith.
From Stdlib Require Import Permutation Sorted.
Import ListNotations.

Set Implicit Arguments.

(** ** Python strings *)

Module PyStr.

Definition str := list N.

(** A string literal of the source. *)
Definition py (s : string) : str := map N_of_ascii (list_ascii_of_string s).

Fixpoint str_eqb (a b : str) : bool :=
  match a, b with
  | [], [] => true
  | x :: a', y :: b' => N.eqb x y && str_eqb a' b'
  | _, _ => false
  end.

(** [t.startswith(k)]. *)
Fixpoint startswith (t k : str) : bool :=
  match k, t with
  | [], _ => true
  | x :: k', y :: t' => N.eqb x y && startswith t' k'
  | _ :: _, [] => false
  end.

(** [k in t] on strings: [k] occurs in [t] as a contiguous substring. *)
Fixpoint contains (t k : str) : bool :=
  startswith t k ||
  match t with
  | [] => false
  | _ :: t' => contains t' k
  end.

(** [x in l] for a list of strings, and pandas' [Series.isin] row by row. *)
Definition isin (x : str) (l : list str) : bool := existsb (str_eqb x) l.

(** [s.split(sep)] for a one-character separator. *)
Fixpoint split_on (sep : N) (s : str) : list str :=
  match s with
  | [] => [[]]
  | c :: s' =>
      if N.eqb c sep then [] :: split_on sep s'
      else match split_on sep s' with
           | [] => [[c]]
           | w :: ws => (c :: w) :: ws
           end
  end.

(** [Series.fillna('')] on one cell. *)
Definition fillna (cell : option str) : str :=
  match cell with
  | Some s => s
  | None => []
  end.

End PyStr.
Import PyStr.

(** ** analyze_tickets.py *)

Module AnalyzeTickets.

(** [any(keyword in text for keyword in keywords)]. *)
Definition any_in (keywords : list str) (text : str) : bool :=
  existsb (fun keyword => contains text keyword) keywords.

Definition map_intent (text : str) : str :=
  if any_in [py "cancel"; py "cancellation"; py "unsubscribe";
             py "end my account"; py "close my account"] text
  then py "Membership Cancellation"
  else if any_in [py "password"; py "reset"; py "forgot"; py "login issue";
                  py "can't log in"] text
  then py "Password Reset / Login Issue"
  else if any_in [py "refund"; py "money back"; py "reimburse"] text
  then py "Refund Request"
  else if any_in [py "billing"; py "charge"; py "invoice"; py "overcharged";
                  py "double charge"] text
  then py "Billing Inquiry"
  else if any_in [py "update card"; py "new card"; py "payment method";
                  py "credit card update"] text
  then py "Update Payment Method"
  else if any_in [py "not working"; py "error"; py "issue"; py "problem";
                  py "bug"] text
  then py "Technical Issue"
  else if any_in [py "hours"; py "open"; py "close"; py "location";
                  py "address"] text
  then py "Store Hours/Location Inquiry"
  else if any_in [py "how to"; py "question"; py "inquiry";
                  py "information"] text
  then py "General Question"
  else if any_in [py "upgrade"; py "downgrade"; py "change plan"] text
  then py "Plan Change Request"
  else if any_in [py "product"; py "service"; py "feature request"] text
  then py "Product/Feature Request"
  else py "Other".

(** The columns of the data frame the classification reads and writes. *)
Record row := mkrow {
  text : str;
  Intent : str;
  AutomationCategory : str
}.

(** [df.loc[mask, 'AutomationCategory'] = value]. *)
Definition loc_set (mask : row -> bool) (value : str) (df : list row)
  : list row :=
  map (fun r => if mask r then mkrow (text r) (Intent r) value else r) df.

Definition full_automation_intents : list str :=
  [py "Password Reset / Login Issue"; py "Store Hours/Location Inquiry";
   py "General Question"; py "Billing Inquiry"; py "Plan Change Request"].

Definition agentic_workflow_intents : list str :=
  [py "Membership Cancellation"; py "Refund Request";
   py "Update Payment Method"].

Definition human_in_the_loop_keywords : str :=
  py "angry|frustrated|disappointed|legal|lawsuit|complaint|escalate|manager|unresolved".

(** [Series.str.contains(pat, na=False)] on one cell. The pattern of the
    source is an alternation of plain words (no other metacharacter), so the
    regular expression search succeeds exactly when one of the alternatives
    occurs as a substring. *)
Definition str_contains (pat : str) (cell : str) : bool :=
  existsb (fun alt => contains cell alt) (split_on 124 pat).

(** Lines 59-76: the category column is created with its default and then
    overwritten four times, each time on the rows a mask selects. *)
Definition automation_categories (df : list row) : list row :=
  let df := map (fun r => mkrow (text r) (Intent r) (py "Human-in-the-Loop")) df in
  let df := loc_set (fun r => isin (Intent r) full_automation_intents)
                    (py "Full Automation") df in
  let df := loc_set (fun r => isin (Intent r) agentic_workflow_intents)
                    (py "Agentic Workflow") df in
  let human_in_the_loop_mask :=
    fun r => str_contains human_in_the_loop_keywords (text r) in
  let df := loc_set human_in_the_loop_mask (py "Human-in-the-Loop") df in
  loc_set (fun r => str_eqb (Intent r) (py "Other")) (py "Human-in-the-Loop") df.

(** The same four assignments with the two overrides exchanged, to compare
    with [automation_categories]. *)
Definition automation_categories_swapped (df : list row) : list row :=
  let df := map (fun r => mkrow (text r) (Intent r) (py "Human-in-the-Loop")) df in
  let df := loc_set (fun r => isin (Intent r) full_automation_intents)
                    (py "Full Automation") df in
  let df := loc_set (fun r => isin (Intent r) agentic_workflow_intents)
                    (py "Agentic Workflow") df in
  let df := loc_set (fun r => str_eqb (Intent r) (py "Other"))
                    (py "Human-in-the-Loop") df in
  loc_set (fun r => str_contains human_in_the_loop_keywords (text r))
          (py "Human-in-the-Loop") df.

Record ticket := mkticket {
  Subject : option str;
  Description : option str
}.

Section WithLower.

(** [str.lower], from the Unicode database. *)
Variable lower : str -> str.

(** Lines 28-29. *)
Definition ticket_text (t : ticket) : str :=
  lower (fillna (Subject t) ++ py " " ++ fillna (Description t)).

(** Lines 28-76 on the rows of the input table. *)
Definition analyze_support_tickets (tickets : list ticket) : list row :=
  automation_categories
    (map (fun t => let text := ticket_text t in
                   mkrow text (map_intent text) []) tickets).

End WithLower.

(** [df['AutomationCategory'].value_counts().get(key, 0)]: the number of
    rows whose category is [key], 0 when there is none. *)
Definition category_count (df : list row) (key : str) : nat :=
  length (filter (fun r => str_eqb (AutomationCategory r) key) df).

(** Lines 87-89 and 92. *)
Definition fully_automated_count (df : list row) : nat :=
  category_count df (py "Full Automation").

Definition partially_automated_count (df : list row) : nat :=
  category_count df (py "Agentic Workflow").

Definition automatable_count (df : list row) : nat :=
  fully_automated_count df + partially_automated_count df.

Definition automatable_intents_df (df : list row) : list row :=
  filter (fun r => negb (str_eqb (AutomationCategory r)
                                 (py "Human-in-the-Loop"))) df.

(** Lines 119-121: the automation type printed for a full automation
    candidate. *)
Definition automation_type (intent : str) : str :=
  if isin intent [py "Password Reset / Login Issue"; py "Billing Inquiry"]
  then py "Simple data lookup via API"
  else py "RAG from knowledge base".

(** Lines 130-135: the workflow lines printed under an agentic candidate,
    one for each of the three tests that holds. *)
Inductive workflow :=
| RefundWorkflow
| CancellationWorkflow
| PaymentWorkflow.

Definition workflow_lines (intent : str) : list workflow :=
  (if str_eqb intent (py "Refund Request") then [RefundWorkflow] else [])
  ++ (if str_eqb intent (py "Membership Cancellation")
      then [CancellationWorkflow] else [])
  ++ (if str_eqb intent (py "Update Payment Method")
      then [PaymentWorkflow] else []).

End AnalyzeTickets.

(** ** discover_topics.py *)

Module DiscoverTopics.

Import AnalyzeTickets.

Definition NUM_TOPICS : nat := 10.
Definition NUM_WORDS_PER_TOPIC : nat := 15.

(** [numpy.ndarray.argmax] on one row: the index of the first maximal entry.
    The entries are floating point numbers in the source; only their order
    is used, and they are modelled by integers. (numpy raises on an empty
    row; the rows of the source have [NUM_TOPICS] entries.) *)
Fixpoint argmax_from (best_i : nat) (best : Z) (i : nat) (l : list Z) : nat :=
  match l with
  | [] => best_i
  | x :: l' =>
      if (best <? x)%Z then argmax_from i x (S i) l'
      else argmax_from best_i best (S i) l'
  end.

Definition argmax (row : list Z) : nat :=
  match row with
  | [] => 0
  | x :: l => argmax_from 0 x 1 l
  end.

(** [pd.Series(l).value_counts().sort_index()]: the distinct values of [l] in
    ascending order, each with its number of occurrences. *)
Fixpoint bump (k : nat) (s : list (nat * nat)) : list (nat * nat) :=
  match s with
  | [] => [(k, 1)]
  | (k', c) :: s' =>
      if k <? k' then (k, 1) :: s
      else if k =? k' then (k', S c) :: s'
      else (k', c) :: bump k s'
  end.

Definition value_counts_sort_index (l : list nat) : list (nat * nat) :=
  fold_right bump [] l.

(** [Series.get(key, default)]. *)
Fixpoint series_get (s : list (nat * nat)) (key default : nat) : nat :=
  match s with
  | [] => default
  | (k, c) :: s' => if key =? k then c else series_get s' key default
  end.

(** [a[:-n - 1:-1]]: the last [n] entries of [a], last one first. *)
Definition last_reversed (A : Type) (n : nat) (a : list A) : list A :=
  firstn n (rev a).

(** A fitted [LatentDirichletAllocation]: its [components_] (one row of term
    weights per topic) and its [transform]. *)
Record lda_model := mklda {
  components_ : list (list Z);
  transform : list (list nat) -> list (list Z)
}.

(** What [pd.read_csv] does. *)
Inductive csv_read :=
| FileNotFoundError
| OtherReadError
| Frame (rows : list ticket).

(** What the script prints, with the values it formats into it. An item is
    one call of [print], but for [NoVocabulary], which stands for the two
    calls of lines 69-70, and [ResultsBanner], which stands for the three
    calls of lines 98-100. *)
Inductive printed :=
| Starting
| FileLoaded (total : nat)
| FileMissing
| LoadFailed
| StepClassifying
| NothingToAnalyze
| FoundOther (n : nat)
| StepPreparing
| NoVocabulary
| PreparationDone (vocabulary_size : nat)
| PreparationFailed
| StepTraining
| TrainingDone
| TrainingFailed
| StepCounting
| CountingDone
| ResultsBanner (topics : nat)
| TopicHeader (number count : nat)
| Keywords (top_words : list str)
| SuggestedName.

(** How the run ends: the function returns, or [sys.exit(arg)] is called. *)
Inductive ending :=
| Returns
| SysExit (arg : option Z).

(** The exit status of the process: a script whose main function returns
    ends with status 0, and so does [sys.exit()] without an argument. *)
Definition exit_status (e : ending) : Z :=
  match e with
  | Returns => 0
  | SysExit None => 0
  | SysExit (Some n) => n
  end.

Record run := mkrun {
  stdout : list printed;
  ended : ending
}.

Definition is_topic_output (p : printed) : bool :=
  match p with
  | ResultsBanner _ | TopicHeader _ _ | Keywords _ | SuggestedName => true
  | _ => false
  end.

Section Script.

(** [str.lower], from the Unicode database. *)
Variable lower : str -> str.

(** [CountVectorizer(max_df=0.9, min_df=5, stop_words='english')]:
    [fit_transform] on the texts, with [get_feature_names_out]; [None] when
    it raises (scikit-learn raises [ValueError] when no term remains). *)
Variable fit_transform : list str -> option (list str * list (list nat)).

(** [LatentDirichletAllocation(n_components, random_state=42).fit];
    [None] when it raises. *)
Variable lda_fit : nat -> list (list nat) -> option lda_model.

(** [numpy.ndarray.argsort] with its default kind, which numpy does not
    promise to be stable. *)
Variable argsort : list Z -> list nat.

Definition map_initial_intent (text : str) : str :=
  let text := lower text in
  if any_in [py "cancel"; py "cancellation"; py "unsubscribe";
             py "end my account"; py "close my account"] text
  then py "Membership Cancellation"
  else if any_in [py "password"; py "reset"; py "forgot"; py "login issue";
                  py "can't log in"] text
  then py "Password Reset / Login Issue"
  else if any_in [py "refund"; py "money back"; py "reimburse"] text
  then py "Refund Request"
  else py "Other".

(** Lines 50-52: the texts of the tickets whose intent is [Other]. *)
Definition other_tickets (rows : list ticket) : list str :=
  filter (fun text => str_eqb (map_initial_intent text) (py "Other"))
         (map (fun t => fillna (Subject t) ++ py " " ++ fillna (Description t))
              rows).

(** Line 93. *)
Definition topic_assignments (lda : lda_model) (X : list (list nat)) : list nat :=
  map argmax (transform lda X).

(** Line 106, as indices into the vocabulary. *)
Definition top_indices (topic_keywords : list Z) : list nat :=
  last_reversed NUM_WORDS_PER_TOPIC (argsort topic_keywords).

(** Lines 103-110: what the loop prints for one topic. *)
Definition topic_lines (feature_names : list str) (lda : lda_model)
    (topic_counts : list (nat * nat)) (topic_idx : nat) : list printed :=
  let count := series_get topic_counts topic_idx 0 in
  let topic_keywords := nth topic_idx (components_ lda) [] in
  let top_words :=
    map (fun i => nth i feature_names []) (top_indices topic_keywords) in
  [TopicHeader (topic_idx + 1) count; Keywords top_words; SuggestedName].

(** Lines 92-110. *)
Definition report (feature_names : list str) (lda : lda_model)
    (X : list (list nat)) : list printed :=
  let topic_counts := value_counts_sort_index (topic_assignments lda X) in
  [StepCounting; CountingDone; ResultsBanner NUM_TOPICS] ++
  flat_map (topic_lines feature_names lda topic_counts) (seq 0 NUM_TOPICS).

Definition analyze_and_count_topics (file : csv_read) : run :=
  match file with
  | FileNotFoundError => mkrun [Starting; FileMissing] (SysExit None)
  | OtherReadError => mkrun [Starting; LoadFailed] (SysExit None)
  | Frame rows =>
      let out := [Starting; FileLoaded (length rows); StepClassifying] in
      let others := other_tickets rows in
      match others with
      | [] => mkrun (out ++ [NothingToAnalyze]) Returns
      | _ :: _ =>
          let out := out ++ [FoundOther (length others); StepPreparing] in
          match fit_transform others with
          | None => mkrun (out ++ [PreparationFailed]) (SysExit None)
          | Some (feature_names, X) =>
              let vocabulary_size := length feature_names in
              if vocabulary_size =? 0
              then mkrun (out ++ [NoVocabulary]) (SysExit None)
              else
                let out := out ++ [PreparationDone vocabulary_size;
                                   StepTraining] in
                match lda_fit NUM_TOPICS X with
                | None => mkrun (out ++ [TrainingFailed]) (SysExit None)
                | Some lda =>
                    mkrun (out ++ [TrainingDone] ++ report feature_names lda X)
                          Returns
                end
          end
      end
  end.

End Script.

End DiscoverTopics.

(** ** extract_chats.py *)

Module ExtractChats.

(** The Unicode character database as CPython consults it, used for the code
    points from 128 on. *)
Record unicode_db := mkdb {
  uni_isspace : N -> bool;
  uni_isalpha : N -> bool;
  uni_isdecimal : N -> bool;
  uni_isdigit : N -> bool;
  uni_isnumeric : N -> bool
}.

(** The values a JSON document holds; message fields are such values. *)
#[warnings="-register-all"]
Inductive value :=
| VNone
| VBool (b : bool)
| VInt (n : Z)
| VFloat (mantissa exponent : Z)
| VStr (s : str)
| VList (l : list value)
| VDict (d : list (str * value)).

(** Sets of characters of a pattern. *)
Inductive cset :=
| Lit (c : N)
| Space
| NotSpace
| Digit
| Or (a b : cset).

(** The pieces of a pattern: one character of a set, the greedy [?] and [+]
    of a set, and the assertion [\b]. *)
Inductive item :=
| One (s : cset)
| Opt (s : cset)
| Plus (s : cset)
| WordBoundary.

Definition pattern := list item.

(** [s{n}]. *)
Definition times (n : nat) (s : cset) : pattern := repeat (One s) n.

(** A position in the subject string: the character before it, if any, and
    the characters from it on. The end of a match is such a position. *)
Definition position := (option N * str)%type.

Section Regex.

Variable db : unicode_db.

Definition is_space (c : N) : bool :=
  if (c <? 128)%N
  then ((9 <=? c)%N && (c <=? 13)%N) || ((28 <=? c)%N && (c <=? 32)%N)
  else uni_isspace db c.

Definition is_digit (c : N) : bool :=
  if (c <? 128)%N then (48 <=? c)%N && (c <=? 57)%N
  else uni_isdecimal db c.

Definition is_alnum (c : N) : bool :=
  if (c <? 128)%N
  then ((48 <=? c)%N && (c <=? 57)%N) || ((65 <=? c)%N && (c <=? 90)%N)
       || ((97 <=? c)%N && (c <=? 122)%N)
  else uni_isalpha db c || uni_isdecimal db c || uni_isdigit db c
       || uni_isnumeric db c.

Definition is_word (c : N) : bool := is_alnum c || (c =? 95)%N.

Fixpoint in_cset (s : cset) (c : N) : bool :=
  match s with
  | Lit x => (c =? x)%N
  | Space => is_space c
  | NotSpace => negb (is_space c)
  | Digit => is_digit c
  | Or a b => in_cset a c || in_cset b c
  end.

(** [\b]: exactly one of the two neighbours is a word character (none is,
    beyond either end of the string). *)
Definition at_boundary (prev : option N) (rest : str) : bool :=
  xorb (match prev with Some c => is_word c | None => false end)
       (match rest with c :: _ => is_word c | [] => false end).

(** A backtracking matcher: greedy choices first, and the first way to match
    the whole pattern from the given position is the match. [star s k] takes
    as many characters of [s] as it can and gives characters back one by one
    until the rest of the pattern, [k], matches. *)
Fixpoint star (s : cset) (k : option N -> str -> option position)
    (prev : option N) (rest : str) : option position :=
  match rest with
  | c :: rest' =>
      if in_cset s c
      then match star s k (Some c) rest' with
           | Some r => Some r
           | None => k prev rest
           end
      else k prev rest
  | [] => k prev rest
  end.

Fixpoint match_here (p : pattern) (prev : option N) (rest : str)
  : option position :=
  match p with
  | [] => Some (prev, rest)
  | One s :: p' =>
      match rest with
      | c :: rest' => if in_cset s c then match_here p' (Some c) rest' else None
      | [] => None
      end
  | Opt s :: p' =>
      match rest with
      | c :: rest' =>
          if in_cset s c
          then match match_here p' (Some c) rest' with
               | Some r => Some r
               | None => match_here p' prev rest
               end
          else match_here p' prev rest
      | [] => match_here p' prev rest
      end
  | Plus s :: p' =>
      match rest with
      | c :: rest' =>
          if in_cset s c then star s (match_here p') (Some c) rest' else None
      | [] => None
      end
  | WordBoundary :: p' =>
      if at_boundary prev rest then match_here p' prev rest else None
  end.

(** [re.sub(p, repl, s)] for a replacement without escapes: scan from the
    left; where the pattern matches, write [repl] and go on after the match;
    elsewhere copy one character. (After an empty match Python copies one
    character too; the two patterns of the source never match empty.) The
    fuel is the number of positions left to visit. *)
Fixpoint sub_from (fuel : nat) (p : pattern) (repl : str)
    (prev : option N) (rest : str) : str :=
  match fuel with
  | 0 => rest
  | S fuel' =>
      let copy :=
        match rest with
        | [] => []
        | c :: rest' => c :: sub_from fuel' p repl (Some c) rest'
        end in
      match match_here p prev rest with
      | Some (prev', rest') =>
          if length rest' <? length rest
          then repl ++ sub_from fuel' p repl prev' rest'
          else repl ++ copy
      | None => copy
      end
  end.

Definition re_sub (p : pattern) (repl : str) (s : str) : str :=
  sub_from (S (length s)) p repl None s.

(** [r'\S+@\S+'] *)
Definition email_pattern : pattern :=
  [Plus NotSpace; One (Lit 64); Plus NotSpace].

(** [r'\b\d{3}[-.\s]?\d{3}[-.\s]?\d{4}\b'] *)
Definition separator : cset := Or (Lit 45) (Or (Lit 46) Space).

Definition phone_pattern : pattern :=
  [WordBoundary] ++ times 3 Digit ++ [Opt separator] ++ times 3 Digit
  ++ [Opt separator] ++ times 4 Digit ++ [WordBoundary].

Definition anonymize_text (text : value) : value :=
  match text with
  | VStr text =>
      let text := re_sub email_pattern (py "[EMAIL_REDACTED]") text in
      let text := re_sub phone_pattern (py "[PHONE_REDACTED]") text in
      VStr text
  | _ => text
  end.

End Regex.

(** A database in which no code point from 128 on is in any class: with it
    the classes are the ASCII ones. *)
Definition ascii_only : unicode_db :=
  mkdb (fun _ => false) (fun _ => false) (fun _ => false) (fun _ => false)
       (fun _ => false).

(** *** The calls to the remote service

    The values the script receives are JSON values, and Python decides at
    run time what an operation does on them. [None] below stands for the
    exception Python raises ([TypeError], [KeyError], [AttributeError]);
    none of them is caught by the handlers of the script, which catch
    [requests.exceptions.RequestException] only. A float is a mantissa and
    an exponent; it is zero when the mantissa is. *)

(** The truth value of [v] in [if v] and [not v]. *)
Definition truthy (v : value) : bool :=
  match v with
  | VNone => false
  | VBool b => b
  | VInt n => negb (n =? 0)%Z
  | VFloat m _ => negb (m =? 0)%Z
  | VStr s => match s with [] => false | _ :: _ => true end
  | VList l => match l with [] => false | _ :: _ => true end
  | VDict d => match d with [] => false | _ :: _ => true end
  end.

(** [d.get(key)] and [key in d] on the items of a dict. *)
Fixpoint dict_get (d : list (str * value)) (key : str) : option value :=
  match d with
  | [] => None
  | (k, v) :: d' => if str_eqb k key then Some v else dict_get d' key
  end.

Definition dict_has (d : list (str * value)) (key : str) : bool :=
  match dict_get d key with Some _ => true | None => false end.

(** [d[key] = v]: the value of an existing key is replaced where it stands,
    a new key is added at the end. *)
Fixpoint dict_set (d : list (str * value)) (key : str) (v : value)
  : list (str * value) :=
  match d with
  | [] => [(key, v)]
  | (k, x) :: d' =>
      if str_eqb k key then (k, v) :: d' else (k, x) :: dict_set d' key v
  end.

(** [key in container] for a string [key]: a key of a dict, an element of a
    list, a substring of a string; a [TypeError] on anything else. *)
Definition py_in (key : str) (container : value) : option bool :=
  match container with
  | VDict d => Some (dict_has d key)
  | VList l =>
      Some (existsb (fun e => match e with
                              | VStr s => str_eqb s key
                              | _ => false
                              end) l)
  | VStr s => Some (contains s key)
  | _ => None
  end.

(** [container[key]] for a string [key]: the value of the key in a dict; a
    [KeyError] when the key is missing and a [TypeError] on anything that is
    not a dict. *)
Definition py_getitem (container : value) (key : str) : option value :=
  match container with
  | VDict d => dict_get d key
  | _ => None
  end.

(** [container.get(key)]: only a dict has the method; Python's [None] for a
    missing key is [VNone]. *)
Definition py_get (container : value) (key : str) : option value :=
  match container with
  | VDict d => Some (match dict_get d key with Some v => v | None => VNone end)
  | _ => None
  end.

(** [v == 0]. *)
Definition equals_zero (v : value) : bool :=
  match v with
  | VInt n => (n =? 0)%Z
  | VBool b => negb b
  | VFloat m _ => (m =? 0)%Z
  | _ => false
  end.

(** [for x in v]: the elements of a list, the keys of a dict, the characters
    of a string; a [TypeError] on anything else. *)
Definition py_iter (v : value) : option (list value) :=
  match v with
  | VList l => Some l
  | VDict d => Some (map (fun kv => VStr (fst kv)) d)
  | VStr s => Some (map (fun c => VStr [c]) s)
  | _ => None
  end.

(** The results of [f] on the elements of a list, unless [f] raises on
    one. *)
Fixpoint for_each (A B : Type) (f : A -> option B) (l : list A)
  : option (list B) :=
  match l with
  | [] => Some []
  | x :: l' =>
      match f x with
      | None => None
      | Some y => match for_each f l' with
                  | None => None
                  | Some ys => Some (y :: ys)
                  end
      end
  end.

(** What a request gives: [requests] raises a [RequestException], or there
    is a response with its status code and its body, taken to be JSON. *)
Inductive http_reply :=
| RequestException
| Reply (status_code : nat) (body : value).

(** [response.raise_for_status()] raises (an [HTTPError], which is a
    [RequestException]) on the status codes from 400 to 599. *)
Definition raises_for_status (status_code : nat) : bool :=
  (400 <=? status_code) && (status_code <? 600).

(** What the script does to the outside, in order: its requests and its
    calls of [time.sleep]. *)
Inductive event :=
| PostToken
| GetChats (limit start_index : nat)
| GetConversation (chat_id : value)
| Sleep (seconds : nat).

(** The replies of the service are a script the requests consume in order.
    A call returns a value and leaves the rest of the script, or an
    exception escapes it, or it asks for a reply the script does not have
    (it would go on). *)
Inductive outcome (A : Type) :=
| Returned (a : A) (replies : list http_reply)
| Crashed
| Starved.

Arguments Crashed {A}.
Arguments Starved {A}.

(** [all([CLIENT_ID, CLIENT_SECRET, REFRESH_TOKEN])] on what [os.getenv]
    gives: each variable is set and not empty. *)
Definition env_set (v : option str) : bool :=
  match v with
  | Some (_ :: _) => true
  | _ => false
  end.

Definition get_new_access_token
    (CLIENT_ID CLIENT_SECRET REFRESH_TOKEN : option str)
    (replies : list http_reply) : list event * outcome value :=
  if negb (env_set CLIENT_ID && env_set CLIENT_SECRET && env_set REFRESH_TOKEN)
  then ([], Returned VNone replies)
  else
    match replies with
    | [] => ([PostToken], Starved)
    | RequestException :: replies' => ([PostToken], Returned VNone replies')
    | Reply status_code token_data :: replies' =>
        ([PostToken],
         if raises_for_status status_code then Returned VNone replies'
         else
           match py_in (py "access_token") token_data with
           | None => Crashed
           | Some true =>
               match py_getitem token_data (py "access_token") with
               | Some token => Returned token replies'
               | None => Crashed
               end
           | Some false =>
               (* the message printed reads [token_data.get('error', ...)] *)
               match py_get token_data (py "error") with
               | Some _ => Returned VNone replies'
               | None => Crashed
               end
           end)
    end.

(** [[chat['id'] for chat in chats]]. *)
Definition chat_ids_of (chats : value) : option (list value) :=
  match py_iter chats with
  | None => None
  | Some l => for_each (fun chat => py_getitem chat (py "id")) l
  end.

(** The loop of [get_all_chat_ids], one request per round. *)
Fixpoint chat_ids_loop (replies : list http_reply) (all_chat_ids : list value)
    (start_index : nat) : list event * outcome (list value) :=
  match replies with
  | [] => ([GetChats 100 start_index], Starved)
  | reply :: replies' =>
      let '(events, out) :=
        match reply with
        | RequestException => ([], Returned all_chat_ids replies')
        | Reply status_code data =>
            if status_code =? 429
            then let '(events, out) :=
                   chat_ids_loop replies' all_chat_ids start_index in
                 (Sleep 60 :: events, out)
            else if raises_for_status status_code
            then ([], Returned all_chat_ids replies')
            else
              match py_get data (py "code") with
              | None => ([], Crashed)
              | Some code =>
                  if equals_zero code
                     && match py_in (py "data") data with
                        | Some b => b
                        | None => false
                        end
                  then
                    match py_getitem data (py "data") with
                    | None => ([], Crashed)
                    | Some chats =>
                        if negb (truthy chats)
                        then ([], Returned all_chat_ids replies')
                        else
                          match chat_ids_of chats with
                          | None => ([], Crashed)
                          | Some chat_ids =>
                              let '(events, out) :=
                                chat_ids_loop replies'
                                              (all_chat_ids ++ chat_ids)
                                              (start_index + 100) in
                              (Sleep 1 :: events, out)
                          end
                    end
                  else ([], Returned all_chat_ids replies')
              end
        end in
      (GetChats 100 start_index :: events, out)
  end.

Definition get_all_chat_ids (access_token : value)
    (replies : list http_reply) : list event * outcome (list value) :=
  chat_ids_loop replies [] 1.

Definition get_chat_conversation (chat_id access_token : value)
    (replies : list http_reply) : list event * outcome value :=
  match replies with
  | [] => ([GetConversation chat_id], Starved)
  | RequestException :: replies' =>
      ([GetConversation chat_id], Returned VNone replies')
  | Reply status_code data :: replies' =>
      ([GetConversation chat_id],
       if raises_for_status status_code then Returned VNone replies'
       else
         match py_get data (py "code") with
         | None => Crashed
         | Some code =>
             if equals_zero code
                && match py_in (py "data") data with
                   | Some b => b
                   | None => false
                   end
             then match py_getitem data (py "data") with
                  | Some conversation => Returned conversation replies'
                  | None => Crashed
                  end
             else Returned VNone replies'
         end)
  end.

(** How the main part of the script ends when no exception escapes. *)
Inductive finished :=
| NoAccessToken
| NoChatIds
| Saved (all_transcripts : list value)
| WriteFailed (all_transcripts : list value).

Section Extractor.

Variable db : unicode_db.

(** Lines 168-171 for one key: [if key in message: message[key] =
    anonymize_text(message[key])]. *)
Definition scrub_field (key : str) (message : value) : option value :=
  match py_in key message with
  | None => None
  | Some false => Some message
  | Some true =>
      match message with
      | VDict d =>
          match dict_get d key with
          | Some v => Some (VDict (dict_set d key (anonymize_text db v)))
          | None => None
          end
      | _ => None
      end
  end.

Definition scrub_message (message : value) : option value :=
  match scrub_field (py "msg") message with
  | None => None
  | Some message => scrub_field (py "sent_by") message
  end.

(** Lines 165-173 for one conversation: [None] when an exception escapes,
    otherwise what is appended to [all_transcripts], if anything. The
    messages of a list are dicts changed in place; the keys of a dict and
    the characters of a string, when the conversation is one of these, are
    strings and stay as they are. *)
Definition scrub_conversation (conversation_data : value)
  : option (option value) :=
  if truthy conversation_data
  then
    match py_in (py "conversation") conversation_data with
    | None => None
    | Some false => Some None
    | Some true =>
        match py_getitem conversation_data (py "conversation") with
        | None => None
        | Some conversation =>
            match py_iter conversation with
            | None => None
            | Some messages =>
                match for_each scrub_message messages with
                | None => None
                | Some messages' =>
                    Some (Some
                      match conversation_data, conversation with
                      | VDict d, VList _ =>
                          VDict (dict_set d (py "conversation")
                                          (VList messages'))
                      | _, _ => conversation_data
                      end)
                end
            end
        end
    end
  else Some None.

(** The loop of lines 161-176. *)
Fixpoint process_chats (access_token : value) (chat_ids : list value)
    (replies : list http_reply) (all_transcripts : list value)
  : list event * outcome (list value) :=
  match chat_ids with
  | [] => ([], Returned all_transcripts replies)
  | chat_id :: chat_ids' =>
      match get_chat_conversation chat_id access_token replies with
      | (events, Returned conversation_data replies') =>
          match scrub_conversation conversation_data with
          | None => (events, Crashed)
          | Some appended =>
              let all_transcripts :=
                match appended with
                | Some transcript => all_transcripts ++ [transcript]
                | None => all_transcripts
                end in
              let '(events', out) :=
                process_chats access_token chat_ids' replies' all_transcripts in
              (events ++ Sleep 1 :: events', out)
          end
      | (events, Crashed) => (events, Crashed)
      | (events, Starved) => (events, Starved)
      end
  end.

(** Lines 142-185; [write_ok] tells whether writing the file succeeds (an
    [IOError] is caught and reported). *)
Definition main (CLIENT_ID CLIENT_SECRET REFRESH_TOKEN : option str)
    (write_ok : bool) (replies : list http_reply)
  : list event * outcome finished :=
  match get_new_access_token CLIENT_ID CLIENT_SECRET REFRESH_TOKEN replies with
  | (events, Crashed) => (events, Crashed)
  | (events, Starved) => (events, Starved)
  | (events, Returned access_token replies) =>
      if negb (truthy access_token)
      then (events, Returned NoAccessToken replies)
      else
        match get_all_chat_ids access_token replies with
        | (events', Crashed) => (events ++ events', Crashed)
        | (events', Starved) => (events ++ events', Starved)
        | (events', Returned chat_ids replies) =>
            match chat_ids with
            | [] => (events ++ events', Returned NoChatIds replies)
            | _ :: _ =>
                match process_chats access_token chat_ids replies [] with
                | (events'', Crashed) => (events ++ events' ++ events'', Crashed)
                | (events'', Starved) => (events ++ events' ++ events'', Starved)
                | (events'', Returned all_transcripts replies) =>
                    (events ++ events' ++ events'',
                     Returned (if write_ok then Saved all_transcripts
                               else WriteFailed all_transcripts) replies)
                end
            end
        end
  end.

End Extractor.

End ExtractChats.

(** * Properties *)

Unset Implicit Arguments.

Import AnalyzeTickets DiscoverTopics ExtractChats.

(** ** Vocabulary of the statements *)

(** [k] occurs in [t]. *)
Definition substring (k t : str) : Prop := exists u v, t = u ++ k ++ v.

Definition sentiment_keywords : list str :=
  [py "angry"; py "frustrated"; py "disappointed"; py "legal"; py "lawsuit";
   py "complaint"; py "escalate"; py "manager"; py "unresolved"].

(** What the four assignments leave in one row. *)
Definition row_category (r : row) : str :=
  if str_eqb (Intent r) (py "Other") then py "Human-in-the-Loop"
  else if str_contains human_in_the_loop_keywords (text r)
  then py "Human-in-the-Loop"
  else if isin (Intent r) agentic_workflow_intents then py "Agentic Workflow"
  else if isin (Intent r) full_automation_intents then py "Full Automation"
  else py "Human-in-the-Loop".

(** The rules of the classifier in the order the specification lists them,
    and the label of the first rule one of whose keywords occurs in the
    text. *)
Definition intent_rules : list (list str * str) :=
  [([py "cancel"; py "cancellation"; py "unsubscribe"; py "end my account";
     py "close my account"], py "Membership Cancellation");
   ([py "password"; py "reset"; py "forgot"; py "login issue";
     py "can't log in"], py "Password Reset / Login Issue");
   ([py "refund"; py "money back"; py "reimburse"], py "Refund Request");
   ([py "billing"; py "charge"; py "invoice"; py "overcharged";
     py "double charge"], py "Billing Inquiry");
   ([py "update card"; py "new card"; py "payment method";
     py "credit card update"], py "Update Payment Method");
   ([py "not working"; py "error"; py "issue"; py "problem"; py "bug"],
    py "Technical Issue");
   ([py "hours"; py "open"; py "close"; py "location"; py "address"],
    py "Store Hours/Location Inquiry");
   ([py "how to"; py "question"; py "inquiry"; py "information"],
    py "General Question");
   ([py "upgrade"; py "downgrade"; py "change plan"], py "Plan Change Request");
   ([py "product"; py "service"; py "feature request"],
    py "Product/Feature Request")].

Fixpoint first_match (rules : list (list str * str)) (text : str) : str :=
  match rules with
  | [] => py "Other"
  | (keywords, label) :: rules' =>
      if any_in keywords text then label else first_match rules' text
  end.

Definition intent_labels : list str :=
  [py "Membership Cancellation"; py "Password Reset / Login Issue";
   py "Refund Request"; py "Billing Inquiry"; py "Update Payment Method";
   py "Technical Issue"; py "Store Hours/Location Inquiry";
   py "General Question"; py "Plan Change Request";
   py "Product/Feature Request"; py "Other"].

Definition reduced_labels : list str :=
  [py "Membership Cancellation"; py "Password Reset / Login Issue";
   py "Refund Request"].

(** [str.lower] on ASCII text. *)
Definition ascii_lower (s : str) : str :=
  map (fun c => if ((65 <=? c) && (c <=? 90))%N then (c + 32)%N else c) s.

Definition keys_ascending (s : list (nat * nat)) : Prop :=
  StronglySorted (fun p q => fst p < fst q) s.

(** The topic headers among printed lines: the number shown and the count. *)
Definition topic_headers (out : list printed) : list (nat * nat) :=
  flat_map (fun p => match p with
                     | TopicHeader number count => [(number, count)]
                     | _ => []
                     end) out.

Definition no_topic_output (r : run) : Prop :=
  forallb (fun p => negb (is_topic_output p)) (stdout r) = true.

(** The run ends with an exit status other than 0. *)
Definition halts_nonzero (r : run) : Prop := exit_status (ended r) <> 0%Z.

Definition weight_at (w : list Z) (i : nat) : Z := nth i w 0%Z.

(** What numpy promises of [argsort]: the indices of the array, each once,
    in an order in which the entries do not decrease. *)
Definition is_argsort (w : list Z) (idx : list nat) : Prop :=
  Permutation idx (seq 0 (length w)) /\
  StronglySorted (fun i j => (weight_at w i <= weight_at w j)%Z) idx.

(** The tie-break the specification words: of two listed terms of equal
    weight the one with the earlier vocabulary index comes first. *)
Definition ties_earlier_first (w : list Z) (top : list nat) : Prop :=
  forall p q, p < q -> q < length top ->
    weight_at w (nth p top 0) = weight_at w (nth q top 0) ->
    nth p top 0 < nth q top 0.

(** A stable argsort (insertion sort; equal entries keep their order). *)
Fixpoint insert_by (w : list Z) (i : nat) (l : list nat) : list nat :=
  match l with
  | [] => [i]
  | j :: l' =>
      if (weight_at w i <=? weight_at w j)%Z then i :: l
      else j :: insert_by w i l'
  end.

Definition stable_argsort (w : list Z) : list nat :=
  fold_right (insert_by w) [] (seq 0 (length w)).

(** A small run of the script: three tickets, two of them Other, a
    vectorizer that keeps two terms and a model that puts every ticket on
    topic 1 (the first of the two maximal entries of its row). *)
Definition demo_rows : list ticket :=
  [mkticket (Some (py "Printer")) (Some (py "It jams"));
   mkticket (Some (py "Please cancel")) None;
   mkticket None (Some (py "Towel missing"))].

Definition demo_fit_transform (docs : list str)
  : option (list str * list (list nat)) :=
  Some ([py "printer"; py "towel"], map (fun _ => [1; 0]) docs).

Definition demo_lda : lda_model :=
  mklda (repeat [2; 1]%Z NUM_TOPICS)
        (fun X => map (fun _ => [0; 3; 1; 3; 0; 0; 0; 0; 0; 0]%Z) X).

(** The character before the position reached after reading [a] from a
    position whose previous character is [p]. *)
Definition lastc (p : option N) (a : str) : option N :=
  fold_left (fun _ c => Some c) a p.

Definition PHONE : str := py "[PHONE_REDACTED]".

Definition EMAIL : str := py "[EMAIL_REDACTED]".

(** The text contains one of the sentiment keywords. *)
Definition has_sentiment (t : str) : Prop :=
  exists k, In k sentiment_keywords /\ substring k t.

(** The position in the list of the first rule one of whose keywords occurs
    in the text; the number of rules when there is none. *)
Fixpoint rule_index (rules : list (list str * str)) (text : str) : nat :=
  match rules with
  | [] => 0
  | (keywords, _) :: rules' =>
      if any_in keywords text then 0 else S (rule_index rules' text)
  end.

(** The rules without the keywords that contain another keyword of their
    own rule: "cancellation" (contains "cancel"), "overcharged" and "double
    charge" (contain "charge"). *)
Definition pruned_rules : list (list str * str) :=
  [([py "cancel"; py "unsubscribe"; py "end my account";
     py "close my account"], py "Membership Cancellation");
   ([py "password"; py "reset"; py "forgot"; py "login issue";
     py "can't log in"], py "Password Reset / Login Issue");
   ([py "refund"; py "money back"; py "reimburse"], py "Refund Request");
   ([py "billing"; py "charge"; py "invoice"], py "Billing Inquiry");
   ([py "update card"; py "new card"; py "payment method";
     py "credit card update"], py "Update Payment Method");
   ([py "not working"; py "error"; py "issue"; py "problem"; py "bug"],
    py "Technical Issue");
   ([py "hours"; py "open"; py "close"; py "location"; py "address"],
    py "Store Hours/Location Inquiry");
   ([py "how to"; py "question"; py "inquiry"; py "information"],
    py "General Question");
   ([py "upgrade"; py "downgrade"; py "change plan"], py "Plan Change Request");
   ([py "product"; py "service"; py "feature request"],
    py "Product/Feature Request")].

(** The keywords of the three rules of the reduced classifier. *)
Definition reduced_keywords : list str :=
  [py "cancel"; py "cancellation"; py "unsubscribe"; py "end my account";
   py "close my account"; py "password"; py "reset"; py "forgot";
   py "login issue"; py "can't log in"; py "refund"; py "money back";
   py "reimburse"].

(** The replies to a listing request, by what the loop does on them. A
    reply with status 429 asks to wait. *)
Definition rate_limited (r : http_reply) : bool :=
  match r with
  | Reply status_code _ => status_code =? 429
  | RequestException => false
  end.

(** A page: a status that is neither 429 nor an error, and a body that is a
    dict with a code equal to 0 and, under "data", a list that is not empty
    and whose elements all have an "id"; [page_ids] gives these ids. *)
Definition page_ids (r : http_reply) : option (list value) :=
  match r with
  | Reply status_code (VDict d) =>
      if (status_code =? 429) || raises_for_status status_code then None
      else
        match dict_get d (py "code"), dict_get d (py "data") with
        | Some code, Some (VList (chat :: chats)) =>
            if equals_zero code
            then for_each (fun chat => py_getitem chat (py "id"))
                          (chat :: chats)
            else None
        | _, _ => None
        end
  | _ => None
  end.

(** A reply that ends the listing: a failed request, an error status other
    than 429, or a dict that does not have a code equal to 0 together with a
    "data", or whose "data" counts as false (an empty page). *)
Definition ends_listing (r : http_reply) : bool :=
  match r with
  | RequestException => true
  | Reply status_code body =>
      if status_code =? 429 then false
      else if raises_for_status status_code then true
      else
        match body with
        | VDict d =>
            match dict_get d (py "code"), dict_get d (py "data") with
            | Some code, Some chats =>
                if equals_zero code then negb (truthy chats) else true
            | _, _ => true
            end
        | _ => false
        end
  end.

(** A reply of a shape the loop does not expect: a good status with a body
    that is not a dict, or with code 0 and a "data" that counts as true but
    is not a list of dicts that all have an "id". *)
Definition malformed (r : http_reply) : bool :=
  match r with
  | RequestException => false
  | Reply status_code body =>
      if (status_code =? 429) || raises_for_status status_code then false
      else
        match body with
        | VDict d =>
            match dict_get d (py "code"), dict_get d (py "data") with
            | Some code, Some chats =>
                equals_zero code && truthy chats
                && match chat_ids_of chats with
                   | Some _ => false
                   | None => true
                   end
            | _, _ => false
            end
        | _ => true
        end
  end.

(** The ids of the pages among some replies, in order, and their number. *)
Definition listed_ids (replies : list http_reply) : list value :=
  flat_map (fun r => match page_ids r with Some ids => ids | None => [] end)
           replies.

Definition count_pages (replies : list http_reply) : nat :=
  length (filter (fun r => match page_ids r with
                           | Some _ => true
                           | None => false
                           end) replies).

(** The listing requests among some events, as (limit, start index), and
    the seconds slept in all. *)
Definition listing_requests (events : list event) : list (nat * nat) :=
  flat_map (fun e => match e with
                     | GetChats limit start_index => [(limit, start_index)]
                     | _ => []
                     end) events.

Definition seconds_slept (events : list event) : nat :=
  list_sum (map (fun e => match e with Sleep n => n | _ => 0 end) events).

(** The conversation requests among some events: the chat ids asked for. *)
Definition conversation_requests (events : list event) : list value :=
  flat_map (fun e => match e with
                     | GetConversation chat_id => [chat_id]
                     | _ => []
                     end) events.

(** Some replies of the service: a page of two chats, a page of one, a
    reply that asks to wait, an empty page and a body that is not a dict. *)
Definition demo_page : http_reply :=
  Reply 200 (VDict [(py "code", VInt 0);
                    (py "data", VList [VDict [(py "id", VInt 7)];
                                       VDict [(py "id", VStr (py "c8"))]])]).

Definition demo_page' : http_reply :=
  Reply 200 (VDict [(py "code", VInt 0);
                    (py "data", VList [VDict [(py "id", VInt 9)]])]).

Definition demo_wait : http_reply := Reply 429 VNone.

Definition demo_empty_page : http_reply :=
  Reply 200 (VDict [(py "code", VInt 0); (py "data", VList [])]).

Definition demo_bad_body : http_reply := Reply 200 (VList [VInt 1]).

(** A reply to the token request and a reply with a conversation of two
    messages. *)
Definition demo_token : http_reply :=
  Reply 200 (VDict [(py "access_token", VStr (py "tok"))]).

Definition demo_conversation : http_reply :=
  Reply 200
    (VDict [(py "code", VInt 0);
            (py "data",
             VDict [(py "chat", VInt 7);
                    (py "conversation",
                     VList [VDict [(py "msg", VStr (py "write to a@b.com"));
                                   (py "sent_by", VStr (py "Ann 555-123-4567"));
                                   (py "time", VInt 3)];
                            VDict [(py "note", VNone)]])])]).

(** A request that gets no usable reply: it fails, or the status is an
    error (429 included). *)
Definition request_fails (r : http_reply) : bool :=
  match r with
  | RequestException => true
  | Reply status_code _ => raises_for_status status_code
  end.

Section Vocabulary.

Variable db : unicode_db.

Definition word_before (p : option N) : bool :=
  match p with Some c => is_word db c | None => false end.

Definition word_after (s : str) : bool :=
  match s with c :: _ => is_word db c | [] => false end.

(** All the ways a pattern matches from a position, as a relation:
    [matches pat p s p' s'] when [pat] matches from the position [(p, s)]
    and the match ends at [(p', s')]. The matcher returns the first of
    them in its order of preference. *)
Inductive matches : pattern -> option N -> str -> option N -> str -> Prop :=
| M_nil p s : matches [] p s p s
| M_one cs pat p c s p' s' :
    in_cset db cs c = true -> matches pat (Some c) s p' s' ->
    matches (One cs :: pat) p (c :: s) p' s'
| M_opt_take cs pat p c s p' s' :
    in_cset db cs c = true -> matches pat (Some c) s p' s' ->
    matches (Opt cs :: pat) p (c :: s) p' s'
| M_opt_skip cs pat p s p' s' :
    matches pat p s p' s' -> matches (Opt cs :: pat) p s p' s'
| M_plus_one cs pat p c s p' s' :
    in_cset db cs c = true -> matches pat (Some c) s p' s' ->
    matches (Plus cs :: pat) p (c :: s) p' s'
| M_plus_more cs pat p c s p' s' :
    in_cset db cs c = true -> matches (Plus cs :: pat) (Some c) s p' s' ->
    matches (Plus cs :: pat) p (c :: s) p' s'
| M_bound pat p s p' s' :
    at_boundary db p s = true -> matches pat p s p' s' ->
    matches (WordBoundary :: pat) p s p' s'.




(** The characters a pattern can read. *)
Definition pattern_char (pat : pattern) (c : N) : bool :=
  existsb (fun it => match it with
                     | One cs | Opt cs | Plus cs => in_cset db cs c
                     | WordBoundary => false
                     end) pat.

(** [\S]. *)
Definition ns (c : N) : bool := negb (is_space db c).

Definition ns_before (p : option N) : bool :=
  match p with Some c => ns c | None => false end.

Definition ns_after (s : str) : bool :=
  match s with c :: _ => ns c | [] => false end.

Definition is_at (p : option N) : bool :=
  match p with Some c => (c =? 64)%N | None => false end.

(** No [@] of the string stands between two characters that are not white
    space; [p2] and [p1] are the two characters before the string. *)
Fixpoint at_free (p2 p1 : option N) (s : str) : bool :=
  match s with
  | [] => true
  | c :: tl => negb (ns_before p2 && is_at p1 && ns c)
               && at_free p1 (Some c) tl
  end.

(** Up to the next white space, no [@] of the string is followed by a
    character that is not white space. *)
Fixpoint noat (s : str) : bool :=
  match s with
  | [] => true
  | c :: tl =>
      if is_space db c then true
      else (negb (c =? 64)%N || negb (ns_after tl)) && noat tl
  end.

(** Neither pattern of the scrubber matches anywhere in the string. *)
Definition clean (s : str) : Prop :=
  forall u v, s = u ++ v ->
    match_here db email_pattern (lastc None u) v = None /\
    match_here db phone_pattern (lastc None u) v = None.

(** A message that is a dict has clean strings under "msg" and "sent_by". *)
Definition message_scrubbed (m : value) : Prop :=
  forall d key s,
    m = VDict d -> key = py "msg" \/ key = py "sent_by" ->
    dict_get d key = Some (VStr s) -> clean s.

(** A transcript is a dict with a "conversation", and when that is a list
    its messages are scrubbed. *)
Definition transcript_scrubbed (t : value) : Prop :=
  exists d conversation,
    t = VDict d /\ dict_get d (py "conversation") = Some conversation /\
    forall messages, conversation = VList messages ->
                     Forall message_scrubbed messages.

End Vocabulary.

(** ** Strings *)

Lemma str_eqb_eq (a b : str) : str_eqb a b = true <-> a = b.
Proof.
  revert b; induction a as [|x a IH]; intros [|y b]; simpl;
    try (split; [discriminate | discriminate]); try tauto.
  rewrite andb_true_iff, N.eqb_eq, IH.
  split; [intros [-> ->]; reflexivity | intros H; injection H; auto].
Qed.

Lemma str_eqb_refl (a : str) : str_eqb a a = true.
Proof. apply str_eqb_eq; reflexivity. Qed.

Lemma startswith_spec (t k : str) :
  startswith t k = true <-> exists v, t = k ++ v.
Proof.
  revert t; induction k as [|x k IH]; intros t.
  - split; [intros _; exists t; reflexivity | destruct t; reflexivity].
  - destruct t as [|y t].
    + split; [discriminate | intros [v H]; discriminate].
    + cbn [startswith]. rewrite andb_true_iff, N.eqb_eq, IH. split.
      * intros [-> [v ->]]. exists v; reflexivity.
      * intros [v H]. injection H as -> ->. split; [reflexivity | eauto].
Qed.

Lemma contains_spec (t k : str) : contains t k = true <-> substring k t.
Proof.
  unfold substring. induction t as [|y t IH].
  - cbn [contains]. rewrite orb_false_r, startswith_spec. split.
    + intros [v H]. exists [], v. exact H.
    + intros [u [v H]]. destruct u; [exists v; exact H | discriminate].
  - cbn [contains]. rewrite orb_true_iff, startswith_spec, IH. split.
    + intros [[v H] | [u [v H]]].
      * exists [], v. exact H.
      * exists (y :: u), v. rewrite H. reflexivity.
    + intros [[|x u] [v H]].
      * left. exists v. exact H.
      * right. injection H as _ H. exists u, v. exact H.
Qed.

Lemma any_in_spec (keywords : list str) (text : str) :
  any_in keywords text = true <->
  exists k, In k keywords /\ substring k text.
Proof.
  unfold any_in. rewrite existsb_exists.
  split; intros [k [Hk H]]; exists k; split; auto; apply contains_spec; auto.
Qed.

(** ** The intent classifier and the automation tiers *)

Lemma sentiment_alternatives :
  split_on 124 human_in_the_loop_keywords = sentiment_keywords.
Proof. reflexivity. Qed.

Lemma str_contains_sentiment (t : str) :
  str_contains human_in_the_loop_keywords t = true <->
  exists k, In k sentiment_keywords /\ substring k t.
Proof.
  unfold str_contains. rewrite sentiment_alternatives.
  exact (any_in_spec sentiment_keywords t).
Qed.

Lemma automation_categories_rows (df : list row) :
  automation_categories df =
  map (fun r => mkrow (text r) (Intent r) (row_category r)) df.
Proof.
  unfold automation_categories, loc_set. rewrite !map_map.
  apply map_ext. intros r. unfold row_category. cbn [text Intent].
  destruct (isin (Intent r) full_automation_intents); cbn [text Intent];
    destruct (isin (Intent r) agentic_workflow_intents); cbn [text Intent];
    destruct (str_contains human_in_the_loop_keywords (text r));
    cbn [text Intent]; destruct (str_eqb (Intent r) (py "Other"));
    reflexivity.
Qed.

Lemma automation_categories_swapped_rows (df : list row) :
  automation_categories_swapped df =
  map (fun r => mkrow (text r) (Intent r) (row_category r)) df.
Proof.
  unfold automation_categories_swapped, loc_set. rewrite !map_map.
  apply map_ext. intros r. unfold row_category. cbn [text Intent].
  destruct (isin (Intent r) full_automation_intents); cbn [text Intent];
    destruct (isin (Intent r) agentic_workflow_intents); cbn [text Intent];
    destruct (str_eqb (Intent r) (py "Other")); cbn [text Intent];
    destruct (str_contains human_in_the_loop_keywords (text r));
    reflexivity.
Qed.

Lemma row_category_sentiment (r : row) :
  str_contains human_in_the_loop_keywords (text r) = true ->
  row_category r = py "Human-in-the-Loop".
Proof.
  intros H. unfold row_category. rewrite H.
  destruct (str_eqb (Intent r) (py "Other")); reflexivity.
Qed.

Lemma row_category_other (r : row) :
  Intent r = py "Other" -> row_category r = py "Human-in-the-Loop".
Proof.
  intros H. unfold row_category. rewrite H, str_eqb_refl. reflexivity.
Qed.

(** C1. Whatever its intent, a row whose text contains one of the nine
    sentiment keywords as a substring ends in the tier Human-in-the-Loop: the
    assignment keeps every row with its text and intent, and in the result
    every row with such a text has that tier. *)
Theorem C1_sentiment_forces_human (df : list row) :
  map (fun r => (text r, Intent r)) (automation_categories df) =
  map (fun r => (text r, Intent r)) df /\
  forall r, In r (automation_categories df) ->
    (exists k, In k sentiment_keywords /\ substring k (text r)) ->
    AutomationCategory r = py "Human-in-the-Loop".
Proof.
  rewrite automation_categories_rows. split.
  - rewrite map_map. reflexivity.
  - intros r Hr Hk. apply in_map_iff in Hr. destruct Hr as [r0 [<- _]].
    cbn [AutomationCategory]. apply row_category_sentiment.
    apply str_contains_sentiment. exact Hk.
Qed.

Lemma C1_sentiment_forces_human_witness :
  let df := [mkrow (py "refund now or i escalate to a manager")
                   (py "Refund Request") []] in
  let r := mkrow (py "refund now or i escalate to a manager")
                 (py "Refund Request") (py "Human-in-the-Loop") in
  In r (automation_categories df) /\
  substring (py "escalate") (text r) /\
  AutomationCategory r = py "Human-in-the-Loop".
Proof.
  cbv zeta.
  assert (Hin : In (mkrow (py "refund now or i escalate to a manager")
                          (py "Refund Request") (py "Human-in-the-Loop"))
                   (automation_categories
                      [mkrow (py "refund now or i escalate to a manager")
                             (py "Refund Request") []]))
    by (left; reflexivity).
  assert (Hsub : substring (py "escalate")
                           (py "refund now or i escalate to a manager"))
    by (apply contains_spec; vm_compute; reflexivity).
  split; [exact Hin | split; [exact Hsub|]].
  refine (proj2 (C1_sentiment_forces_human _) _ Hin _).
  exists (py "escalate"). split; [|exact Hsub].
  right; right; right; right; right; right; left. reflexivity.
Defined.

(** C4. A row whose intent is Other ends in the tier Human-in-the-Loop,
    whatever its text, and also when the two overrides are applied in the
    other order. *)
Theorem C4_other_forces_human (df : list row) (r : row) :
  In r (automation_categories df) \/ In r (automation_categories_swapped df) ->
  Intent r = py "Other" ->
  AutomationCategory r = py "Human-in-the-Loop".
Proof.
  rewrite automation_categories_rows, automation_categories_swapped_rows.
  intros Hr Ho. assert (H : In r (map (fun r => mkrow (text r) (Intent r)
                                                  (row_category r)) df))
    by tauto.
  apply in_map_iff in H. destruct H as [r0 [<- _]].
  cbn [AutomationCategory]. apply row_category_other. exact Ho.
Qed.

Lemma C4_other_forces_human_witness :
  let df := map (fun t => mkrow t (map_intent t) []) [py "hello there"] in
  let r := mkrow (py "hello there") (py "Other") (py "Human-in-the-Loop") in
  In r (automation_categories df) /\ Intent r = py "Other" /\
  AutomationCategory r = py "Human-in-the-Loop".
Proof.
  cbv zeta.
  assert (Hin : In (mkrow (py "hello there") (py "Other")
                          (py "Human-in-the-Loop"))
                   (automation_categories
                      (map (fun t => mkrow t (map_intent t) [])
                           [py "hello there"])))
    by (left; reflexivity).
  split; [exact Hin | split; [reflexivity|]].
  exact (C4_other_forces_human _ _ (or_introl Hin) eq_refl).
Defined.

Lemma map_intent_first_match (t : str) :
  map_intent t = first_match intent_rules t.
Proof. reflexivity. Qed.

Lemma first_match_app (pre post : list (list str * str)) (t : str) :
  (forall rule, In rule pre -> any_in (fst rule) t = false) ->
  first_match (pre ++ post) t = first_match post t.
Proof.
  induction pre as [|[kws label] pre IH]; intros Hpre; simpl.
  - reflexivity.
  - pose proof (Hpre (kws, label) (or_introl eq_refl)) as E.
    cbn [fst] in E. rewrite E. apply IH. intros rule Hin. apply Hpre. right. exact Hin.
Qed.

(** C3. The rules are tried in the listed order and the first one with a
    keyword in the text gives the label: if a rule matches and no rule
    listed before it does, its label is the result, whatever the later rules
    say. The text of the example contains the password keyword "forgot" and
    is classified as Membership Cancellation. *)
Theorem C3_first_rule_wins :
  (forall t pre keywords label post,
      intent_rules = pre ++ (keywords, label) :: post ->
      (forall rule, In rule pre ->
         forall k, In k (fst rule) -> ~ substring k t) ->
      (exists k, In k keywords /\ substring k t) ->
      map_intent t = label) /\
  substring (py "forgot") (py "i want to cancel because i forgot my password") /\
  map_intent (py "i want to cancel because i forgot my password")
  = py "Membership Cancellation".
Proof.
  split; [|split].
  - intros t pre keywords label post Hrules Hpre Hk.
    rewrite map_intent_first_match, Hrules, first_match_app.
    + simpl. apply any_in_spec in Hk. rewrite Hk. reflexivity.
    + intros rule Hin. destruct (any_in (fst rule) t) eqn:E; [|reflexivity].
      apply any_in_spec in E. destruct E as [k [Hkin Hsub]].
      exfalso. exact (Hpre rule Hin k Hkin Hsub).
  - apply contains_spec. vm_compute. reflexivity.
  - vm_compute. reflexivity.
Qed.

Lemma C3_first_rule_wins_witness :
  map_intent (py "please reset it and refund me")
  = py "Password Reset / Login Issue".
Proof.
  refine (proj1 C3_first_rule_wins (py "please reset it and refund me")
            (firstn 1 intent_rules) _ _ (skipn 2 intent_rules) eq_refl _ _).
  - intros rule [<- | []] k Hk Hsub. apply contains_spec in Hsub.
    cbn [fst] in Hk.
    repeat (destruct Hk as [<- | Hk]; [vm_compute in Hsub; discriminate|]).
    destruct Hk.
  - exists (py "reset"). split.
    + vm_compute. tauto.
    + apply contains_spec. vm_compute. reflexivity.
Defined.

Lemma first_match_label (rules : list (list str * str)) (t : str) :
  In (first_match rules t) (map snd rules ++ [py "Other"]).
Proof.
  induction rules as [|[kws label] rules IH]; simpl.
  - left; reflexivity.
  - destruct (any_in kws t); [left; reflexivity | right; exact IH].
Qed.

Lemma NoDup_by_eqb (l : list str) :
  (fix distinct (l : list str) : bool :=
     match l with
     | [] => true
     | x :: l' => negb (isin x l') && distinct l'
     end) l = true -> NoDup l.
Proof.
  induction l as [|x l IH]; intros H.
  - constructor.
  - apply andb_true_iff in H. destruct H as [Hx Hl]. constructor.
    + intros Hin. apply negb_true_iff in Hx.
      assert (isin x l = true) as E.
      { unfold isin. apply existsb_exists. exists x. split; auto.
        apply str_eqb_refl. }
      congruence.
    + apply IH. exact Hl.
Qed.

(** C7. The classifier is total and single-valued: there are eleven
    distinct labels, and for every text the classifier returns exactly one
    of them. *)
Theorem C7_classifier_total :
  length intent_labels = 11 /\ NoDup intent_labels /\
  forall t : str, exists! l, In l intent_labels /\ map_intent t = l.
Proof.
  split; [reflexivity | split].
  - apply NoDup_by_eqb. vm_compute. reflexivity.
  - intros t. exists (map_intent t). split.
    + split; [|reflexivity]. rewrite map_intent_first_match.
      exact (first_match_label intent_rules t).
    + intros l [_ H]. exact H.
Qed.

(** ** The reduced classifier of topic discovery *)

Section ReducedClassifier.

Variable lower : str -> str.

(** The reduced classifier lowers its argument itself; on the text the full
    classifier is given (the lowered one) both go through the same first
    three rules. *)
Lemma reduced_agrees_after_lower (raw : str) :
  map_initial_intent lower raw <> py "Other" ->
  In (map_initial_intent lower raw) reduced_labels /\
  map_intent (lower raw) = map_initial_intent lower raw.
Proof.
  unfold map_initial_intent, map_intent. cbv zeta.
  destruct (any_in _ (lower raw)).
  - intros _. split; [left; reflexivity | reflexivity].
  - destruct (any_in _ (lower raw)).
    + intros _. split; [right; left; reflexivity | reflexivity].
    + destruct (any_in _ (lower raw)).
      * intros _. split; [right; right; left; reflexivity | reflexivity].
      * intros H. exfalso. apply H. reflexivity.
Qed.

(** C2. On a lowercased text (one that [lower] leaves as it is), a label
    other than Other returned by the reduced classifier is one of its three
    labels, and the full classifier returns the same label. *)
Theorem C2_reduced_classifier_agrees (t : str) :
  lower t = t ->
  map_initial_intent lower t <> py "Other" ->
  In (map_initial_intent lower t) reduced_labels /\
  map_intent t = map_initial_intent lower t.
Proof.
  intros Hlow Hne. pose proof (reduced_agrees_after_lower t Hne) as H.
  rewrite Hlow in H. exact H.
Qed.

End ReducedClassifier.

Lemma C2_reduced_classifier_agrees_witness :
  In (map_initial_intent ascii_lower (py "i forgot my password, refund me"))
     reduced_labels /\
  map_intent (py "i forgot my password, refund me")
  = map_initial_intent ascii_lower (py "i forgot my password, refund me").
Proof.
  apply (C2_reduced_classifier_agrees ascii_lower).
  - vm_compute. reflexivity.
  - vm_compute. discriminate.
Defined.

(** ** Topic discovery: counting *)

Lemma argmax_from_bound (l : list Z) (best_i i : nat) (best : Z) :
  best_i < i -> argmax_from best_i best i l < i + length l.
Proof.
  revert best_i i best. induction l as [|x l IH]; intros best_i i best Hlt.
  - simpl. lia.
  - simpl. destruct (best <? x)%Z.
    + specialize (IH i (S i) x). lia.
    + specialize (IH best_i (S i) best). lia.
Qed.

Lemma argmax_bound (row : list Z) : row <> [] -> argmax row < length row.
Proof.
  destruct row as [|x l]; [congruence | intros _].
  unfold argmax. pose proof (argmax_from_bound l 0 1 x Nat.lt_0_1). simpl. lia.
Qed.

Lemma argmax_from_spec (l : list Z) :
  forall (pre : list Z) (best_i : nat) (best : Z),
    best_i < length pre ->
    nth best_i pre 0%Z = best ->
    (forall j, j < length pre -> (nth j pre 0 <= best)%Z) ->
    (forall j, j < best_i -> (nth j pre 0 < best)%Z) ->
    let r := argmax_from best_i best (length pre) l in
    r < length (pre ++ l) /\
    (forall j, j < length (pre ++ l) ->
               (nth j (pre ++ l) 0 <= nth r (pre ++ l) 0)%Z) /\
    (forall j, j < r -> (nth j (pre ++ l) 0 < nth r (pre ++ l) 0)%Z).
Proof.
  induction l as [|x l IH]; intros pre best_i best Hi Hbest Hmax Hfirst.
  - cbv zeta. cbn [argmax_from]. rewrite app_nil_r, Hbest. auto.
  - cbv zeta. cbn [argmax_from].
    replace (pre ++ x :: l) with ((pre ++ [x]) ++ l)
      by (rewrite <- app_assoc; reflexivity).
    replace (S (length pre)) with (length (pre ++ [x]))
      by (rewrite length_app; simpl; lia).
    destruct (Z.ltb_spec best x) as [Hlt | Hge].
    + apply IH.
      * rewrite length_app. simpl. lia.
      * rewrite app_nth2 by lia. rewrite Nat.sub_diag. reflexivity.
      * intros j Hj. rewrite length_app in Hj. simpl in Hj.
        destruct (Nat.eq_dec j (length pre)) as [-> | Hne].
        -- rewrite app_nth2 by lia. rewrite Nat.sub_diag. simpl. lia.
        -- rewrite app_nth1 by lia. specialize (Hmax j). lia.
      * intros j Hj. rewrite app_nth1 by lia. specialize (Hmax j). lia.
    + apply IH.
      * rewrite length_app. simpl. lia.
      * rewrite app_nth1 by lia. exact Hbest.
      * intros j Hj. rewrite length_app in Hj. simpl in Hj.
        destruct (Nat.eq_dec j (length pre)) as [-> | Hne].
        -- rewrite app_nth2 by lia. rewrite Nat.sub_diag. simpl. lia.
        -- rewrite app_nth1 by lia. apply Hmax. lia.
      * intros j Hj. rewrite app_nth1 by lia. apply Hfirst. exact Hj.
Qed.

(** [argmax] gives the first maximum of a row that is not empty. *)
Lemma argmax_first_maximum (row : list Z) :
  row <> [] ->
  argmax row < length row /\
  (forall j, j < length row -> (nth j row 0 <= nth (argmax row) row 0)%Z) /\
  (forall j, j < argmax row -> (nth j row 0 < nth (argmax row) row 0)%Z).
Proof.
  destruct row as [|x l]; [congruence | intros _].
  unfold argmax.
  apply (argmax_from_spec l [x] 0 x).
  - simpl. lia.
  - reflexivity.
  - intros j Hj. simpl in Hj. destruct j; [simpl; lia | lia].
  - intros j Hj. lia.
Qed.

Lemma series_get_absent (s : list (nat * nat)) (x : nat) :
  Forall (fun p => x < fst p) s -> series_get s x 0 = 0.
Proof.
  induction 1 as [|[k c] s Hk _ IH]; simpl.
  - reflexivity.
  - simpl in Hk. destruct (Nat.eqb_spec x k); [lia | exact IH].
Qed.

Lemma bump_keys (k : nat) (s : list (nat * nat)) (P : nat -> Prop) :
  P k -> Forall (fun p => P (fst p)) s -> Forall (fun p => P (fst p)) (bump k s).
Proof.
  intros Hk. induction 1 as [|[k' c] s Hp Hs IH]; simpl.
  - constructor; [exact Hk | constructor].
  - destruct (k <? k'); [|destruct (k =? k')].
    + constructor; [exact Hk | constructor; assumption].
    + constructor; assumption.
    + constructor; assumption.
Qed.

Lemma bump_ascending (k : nat) (s : list (nat * nat)) :
  keys_ascending s -> keys_ascending (bump k s).
Proof.
  unfold keys_ascending.
  induction 1 as [|[k' c] s Hs IH Hall]; simpl.
  - constructor; constructor.
  - destruct (Nat.ltb_spec k k'); [|destruct (Nat.eqb_spec k k')].
    + constructor.
      * constructor; assumption.
      * constructor; [simpl; lia|].
        eapply Forall_impl; [|exact Hall]. simpl. intros. lia.
    + constructor; [exact Hs|]. exact Hall.
    + constructor; [exact IH|].
      apply (bump_keys k s (fun x => k' < x)); [lia | exact Hall].
Qed.

Lemma series_get_bump (k x : nat) (s : list (nat * nat)) :
  keys_ascending s ->
  series_get (bump k s) x 0 = (if x =? k then 1 else 0) + series_get s x 0.
Proof.
  unfold keys_ascending.
  induction 1 as [|[k' c] s Hs IH Hall]; simpl.
  - destruct (x =? k); reflexivity.
  - destruct (Nat.ltb_spec k k'); [|destruct (Nat.eqb_spec k k')]; simpl.
    + destruct (Nat.eqb_spec x k) as [->|]; [|reflexivity].
      destruct (Nat.eqb_spec k k'); [lia|].
      rewrite series_get_absent; [reflexivity|].
      eapply Forall_impl; [|exact Hall]. simpl. intros. lia.
    + subst k'. destruct (x =? k); reflexivity.
    + destruct (Nat.eqb_spec x k'); [|exact IH].
      destruct (Nat.eqb_spec x k); [lia | reflexivity].
Qed.

Lemma value_counts_ascending (l : list nat) :
  keys_ascending (value_counts_sort_index l).
Proof.
  induction l as [|a l IH]; simpl.
  - constructor.
  - apply bump_ascending. exact IH.
Qed.

(** Looking a value up in the counted series, with default 0, gives its
    number of occurrences. *)
Lemma series_get_count (l : list nat) (x : nat) :
  series_get (value_counts_sort_index l) x 0 = count_occ Nat.eq_dec l x.
Proof.
  induction l as [|a l IH]; simpl.
  - reflexivity.
  - rewrite series_get_bump by apply value_counts_ascending. rewrite IH.
    destruct (Nat.eq_dec a x) as [->|Hne].
    + rewrite Nat.eqb_refl. reflexivity.
    + destruct (Nat.eqb_spec x a); [congruence | reflexivity].
Qed.

Lemma list_sum_indicator (a k : nat) :
  a < k ->
  list_sum (map (fun t => if Nat.eq_dec a t then 1 else 0) (seq 0 k)) = 1.
Proof.
  induction k as [|k IH]; intros Hlt; [lia|].
  rewrite seq_S, map_app, list_sum_app. simpl.
  destruct (Nat.eq_dec a k) as [->|Hne].
  - assert (E : forall n, n <= k ->
      list_sum (map (fun t => if Nat.eq_dec k t then 1 else 0) (seq 0 n)) = 0).
    { induction n as [|n IHn]; intros Hn; [reflexivity|].
      rewrite seq_S, map_app, list_sum_app, IHn by lia. simpl.
      destruct (Nat.eq_dec k n); lia. }
    rewrite E by lia. reflexivity.
  - rewrite IH by lia. reflexivity.
Qed.

(** The counts of the values below [k] add up to the length of the list
    when every entry is below [k]. *)
Lemma count_sum (l : list nat) (k : nat) :
  Forall (fun a => a < k) l ->
  list_sum (map (count_occ Nat.eq_dec l) (seq 0 k)) = length l.
Proof.
  induction 1 as [|a l Ha _ IH].
  - simpl. induction (seq 0 k); simpl; auto.
  - assert (E : forall s,
      list_sum (map (count_occ Nat.eq_dec (a :: l)) s) =
      list_sum (map (fun t => if Nat.eq_dec a t then 1 else 0) s)
      + list_sum (map (count_occ Nat.eq_dec l) s)).
    { induction s as [|t s IHs]; simpl; [reflexivity|].
      simpl in IHs. rewrite IHs. destruct (Nat.eq_dec a t); lia. }
    rewrite E, IH, (list_sum_indicator a k Ha). reflexivity.
Qed.

Lemma topic_headers_app (a b : list printed) :
  topic_headers (a ++ b) = topic_headers a ++ topic_headers b.
Proof. unfold topic_headers. apply flat_map_app. Qed.

Section TopicScript.

Variable lower : str -> str.
Variable fit_transform : list str -> option (list str * list (list nat)).
Variable lda_fit : nat -> list (list nat) -> option lda_model.
Variable argsort : list Z -> list nat.

Lemma report_headers (feature_names : list str) (lda : lda_model)
    (X : list (list nat)) :
  topic_headers (report argsort feature_names lda X) =
  map (fun t => (t + 1, count_occ Nat.eq_dec (topic_assignments lda X) t))
      (seq 0 NUM_TOPICS).
Proof.
  unfold report. cbv zeta. rewrite topic_headers_app.
  change (topic_headers [StepCounting; CountingDone; ResultsBanner NUM_TOPICS])
    with (@nil (nat * nat)).
  cbn [app]. induction (seq 0 NUM_TOPICS) as [|t s IH]; [reflexivity|].
  cbn [flat_map map]. rewrite topic_headers_app, IH.
  unfold topic_lines at 1. cbv zeta. rewrite series_get_count. reflexivity.
Qed.

Lemma assignments_in_range (lda : lda_model) (X : list (list nat)) :
  Forall (fun row => length row = NUM_TOPICS) (transform lda X) ->
  Forall (fun a => a < NUM_TOPICS) (topic_assignments lda X).
Proof.
  unfold topic_assignments. induction 1 as [|row m Hrow _ IH]; simpl.
  - constructor.
  - constructor; [|exact IH]. rewrite <- Hrow. apply argmax_bound.
    intros ->. discriminate.
Qed.

(** C8. When topic discovery reaches its report (there are Other tickets,
    the vectorizer gives a vocabulary that is not empty and the model is
    fitted) and the fitted model gives each Other ticket one row of
    [NUM_TOPICS] topic weights, every ticket is assigned one topic, a topic
    at which its row is maximal (the first of them when there are several);
    the report has one header for each of the topics 0 .. NUM_TOPICS-1 in
    order (shown as number + 1) with the number of tickets assigned to it,
    0 included, and these counts add up to the number of Other tickets. *)
Theorem C8_topic_counts (rows : list ticket) (feature_names : list str)
    (X : list (list nat)) (lda : lda_model) :
  other_tickets lower rows <> [] ->
  fit_transform (other_tickets lower rows) = Some (feature_names, X) ->
  feature_names <> [] ->
  lda_fit NUM_TOPICS X = Some lda ->
  length (transform lda X) = length (other_tickets lower rows) ->
  Forall (fun row => length row = NUM_TOPICS) (transform lda X) ->
  let out := stdout (analyze_and_count_topics lower fit_transform lda_fit
                                              argsort (Frame rows)) in
  let assigned := topic_assignments lda X in
  length assigned = length (other_tickets lower rows) /\
  (forall d row, nth_error (transform lda X) d = Some row ->
     exists k, nth_error assigned d = Some k /\ k < NUM_TOPICS /\
       (forall j, j < NUM_TOPICS -> (nth j row 0 <= nth k row 0)%Z) /\
       (forall j, j < k -> (nth j row 0 < nth k row 0)%Z)) /\
  Forall (fun a => a < NUM_TOPICS) assigned /\
  topic_headers out =
    map (fun t => (t + 1, count_occ Nat.eq_dec assigned t))
        (seq 0 NUM_TOPICS) /\
  list_sum (map snd (topic_headers out)) = length (other_tickets lower rows).
Proof.
  intros Hne Hfit Hvoc Hlda Hlen Hshape out assigned.
  assert (Hout : topic_headers out =
    map (fun t => (t + 1, count_occ Nat.eq_dec assigned t))
        (seq 0 NUM_TOPICS)).
  { subst out assigned. unfold analyze_and_count_topics.
    destruct (other_tickets lower rows) as [|o os] eqn:Eo; [congruence|].
    rewrite Hfit. destruct feature_names as [|f fs]; [congruence|].
    cbn [length Nat.eqb]. rewrite Hlda. cbn [stdout].
    rewrite !topic_headers_app, report_headers. reflexivity. }
  split; [|split; [|split; [apply assignments_in_range; exact Hshape|]]].
  - subst assigned. unfold topic_assignments. rewrite length_map. exact Hlen.
  - intros d row Hd. exists (argmax row).
    assert (Hrow : length row = NUM_TOPICS).
    { rewrite Forall_forall in Hshape. apply Hshape.
      apply (nth_error_In _ _ Hd). }
    assert (Hnil : row <> []) by (intros ->; discriminate Hrow).
    destruct (argmax_first_maximum row Hnil) as [Hlt [Hmax Hfirst]].
    rewrite Hrow in Hlt, Hmax.
    subst assigned. unfold topic_assignments.
    rewrite nth_error_map, Hd. cbn [option_map]. auto.
  - split; [exact Hout|].
    rewrite Hout, map_map. cbn [snd].
    rewrite count_sum by (apply assignments_in_range; exact Hshape).
    subst assigned. unfold topic_assignments. rewrite length_map. exact Hlen.
Qed.

End TopicScript.

Lemma C8_topic_counts_witness :
  let out := stdout (analyze_and_count_topics ascii_lower demo_fit_transform
                       (fun _ _ => Some demo_lda) stable_argsort
                       (Frame demo_rows)) in
  let assigned := topic_assignments demo_lda [[1; 0]; [1; 0]] in
  assigned = [1; 1] /\
  (forall d row, nth_error (transform demo_lda [[1; 0]; [1; 0]]) d = Some row ->
     exists k, nth_error assigned d = Some k /\ k < NUM_TOPICS /\
       (forall j, j < NUM_TOPICS -> (nth j row 0 <= nth k row 0)%Z) /\
       (forall j, j < k -> (nth j row 0 < nth k row 0)%Z)) /\
  topic_headers out =
    [(1, 0); (2, 2); (3, 0); (4, 0); (5, 0); (6, 0); (7, 0); (8, 0); (9, 0);
     (10, 0)] /\
  list_sum (map snd (topic_headers out)) = 2.
Proof.
  pose proof (C8_topic_counts ascii_lower demo_fit_transform
                (fun _ _ => Some demo_lda) stable_argsort demo_rows
                [py "printer"; py "towel"] [[1; 0]; [1; 0]] demo_lda) as H.
  cbv zeta in H.
  destruct H as [_ [H2 [_ [H4 H5]]]].
  - vm_compute. discriminate.
  - reflexivity.
  - discriminate.
  - reflexivity.
  - reflexivity.
  - repeat constructor.
  - cbv zeta. split; [reflexivity | split; [exact H2 | split; [exact H4 | exact H5]]].
Defined.

(** ** Topic discovery: empty input *)

(** C5, as the code has it. When no ticket classifies as Other the function
    prints its notice (line 55) after the three lines printed so far and
    returns: the script ends with status 0. When the vectorizer raises, or
    leaves an empty vocabulary, the run prints the error of line 76, or that
    of lines 69-70, after its five progress lines and calls [sys.exit()]
    without an argument: status 0 again. In both cases nothing of the topic
    report is printed. *)
Theorem C5_empty_input_exits_zero (lower : str -> str)
    (fit_transform : list str -> option (list str * list (list nat)))
    (lda_fit : nat -> list (list nat) -> option lda_model)
    (argsort : list Z -> list nat) (rows : list ticket) :
  let r := analyze_and_count_topics lower fit_transform lda_fit argsort
                                    (Frame rows) in
  let others := other_tickets lower rows in
  (others = [] ->
   stdout r = [Starting; FileLoaded (length rows); StepClassifying;
               NothingToAnalyze] /\
   ended r = Returns /\ exit_status (ended r) = 0%Z /\ no_topic_output r) /\
  (others <> [] ->
   fit_transform others = None \/
   (exists X, fit_transform others = Some ([], X)) ->
   (exists error,
      stdout r = [Starting; FileLoaded (length rows); StepClassifying;
                  FoundOther (length others); StepPreparing; error] /\
      (fit_transform others = None -> error = PreparationFailed) /\
      (fit_transform others <> None -> error = NoVocabulary)) /\
   ended r = SysExit None /\ exit_status (ended r) = 0%Z /\ no_topic_output r).
Proof.
  cbv zeta. unfold analyze_and_count_topics, no_topic_output. split.
  - intros ->. cbn. auto.
  - intros Hne Hfit. destruct (other_tickets lower rows) as [|o os];
      [congruence|].
    destruct Hfit as [-> | [X ->]]; cbn [stdout ended app length Nat.eqb].
    + split; [|cbn; auto]. exists PreparationFailed.
      split; [reflexivity | split; [reflexivity | congruence]].
    + split; [|cbn; auto]. exists NoVocabulary.
      split; [reflexivity | split; [discriminate | reflexivity]].
Qed.

Lemma C5_empty_input_exits_zero_witness :
  let r := analyze_and_count_topics ascii_lower (fun _ => None)
             (fun _ _ => None) (fun _ => [])
             (Frame [mkticket (Some (py "Printer")) (Some (py "It jams"))]) in
  stdout r = [Starting; FileLoaded 1; StepClassifying; FoundOther 1;
              StepPreparing; PreparationFailed] /\
  ended r = SysExit None /\ exit_status (ended r) = 0%Z /\ no_topic_output r.
Proof.
  destruct (proj2 (C5_empty_input_exits_zero ascii_lower (fun _ => None)
              (fun _ _ => None) (fun _ => [])
              [mkticket (Some (py "Printer")) (Some (py "It jams"))]))
    as [[error [Hout [Herr _]]] Hrest].
  - vm_compute. discriminate.
  - left. reflexivity.
  - rewrite (Herr eq_refl) in Hout. split; [exact Hout | exact Hrest].
Defined.

(** C5 as stated fails: a table whose only ticket is a cancellation has no
    Other ticket, and a table with an Other ticket on which the vectorizer
    raises has no vocabulary; neither run ends with a status other than 0. *)
Lemma C5_counterexample :
  ~ halts_nonzero
      (analyze_and_count_topics ascii_lower (fun _ => None) (fun _ _ => None)
         (fun _ => [])
         (Frame [mkticket (Some (py "Please CANCEL my membership")) None])) /\
  ~ halts_nonzero
      (analyze_and_count_topics ascii_lower (fun _ => None) (fun _ _ => None)
         (fun _ => [])
         (Frame [mkticket (Some (py "Printer")) (Some (py "It jams"))])).
Proof.
  split; intros H; apply H; vm_compute; reflexivity.
Qed.

(** ** Topic discovery: the top keywords *)

Lemma insert_by_perm (w : list Z) (i : nat) (l : list nat) :
  Permutation (insert_by w i l) (i :: l).
Proof.
  induction l as [|j l IH]; simpl.
  - apply Permutation_refl.
  - destruct (weight_at w i <=? weight_at w j)%Z.
    + apply Permutation_refl.
    + eapply Permutation_trans; [apply perm_skip; exact IH | apply perm_swap].
Qed.

Lemma insert_by_sorted (w : list Z) (i : nat) (l : list nat) :
  StronglySorted (fun i j => (weight_at w i <= weight_at w j)%Z) l ->
  StronglySorted (fun i j => (weight_at w i <= weight_at w j)%Z)
                 (insert_by w i l).
Proof.
  induction 1 as [|j l Hs IH Hall]; simpl.
  - constructor; constructor.
  - destruct (Z.leb_spec (weight_at w i) (weight_at w j)).
    + constructor; [constructor; assumption|].
      constructor; [assumption|].
      eapply Forall_impl; [|exact Hall]. simpl. intros. lia.
    + constructor; [exact IH|].
      eapply Permutation_Forall;
        [apply Permutation_sym; apply insert_by_perm|].
      constructor; [lia | exact Hall].
Qed.

Lemma stable_argsort_ok (w : list Z) : is_argsort w (stable_argsort w).
Proof.
  unfold is_argsort, stable_argsort. generalize (seq 0 (length w)) as s.
  induction s as [|i s [IHp IHs]]; simpl.
  - split; [apply Permutation_refl | constructor].
  - split.
    + eapply Permutation_trans; [apply insert_by_perm|].
      apply perm_skip. exact IHp.
    + apply insert_by_sorted. exact IHs.
Qed.

Lemma StronglySorted_app_inv (A : Type) (R : A -> A -> Prop) (l1 l2 : list A) :
  StronglySorted R (l1 ++ l2) ->
  StronglySorted R l1 /\ StronglySorted R l2 /\
  forall x y, In x l1 -> In y l2 -> R x y.
Proof.
  induction l1 as [|a l1 IH]; simpl; intros H.
  - split; [constructor | split; [exact H | intros x y []]].
  - apply StronglySorted_inv in H. destruct H as [Hs Hall].
    destruct (IH Hs) as [H1 [H2 Hx]]. apply Forall_app in Hall.
    destruct Hall as [Ha1 Ha2]. split; [constructor; assumption|].
    split; [exact H2|]. intros x y [<- | Hin] Hy.
    + rewrite Forall_forall in Ha2. apply Ha2. exact Hy.
    + apply Hx; assumption.
Qed.

Lemma StronglySorted_snoc (A : Type) (R : A -> A -> Prop) (l : list A) (a : A) :
  StronglySorted R l -> Forall (fun x => R x a) l ->
  StronglySorted R (l ++ [a]).
Proof.
  induction 1 as [|b l Hs IH Hall]; simpl; intros Ha.
  - constructor; constructor.
  - apply Forall_cons_iff in Ha. destruct Ha as [Hb Ha].
    constructor; [apply IH; exact Ha|].
    apply Forall_app. split; [exact Hall | constructor; [exact Hb | constructor]].
Qed.

Lemma StronglySorted_rev (A : Type) (R : A -> A -> Prop) (l : list A) :
  StronglySorted R l -> StronglySorted (fun x y => R y x) (rev l).
Proof.
  induction 1 as [|a l Hs IH Hall]; simpl.
  - constructor.
  - apply StronglySorted_snoc; [exact IH|].
    rewrite Forall_forall in *. intros x Hx. apply Hall. apply in_rev. exact Hx.
Qed.

(** C6, as the code has it. The keywords printed for a topic are the
    vocabulary terms at the last [NUM_WORDS_PER_TOPIC] indices of the argsort
    of the topic's weights, last one first. Given what numpy promises of
    argsort, these are distinct terms, as many as asked for (or the whole
    vocabulary if it is smaller), in an order in which the weights do not
    increase, and no term left out has a larger weight than a listed one.
    Terms of equal weight come in the reverse of the order argsort gave
    them. *)
Theorem C6_top_keywords (argsort : list Z -> list nat)
    (feature_names : list str) (lda : lda_model)
    (topic_counts : list (nat * nat)) (topic_idx : nat) :
  let w := nth topic_idx (components_ lda) [] in
  let top := top_indices argsort w in
  is_argsort w (argsort w) ->
  In (Keywords (map (fun i => nth i feature_names []) top))
     (topic_lines argsort feature_names lda topic_counts topic_idx) /\
  length top = Nat.min NUM_WORDS_PER_TOPIC (length w) /\
  NoDup top /\
  StronglySorted (fun i j => (weight_at w j <= weight_at w i)%Z) top /\
  (forall i j, In i top -> j < length w -> ~ In j top ->
               (weight_at w j <= weight_at w i)%Z) /\
  (forall p, p < length top ->
             nth p top 0 = nth (length w - 1 - p) (argsort w) 0).
Proof.
  intros w top [Hperm Hsorted].
  assert (Hlen : length (argsort w) = length w).
  { rewrite (Permutation_length Hperm). apply length_seq. }
  assert (Hrev : rev (argsort w) = top ++ skipn NUM_WORDS_PER_TOPIC (rev (argsort w))).
  { symmetry. apply firstn_skipn. }
  assert (Hlt : length top = Nat.min NUM_WORDS_PER_TOPIC (length w)).
  { subst top. unfold top_indices, last_reversed.
    rewrite length_firstn, length_rev, Hlen. reflexivity. }
  pose proof (StronglySorted_rev _ _ _ Hsorted) as Hdesc.
  rewrite Hrev in Hdesc. apply StronglySorted_app_inv in Hdesc.
  destruct Hdesc as [Htop [_ Hcross]].
  split; [|split; [exact Hlt | split; [|split; [exact Htop | split]]]].
  - unfold topic_lines. cbv zeta. right. left. reflexivity.
  - apply (NoDup_app_remove_r _ (skipn NUM_WORDS_PER_TOPIC (rev (argsort w)))).
    rewrite <- Hrev. apply (Permutation_NoDup (Permutation_rev _)).
    apply (Permutation_NoDup (Permutation_sym Hperm)). apply seq_NoDup.
  - intros i j Hi Hj Hnj. apply (Hcross i j Hi).
    assert (Hin : In j (rev (argsort w))).
    { apply -> in_rev.
      eapply Permutation_in; [apply Permutation_sym; exact Hperm|].
      apply in_seq. lia. }
    rewrite Hrev in Hin. apply in_app_or in Hin. tauto.
  - intros p Hp. subst top. unfold top_indices, last_reversed in *.
    rewrite nth_firstn. rewrite length_firstn, length_rev, Hlen in Hp.
    destruct (Nat.ltb_spec p NUM_WORDS_PER_TOPIC); [|lia].
    rewrite rev_nth by lia. rewrite Hlen. f_equal. lia.
Qed.

Lemma C6_top_keywords_witness :
  let w := [3; 9; 9; 1]%Z in
  let top := top_indices stable_argsort w in
  In (Keywords (map (fun i => nth i [py "card"; py "gym"; py "tan"; py "spa"] [])
                    top))
     (topic_lines stable_argsort [py "card"; py "gym"; py "tan"; py "spa"]
                  (mklda [w] (fun _ => [])) [] 0) /\
  length top = Nat.min NUM_WORDS_PER_TOPIC (length w) /\
  NoDup top /\
  StronglySorted (fun i j => (weight_at w j <= weight_at w i)%Z) top /\
  (forall i j, In i top -> j < length w -> ~ In j top ->
               (weight_at w j <= weight_at w i)%Z) /\
  (forall p, p < length top ->
             nth p top 0 = nth (length w - 1 - p) (stable_argsort w) 0).
Proof.
  apply (C6_top_keywords stable_argsort
           [py "card"; py "gym"; py "tan"; py "spa"]
           (mklda [[3; 9; 9; 1]%Z] (fun _ => [])) [] 0).
  apply stable_argsort_ok.
Defined.

(** C6 as stated fails: numpy's contract for argsort does not give the
    stated tie-break. With a stable argsort and two terms of equal weight,
    the term with the later vocabulary index is listed first. *)
Lemma C6_counterexample :
  top_indices stable_argsort [5; 5]%Z = [1; 0] /\
  ~ (forall argsort w, is_argsort w (argsort w) ->
       ties_earlier_first w (top_indices argsort w)).
Proof.
  split; [reflexivity|]. intros H.
  specialize (H stable_argsort [5; 5]%Z (stable_argsort_ok _) 0 1).
  vm_compute in H. specialize (H (le_n 1) (le_n 2) eq_refl).
  apply (Nat.nle_succ_0 1). exact H.
Qed.

(** ** The pattern matcher *)

Lemma lastc_app (p : option N) (a b : str) :
  lastc p (a ++ b) = lastc (lastc p a) b.
Proof. unfold lastc. apply fold_left_app. Qed.

Section Matcher.

Variable db : unicode_db.

Lemma at_boundary_eq (p : option N) (s : str) :
  at_boundary db p s = xorb (word_before db p) (word_after db s).
Proof. reflexivity. Qed.

Lemma star_sound (cs : cset) (pat : pattern) :
  (forall p s p' s', match_here db pat p s = Some (p', s') ->
                     matches db pat p s p' s') ->
  forall s c0 p p' s',
    in_cset db cs c0 = true ->
    star db cs (match_here db pat) (Some c0) s = Some (p', s') ->
    matches db (Plus cs :: pat) p (c0 :: s) p' s'.
Proof.
  intros Hk. induction s as [|c s IH]; intros c0 p p' s' Hc0 H; simpl in H.
  - apply M_plus_one; auto.
  - destruct (in_cset db cs c) eqn:Hc.
    + destruct (star db cs (match_here db pat) (Some c) s) as [[q t]|] eqn:E.
      * injection H as -> ->. apply M_plus_more; auto.
      * apply M_plus_one; auto.
    + apply M_plus_one; auto.
Qed.

(** What the matcher returns is a match. *)
Lemma match_here_sound (pat : pattern) (p : option N) (s : str)
    (p' : option N) (s' : str) :
  match_here db pat p s = Some (p', s') -> matches db pat p s p' s'.
Proof.
  revert p s p' s'. induction pat as [|it pat IH]; intros p s p' s' H.
  - simpl in H. injection H as -> ->. constructor.
  - destruct it as [cs|cs|cs|]; simpl in H.
    + destruct s as [|c s]; [discriminate|].
      destruct (in_cset db cs c) eqn:Hc; [|discriminate].
      apply M_one; auto.
    + destruct s as [|c s]; [apply M_opt_skip; auto|].
      destruct (in_cset db cs c) eqn:Hc; [|apply M_opt_skip; auto].
      destruct (match_here db pat (Some c) s) as [[q t]|] eqn:E.
      * injection H as -> ->. apply M_opt_take; auto.
      * apply M_opt_skip; auto.
    + destruct s as [|c s]; [discriminate|].
      destruct (in_cset db cs c) eqn:Hc; [|discriminate].
      eapply star_sound; eauto.
    + destruct (at_boundary db p s) eqn:Hb; [|discriminate].
      apply M_bound; auto.
Qed.

Lemma star_complete (cs : cset) (k : option N -> str -> option position)
    (p : option N) (s : str) :
  k p s <> None -> star db cs k p s <> None.
Proof.
  destruct s as [|c s]; simpl; [auto|]. intros Hk.
  destruct (in_cset db cs c); [|exact Hk].
  destruct (star db cs k (Some c) s); [discriminate | exact Hk].
Qed.

(** Where there is a match the matcher finds one. *)
Lemma match_here_complete (pat : pattern) (p : option N) (s : str)
    (p' : option N) (s' : str) :
  matches db pat p s p' s' -> match_here db pat p s <> None.
Proof.
  induction 1 as [p s | cs pat p c s p' s' Hc _ IH | cs pat p c s p' s' Hc _ IH
                 | cs pat p s p' s' _ IH | cs pat p c s p' s' Hc _ IH
                 | cs pat p c s p' s' Hc _ IH | pat p s p' s' Hb _ IH];
    simpl.
  - discriminate.
  - rewrite Hc. exact IH.
  - rewrite Hc. destruct (match_here db pat (Some c) s); [discriminate|].
    contradiction.
  - destruct s as [|c s]; [exact IH|].
    destruct (in_cset db cs c); [|exact IH].
    destruct (match_here db pat (Some c) s); [discriminate | exact IH].
  - rewrite Hc. apply star_complete. exact IH.
  - rewrite Hc. simpl in IH. destruct s as [|c1 s1]; [contradiction|].
    destruct (in_cset db cs c1) eqn:Hc1; [|contradiction].
    simpl. rewrite Hc1.
    destruct (star db cs (match_here db pat) (Some c1) s1);
      [discriminate | contradiction].
  - rewrite Hb. exact IH.
Qed.

(** A property of every result of the end of a pattern is a property of
    every result of the pattern. *)
Lemma star_post (Phi : position -> Prop) (cs : cset)
    (k : option N -> str -> option position) :
  (forall p s r, k p s = Some r -> Phi r) ->
  forall s p r, star db cs k p s = Some r -> Phi r.
Proof.
  intros Hk. induction s as [|c s IH]; intros p r H; simpl in H.
  - eapply Hk; eauto.
  - destruct (in_cset db cs c); [|eapply Hk; eauto].
    destruct (star db cs k (Some c) s) eqn:E.
    + injection H as <-. eapply IH; eauto.
    + eapply Hk; eauto.
Qed.

Lemma match_here_post (Phi : position -> Prop) (front tail : pattern) :
  (forall p s r, match_here db tail p s = Some r -> Phi r) ->
  forall p s r, match_here db (front ++ tail) p s = Some r -> Phi r.
Proof.
  intros Ht. induction front as [|it front IH]; intros p s r H.
  - eapply Ht; eauto.
  - destruct it as [cs|cs|cs|]; simpl in H.
    + destruct s as [|c s]; [discriminate|].
      destruct (in_cset db cs c); [|discriminate]. eapply IH; eauto.
    + destruct s as [|c s]; [eapply IH; eauto|].
      destruct (in_cset db cs c); [|eapply IH; eauto].
      destruct (match_here db (front ++ tail) (Some c) s) eqn:E.
      * injection H as <-. eapply IH; eauto.
      * eapply IH; eauto.
    + destruct s as [|c s]; [discriminate|].
      destruct (in_cset db cs c); [|discriminate].
      eapply star_post; [|exact H]. exact IH.
    + destruct (at_boundary db p s); [|discriminate]. eapply IH; eauto.
Qed.

Lemma pattern_char_tail (it : item) (pat : pattern) (a : str) :
  Forall (fun c => pattern_char db pat c = true) a ->
  Forall (fun c => pattern_char db (it :: pat) c = true) a.
Proof.
  apply Forall_impl. intros c H. unfold pattern_char in *. simpl.
  rewrite H. apply orb_true_r.
Qed.

(** A match reads a prefix of the subject; its characters are characters of
    the pattern, its end is the position after the prefix, and it is still a
    match when what follows the prefix is replaced by a string that starts
    with a word character exactly when the original does. *)
Lemma matches_split (pat : pattern) (p : option N) (s : str)
    (p' : option N) (s' : str) :
  matches db pat p s p' s' ->
  exists a, s = a ++ s' /\ p' = lastc p a /\
    Forall (fun c => pattern_char db pat c = true) a /\
    forall t, word_after db t = word_after db s' -> matches db pat p (a ++ t) p' t.
Proof.
  induction 1 as [p s | cs pat p c s p' s' Hc _ IH | cs pat p c s p' s' Hc _ IH
                 | cs pat p s p' s' _ IH | cs pat p c s p' s' Hc _ IH
                 | cs pat p c s p' s' Hc _ IH | pat p s p' s' Hb _ IH].
  - exists []. split; [reflexivity | split; [reflexivity | split]].
    + constructor.
    + intros t _. constructor.
  - destruct IH as [a [-> [-> [Hall Hloc]]]]. exists (c :: a).
    split; [reflexivity | split; [reflexivity | split]].
    + constructor; [unfold pattern_char; simpl; rewrite Hc; reflexivity|].
      apply pattern_char_tail. exact Hall.
    + intros t Ht. simpl. apply M_one; auto.
  - destruct IH as [a [-> [-> [Hall Hloc]]]]. exists (c :: a).
    split; [reflexivity | split; [reflexivity | split]].
    + constructor; [unfold pattern_char; simpl; rewrite Hc; reflexivity|].
      apply pattern_char_tail. exact Hall.
    + intros t Ht. simpl. apply M_opt_take; auto.
  - destruct IH as [a [-> [-> [Hall Hloc]]]]. exists a.
    split; [reflexivity | split; [reflexivity | split]].
    + apply pattern_char_tail. exact Hall.
    + intros t Ht. apply M_opt_skip; auto.
  - destruct IH as [a [-> [-> [Hall Hloc]]]]. exists (c :: a).
    split; [reflexivity | split; [reflexivity | split]].
    + constructor; [unfold pattern_char; simpl; rewrite Hc; reflexivity|].
      apply pattern_char_tail. exact Hall.
    + intros t Ht. simpl. apply M_plus_one; auto.
  - destruct IH as [a [-> [-> [Hall Hloc]]]]. exists (c :: a).
    split; [reflexivity | split; [reflexivity | split]].
    + constructor; [unfold pattern_char; simpl; rewrite Hc; reflexivity|].
      exact Hall.
    + intros t Ht. simpl. apply M_plus_more; auto.
  - destruct IH as [a [-> [-> [Hall Hloc]]]]. exists a.
    split; [reflexivity | split; [reflexivity | split]].
    + apply pattern_char_tail. exact Hall.
    + intros t Ht. apply M_bound; auto.
      rewrite at_boundary_eq in *. destruct a as [|x a]; simpl in *.
      * rewrite Ht. exact Hb.
      * exact Hb.
Qed.

End Matcher.

(** ** Substitution *)

Section Substitution.

Variable db : unicode_db.

Lemma sub_from_step (fuel : nat) (pat : pattern) (repl : str)
    (prev : option N) (rest : str) :
  sub_from db (S fuel) pat repl prev rest =
  match match_here db pat prev rest with
  | Some (prev', rest') =>
      if length rest' <? length rest
      then repl ++ sub_from db fuel pat repl prev' rest'
      else repl ++ match rest with
                   | [] => []
                   | c :: rest' => c :: sub_from db fuel pat repl (Some c) rest'
                   end
  | None => match rest with
            | [] => []
            | c :: rest' => c :: sub_from db fuel pat repl (Some c) rest'
            end
  end.
Proof. reflexivity. Qed.

(** The fuel [re_sub] gives is enough: with more positions to visit than
    the string has characters the result does not depend on the fuel, so
    the scan always reaches the end of the string. *)
Lemma sub_from_fuel (pat : pattern) (repl : str) (f1 : nat) :
  forall f2 prev rest,
    length rest < f1 -> length rest < f2 ->
    sub_from db f1 pat repl prev rest = sub_from db f2 pat repl prev rest.
Proof.
  induction f1 as [|f1 IH]; intros f2 prev rest H1 H2; [lia|].
  destruct f2 as [|f2]; [lia|]. rewrite !sub_from_step.
  assert (Hcopy :
    match rest with
    | [] => []
    | c :: rest' => c :: sub_from db f1 pat repl (Some c) rest'
    end =
    match rest with
    | [] => []
    | c :: rest' => c :: sub_from db f2 pat repl (Some c) rest'
    end).
  { destruct rest as [|c tl]; [reflexivity|]. simpl in H1, H2.
    f_equal. apply IH; lia. }
  destruct (match_here db pat prev rest) as [[prev' rest']|];
    [|exact Hcopy].
  destruct (Nat.ltb_spec (length rest') (length rest)).
  - f_equal. apply IH; lia.
  - f_equal. exact Hcopy.
Qed.

(** Where the pattern matches nowhere, substitution changes nothing. *)
Lemma sub_from_no_match (pat : pattern) (repl : str) (fuel : nat) :
  forall prev s,
    (forall u v, s = u ++ v -> match_here db pat (lastc prev u) v = None) ->
    sub_from db fuel pat repl prev s = s.
Proof.
  induction fuel as [|fuel IH]; intros prev s Hno; [reflexivity|].
  rewrite sub_from_step. pose proof (Hno [] s eq_refl) as H0.
  cbn [lastc fold_left] in H0. rewrite H0.
  destruct s as [|c s]; [reflexivity|]. f_equal. apply IH.
  intros u v ->. exact (Hno (c :: u) v eq_refl).
Qed.

Lemma is_digit_word (c : N) : is_digit db c = true -> is_word db c = true.
Proof.
  unfold is_word, is_alnum, is_digit. destruct (c <? 128)%N.
  - intros ->. reflexivity.
  - intros ->. rewrite orb_true_r. reflexivity.
Qed.

(** *** The phone pattern *)

Lemma phone_start (p : option N) (s : str) (r : position) :
  match_here db phone_pattern p s = Some r ->
  word_before db p = false /\
  exists d tl, s = d :: tl /\ is_digit db d = true.
Proof.
  change phone_pattern
    with (WordBoundary :: One Digit ::
          (times 2 Digit ++ [Opt separator] ++ times 3 Digit
           ++ [Opt separator] ++ times 4 Digit ++ [WordBoundary])).
  generalize (times 2 Digit ++ [Opt separator] ++ times 3 Digit
              ++ [Opt separator] ++ times 4 Digit ++ [WordBoundary]).
  intros pat H. simpl in H.
  destruct (at_boundary db p s) eqn:Hb; [|discriminate].
  destruct s as [|d tl]; [discriminate|].
  destruct (is_digit db d) eqn:Hd; [|discriminate].
  split; [|exists d, tl; auto].
  rewrite at_boundary_eq in Hb. simpl in Hb.
  rewrite (is_digit_word d Hd) in Hb. destruct (word_before db p);
    [discriminate | reflexivity].
Qed.

Lemma phone_end (p : option N) (s : str) (p' : option N) (s' : str) :
  match_here db phone_pattern p s = Some (p', s') ->
  (exists d, p' = Some d /\ is_digit db d = true) /\
  word_after db s' = false.
Proof.
  change phone_pattern
    with (([WordBoundary] ++ times 3 Digit ++ [Opt separator] ++ times 3 Digit
           ++ [Opt separator] ++ times 3 Digit) ++ [One Digit; WordBoundary]).
  apply (match_here_post db
           (fun r => (exists d, fst r = Some d /\ is_digit db d = true) /\
                     word_after db (snd r) = false)).
  clear. intros p s r H. simpl in H.
  destruct s as [|d tl]; [discriminate|].
  destruct (is_digit db d) eqn:Hd; [|discriminate].
  destruct (at_boundary db (Some d) tl) eqn:Hb; [|discriminate].
  injection H as <-. simpl. split; [exists d; auto|].
  rewrite at_boundary_eq in Hb. simpl in Hb.
  rewrite (is_digit_word d Hd) in Hb.
  destruct (word_after db tl); [discriminate | reflexivity].
Qed.

(** A phone match reads at least one character. *)
Lemma phone_shorter (p : option N) (s : str) (p' : option N) (s' : str) :
  match_here db phone_pattern p s = Some (p', s') ->
  length s' < length s.
Proof.
  intros H. destruct (phone_start _ _ _ H) as [Hp _].
  destruct (phone_end _ _ _ _ H) as [[d [Hp' Hd]] _].
  apply match_here_sound, matches_split in H.
  destruct H as [a [-> [Hl _]]]. destruct a as [|x a].
  - simpl in Hl. subst p'. subst p. simpl in Hp.
    rewrite (is_digit_word d Hd) in Hp. discriminate.
  - rewrite length_app. simpl. lia.
Qed.

Lemma phone_not_at (p : option N) (s : str) :
  (forall d tl, s = d :: tl -> is_digit db d = false) ->
  match_here db phone_pattern p s = None.
Proof.
  intros Hs. destruct (match_here db phone_pattern p s) as [r|] eqn:E;
    [|reflexivity].
  destruct (phone_start _ _ _ E) as [_ [d [tl [-> Hd]]]].
  rewrite (Hs d tl eq_refl) in Hd. discriminate.
Qed.

Lemma PHONE_chars :
  forall x, In x PHONE ->
    is_digit db x = false /\ pattern_char db phone_pattern x = false.
Proof.
  assert (H : forallb (fun x => negb (is_digit db x) &&
                         negb (pattern_char db phone_pattern x)) PHONE = true)
    by (vm_compute; reflexivity).
  intros x Hx. rewrite forallb_forall in H. specialize (H x Hx).
  apply andb_true_iff in H. destruct H as [H1 H2].
  apply negb_true_iff in H1, H2. auto.
Qed.

Lemma sub_phone_match (fuel : nat) (prev : option N) (rest : str)
    (prev' : option N) (rest' : str) :
  match_here db phone_pattern prev rest = Some (prev', rest') ->
  sub_from db (S fuel) phone_pattern PHONE prev rest =
  PHONE ++ sub_from db fuel phone_pattern PHONE prev' rest'.
Proof.
  intros H. rewrite sub_from_step, H.
  pose proof (phone_shorter _ _ _ _ H) as Hlt.
  apply Nat.ltb_lt in Hlt. rewrite Hlt. reflexivity.
Qed.

Lemma sub_none (fuel : nat) (pat : pattern) (repl : str) (prev : option N)
    (c : N) (tl : str) :
  match_here db pat prev (c :: tl) = None ->
  sub_from db (S fuel) pat repl prev (c :: tl) =
  c :: sub_from db fuel pat repl (Some c) tl.
Proof. intros H. rewrite sub_from_step, H. reflexivity. Qed.

(** A stretch of phone characters at the head of the output that ends in a
    word character and is followed by none was copied from the input, where
    it is followed by no word character either. *)
Lemma phone_out_prefix (fuel : nat) :
  forall prev rest a u',
    length rest < fuel ->
    sub_from db fuel phone_pattern PHONE prev rest = a ++ u' ->
    Forall (fun c => pattern_char db phone_pattern c = true) a ->
    word_before db (lastc prev a) = true ->
    word_after db u' = false ->
    exists v', rest = a ++ v' /\ word_after db v' = false.
Proof.
  induction fuel as [|fuel IH]; intros prev rest a u' Hfuel Hout Ha Hw Hu;
    [lia|].
  destruct (match_here db phone_pattern prev rest) as [[prev' rest']|] eqn:E.
  - rewrite (sub_phone_match _ _ _ _ _ E) in Hout.
    destruct (phone_start _ _ _ E) as [Hp _].
    destruct a as [|x a].
    + simpl in Hw. congruence.
    + exfalso. change PHONE with (91%N :: tl PHONE) in Hout.
      simpl in Hout. injection Hout as <- _.
      apply Forall_inv in Ha.
      destruct (PHONE_chars 91%N) as [_ H91]; [left; reflexivity|].
      congruence.
  - destruct rest as [|c tl].
    + rewrite sub_from_step, E in Hout.
      destruct a; [|discriminate]. simpl in Hout. subst u'.
      exists []. auto.
    + rewrite (sub_none _ _ _ _ _ _ E) in Hout. destruct a as [|x a].
      * simpl in Hout. subst u'. exists (c :: tl). auto.
      * simpl in Hout. injection Hout as Hx Hout. subst c.
        destruct (IH (Some x) tl a u') as [v' [-> Hv]]; auto.
        -- simpl in Hfuel. lia.
        -- apply Forall_inv_tail in Ha. exact Ha.
        -- exists v'. auto.
Qed.

(** After the phone substitution the pattern matches nowhere. *)
Lemma phone_out_no_match (fuel : nat) :
  forall prev prev2 rest u v,
    length rest < fuel ->
    prev2 = prev \/ word_after db rest = false ->
    sub_from db fuel phone_pattern PHONE prev rest = u ++ v ->
    match_here db phone_pattern (lastc prev2 u) v = None.
Proof.
  induction fuel as [|fuel IH]; intros prev prev2 rest u v Hfuel Hctx Hout;
    [lia|].
  destruct (match_here db phone_pattern prev rest) as [[prev' rest']|] eqn:E.
  - rewrite (sub_phone_match _ _ _ _ _ E) in Hout.
    pose proof (phone_shorter _ _ _ _ E) as Hlt.
    destruct (phone_end _ _ _ _ E) as [_ Hafter].
    symmetry in Hout. apply app_eq_app in Hout.
    destruct Hout as [l [[Hu Hr] | [HP Hv]]].
    + subst u. rewrite lastc_app.
      change (lastc prev2 PHONE) with (Some 93%N).
      apply (IH prev' (Some 93%N) rest' l v); [lia | auto | auto].
    + destruct l as [|x l].
      * rewrite app_nil_r in HP. subst u. simpl in Hv. subst v.
        change (lastc prev2 PHONE) with (lastc (Some 93%N) []).
        apply (IH prev' (Some 93%N) rest' [] _); [lia | auto | reflexivity].
      * subst v. apply phone_not_at. intros d tl0 Hd. injection Hd as Hd _.
        subst d. apply PHONE_chars. rewrite HP. apply in_or_app. right. left.
        reflexivity.
  - destruct rest as [|c tl].
    + rewrite sub_from_step, E in Hout.
      destruct u; [|discriminate]. destruct v; [|discriminate].
      apply phone_not_at. intros d tl0 Hd. discriminate.
    + rewrite (sub_none _ _ _ _ _ _ E) in Hout. destruct u as [|x u].
      * simpl in Hout. subst v. cbn [lastc fold_left].
        destruct (match_here db phone_pattern prev2
                    (c :: sub_from db fuel phone_pattern PHONE (Some c) tl))
          as [[q t]|] eqn:E2; [exfalso | reflexivity].
        destruct (phone_start _ _ _ E2) as [Hp2 [d [tl0 [Hd0 Hd]]]].
        injection Hd0 as <- <-.
        destruct (phone_end _ _ _ _ E2) as [[d' [-> Hd']] Hafter].
        assert (prev2 = prev) as ->.
        { destruct Hctx as [|Hw]; [assumption|]. simpl in Hw.
          rewrite (is_digit_word c Hd) in Hw. discriminate. }
        apply match_here_sound in E2.
        destruct (matches_split _ _ _ _ _ _ E2) as [a [Ha [Hl [Hall Hloc]]]].
        destruct a as [|x a].
        { simpl in Hl. subst prev. simpl in Hp2.
          rewrite (is_digit_word d' Hd') in Hp2. discriminate. }
        simpl in Ha. injection Ha as <- Ha.
        destruct (phone_out_prefix fuel (Some c) tl a t) as [v' [-> Hv']];
          auto.
        -- simpl in Hfuel. lia.
        -- apply Forall_inv_tail in Hall. exact Hall.
        -- simpl in Hl. rewrite <- Hl. simpl. apply is_digit_word. exact Hd'.
        -- apply (match_here_complete db phone_pattern prev
                    ((c :: a) ++ v') (Some d') v'); [|exact E].
           apply Hloc. congruence.
      * simpl in Hout. injection Hout as Hx Hout. subst x.
        change (lastc prev2 (c :: u)) with (lastc (Some c) u).
        apply (IH (Some c) (Some c) tl u v); [simpl in Hfuel; lia | auto | auto].
Qed.

End Substitution.

(** ** The email pattern *)

Section EmailFacts.

Variable db : unicode_db.

Lemma plus_run (cs : cset) (pat : pattern) (p : option N) (s : str)
    (p' : option N) (s' : str) :
  matches db (Plus cs :: pat) p s p' s' ->
  exists a x s1, s = a ++ x :: s1 /\
    Forall (fun c => in_cset db cs c = true) a /\ in_cset db cs x = true /\
    matches db pat (Some x) s1 p' s'.
Proof.
  remember (Plus cs :: pat) as pt eqn:Ept. intros H. revert Ept.
  induction H as [p s | cs0 pat0 p c s p' s' Hc _ IH
                 | cs0 pat0 p c s p' s' Hc _ IH
                 | cs0 pat0 p s p' s' _ IH | cs0 pat0 p c s p' s' Hc Hm IH
                 | cs0 pat0 p c s p' s' Hc _ IH | pat0 p s p' s' Hb _ IH];
    intros Ept; try discriminate.
  - injection Ept as -> ->. exists [], c, s. auto.
  - injection Ept as -> ->. destruct (IH eq_refl) as [a [x [s1 [-> [Ha [Hx Hm]]]]]].
    exists (c :: a), x, s1. split; [reflexivity|]. auto.
Qed.

Lemma plus_build (cs : cset) (pat : pattern) (r1 : str) :
  forall c p s1 p' s',
    in_cset db cs c = true ->
    Forall (fun c => in_cset db cs c = true) r1 ->
    matches db pat (lastc (Some c) r1) s1 p' s' ->
    matches db (Plus cs :: pat) p (c :: r1 ++ s1) p' s'.
Proof.
  induction r1 as [|c1 r1 IH]; intros c p s1 p' s' Hc Hall Hm.
  - apply M_plus_one; auto.
  - apply M_plus_more; [exact Hc|]. simpl.
    apply IH; [exact (Forall_inv Hall) | exact (Forall_inv_tail Hall) | exact Hm].
Qed.

(** An email match reads two characters that are not white space with an
    [@] between them. *)
Lemma email_shape (p : option N) (s : str) (r : position) :
  match_here db email_pattern p s = Some r ->
  exists a x y t, s = a ++ x :: 64%N :: y :: t /\
    Forall (fun c => ns db c = true) a /\ ns db x = true /\ ns db y = true.
Proof.
  destruct r as [p' s']. intros H. apply match_here_sound in H.
  apply plus_run in H. destruct H as [a [x [s1 [-> [Ha [Hx H]]]]]].
  inversion H as [| cs0 pat0 p0 c s0 p0' s0' Hc Hm | | | | |]; subst.
  simpl in Hc. apply N.eqb_eq in Hc. subst c.
  apply plus_run in Hm. destruct Hm as [b [y [s2 [-> [Hb [Hy _]]]]]].
  destruct b as [|y0 b].
  - exists a, x, y, s2. auto.
  - exists a, x, y0, (b ++ y :: s2). split; [reflexivity|].
    split; [exact Ha | split; [exact Hx | exact (Forall_inv Hb)]].
Qed.

Lemma star_greedy (cs : cset) (k : option N -> str -> option position) :
  (forall p s, k p s = Some (p, s)) ->
  forall s p r, star db cs k p s = Some r ->
    match snd r with c :: _ => in_cset db cs c = false | [] => True end.
Proof.
  intros Hk. induction s as [|c s IH]; intros p r H; cbn [star] in H.
  - rewrite Hk in H. injection H as <-. exact I.
  - destruct (in_cset db cs c) eqn:Hc.
    + destruct (star db cs k (Some c) s) eqn:E.
      * injection H as <-. eapply IH; eauto.
      * exfalso. apply (star_complete db cs k (Some c) s); [|exact E].
        rewrite Hk. discriminate.
    + rewrite Hk in H. injection H as <-. simpl. exact Hc.
Qed.

(** An email match ends where white space or the end of the string
    follows, and it reads at least one character. *)
Lemma email_end (p : option N) (s : str) (p' : option N) (s' : str) :
  match_here db email_pattern p s = Some (p', s') ->
  ns_after db s' = false /\ length s' < length s.
Proof.
  intros H. split.
  - revert H.
    change email_pattern
      with ([Plus NotSpace; One (Lit 64)] ++ [Plus NotSpace]).
    apply (match_here_post db (fun r => ns_after db (snd r) = false)).
    clear. intros p s r H. cbn [match_here] in H.
    destruct s as [|c s]; [discriminate|].
    destruct (in_cset db NotSpace c); [|discriminate].
    apply star_greedy in H; [|reflexivity].
    destruct (snd r) as [|x t]; [reflexivity|].
    simpl in *. apply negb_false_iff. apply negb_false_iff in H.
    rewrite H. reflexivity.
  - apply match_here_sound, plus_run in H.
    destruct H as [a [x [s1 [-> [_ [_ H]]]]]].
    apply matches_split in H. destruct H as [b [-> _]].
    rewrite !length_app. simpl. rewrite length_app. lia.
Qed.

Lemma email_complete (p : option N) (c : N) (r1 : str) (y : N) (r2 : str) :
  ns db c = true -> Forall (fun c => ns db c = true) r1 -> ns db y = true ->
  match_here db email_pattern p (c :: r1 ++ 64%N :: y :: r2) <> None.
Proof.
  intros Hc Hr Hy.
  apply (match_here_complete db email_pattern p _ (Some y) r2).
  unfold email_pattern. apply plus_build; [exact Hc | exact Hr |].
  apply M_one; [reflexivity|]. apply M_plus_one; [exact Hy|]. constructor.
Qed.

Lemma noat_false (s : str) :
  noat db s = false ->
  exists r1 y r2, s = r1 ++ 64%N :: y :: r2 /\
    Forall (fun c => ns db c = true) r1 /\ ns db y = true.
Proof.
  induction s as [|c tl IH]; simpl; [discriminate|].
  destruct (is_space db c) eqn:Hc; [discriminate|]. intros H.
  apply andb_false_iff in H. destruct H as [H | H].
  - apply orb_false_iff in H. destruct H as [H1 H2].
    apply negb_false_iff in H1, H2. apply N.eqb_eq in H1. subst c.
    destruct tl as [|y r2]; [discriminate|]. simpl in H2.
    exists [], y, r2. auto.
  - destruct (IH H) as [r1 [y [r2 [-> [Hr Hy]]]]].
    exists (c :: r1), y, r2. split; [reflexivity|]. split; [|exact Hy].
    constructor; [unfold ns; rewrite Hc; reflexivity | exact Hr].
Qed.

Lemma noat_shape (a : str) (x y : N) (t : str) :
  Forall (fun c => ns db c = true) a -> ns db x = true -> ns db y = true ->
  noat db (a ++ x :: 64%N :: y :: t) = false.
Proof.
  intros Ha Hx Hy. induction Ha as [|c a Hc _ IH].
  - cbn [app noat]. unfold ns in Hx. apply negb_true_iff in Hx. rewrite Hx.
    apply andb_false_iff. right.
    cbn [noat ns_after]. change (is_space db 64) with false. cbv iota.
    rewrite Hy. reflexivity.
  - cbn [app noat]. unfold ns in Hc. apply negb_true_iff in Hc. rewrite Hc.
    rewrite IH. apply andb_false_r.
Qed.

End EmailFacts.

(** ** The scrubber *)

Section Scrubber.

Variable db : unicode_db.

Lemma at_free_triple (a : str) (x y : N) (t : str) :
  ns db x = true -> ns db y = true ->
  forall p2 p1, at_free db p2 p1 (a ++ x :: 64%N :: y :: t) = false.
Proof.
  intros Hx Hy. induction a as [|c a IH]; intros p2 p1.
  - cbn [app at_free ns_before is_at]. rewrite Hx, Hy, N.eqb_refl.
    cbn. rewrite !andb_false_r. reflexivity.
  - cbn [app at_free]. rewrite IH. apply andb_false_r.
Qed.

Lemma at_free_app (a : str) :
  forall p2 p1 t, at_free db p2 p1 (a ++ t) = true ->
    exists r2, at_free db r2 (lastc p1 a) t = true.
Proof.
  induction a as [|c a IH]; intros p2 p1 t H.
  - exists p2. exact H.
  - cbn [app at_free] in H. apply andb_true_iff in H. destruct H as [_ H].
    apply IH in H. exact H.
Qed.

Lemma at_free_EMAIL (q2 q1 : option N) (X : str) :
  at_free db q2 q1 (EMAIL ++ X) =
  negb (ns_before db q2 && is_at q1) && at_free db (Some 68%N) (Some 93%N) X.
Proof.
  cbn. rewrite !andb_true_r, andb_false_r. reflexivity.
Qed.

Lemma at_free_PHONE (q2 q1 : option N) (X : str) :
  at_free db q2 q1 (PHONE ++ X) =
  negb (ns_before db q2 && is_at q1) && at_free db (Some 68%N) (Some 93%N) X.
Proof.
  cbn. rewrite !andb_true_r, andb_false_r. reflexivity.
Qed.

Lemma sub_email_match (fuel : nat) (prev : option N) (rest : str)
    (prev' : option N) (rest' : str) :
  match_here db email_pattern prev rest = Some (prev', rest') ->
  sub_from db (S fuel) email_pattern EMAIL prev rest =
  EMAIL ++ sub_from db fuel email_pattern EMAIL prev' rest'.
Proof.
  intros H. rewrite sub_from_step, H.
  destruct (email_end db _ _ _ _ H) as [_ Hlt].
  apply Nat.ltb_lt in Hlt. rewrite Hlt. reflexivity.
Qed.

(** After the email substitution no [@] stands between two characters that
    are not white space. *)
Lemma email_out_at_free (fuel : nat) :
  forall q2 q1 prev rest,
    length rest < fuel ->
    (ns_before db q1 = true -> noat db rest = true) ->
    (is_at q1 = true -> ns_before db q2 = true -> ns_after db rest = false) ->
    at_free db q2 q1 (sub_from db fuel email_pattern EMAIL prev rest) = true.
Proof.
  induction fuel as [|fuel IH]; intros q2 q1 prev rest Hfuel Hrun Hat; [lia|].
  destruct (match_here db email_pattern prev rest) as [[prev' rest']|] eqn:E.
  - rewrite (sub_email_match _ _ _ _ _ E), at_free_EMAIL.
    destruct (email_end db _ _ _ _ E) as [Hafter Hlt].
    destruct (email_shape db _ _ _ E) as [a [x [y [t [Hs [Ha [Hx Hy]]]]]]].
    pose proof (noat_shape db a x y t Ha Hx Hy) as Hno. rewrite <- Hs in Hno.
    assert (Hq1 : ns_before db q1 = false).
    { destruct (ns_before db q1); [|reflexivity].
      rewrite Hrun in Hno by reflexivity. discriminate. }
    apply andb_true_iff. split.
    + destruct q1 as [c|]; [|rewrite andb_false_r; reflexivity].
      cbn [is_at]. destruct (N.eqb_spec c 64) as [->|];
        [|rewrite andb_false_r; reflexivity].
      discriminate Hq1.
    + apply IH; [lia | | discriminate].
      intros _. destruct rest' as [|c r]; [reflexivity|].
      cbn [ns_after] in Hafter. unfold ns in Hafter.
      apply negb_false_iff in Hafter. cbn [noat]. rewrite Hafter. reflexivity.
  - destruct rest as [|c tl].
    + rewrite sub_from_step, E. reflexivity.
    + rewrite (sub_none db _ _ _ _ _ _ E). cbn [at_free].
      apply andb_true_iff. split.
      * destruct (ns_before db q2) eqn:H2; [|reflexivity].
        destruct (is_at q1) eqn:H1; [|reflexivity].
        pose proof (Hat eq_refl eq_refl) as Hc. cbn [ns_after] in Hc.
        rewrite Hc. reflexivity.
      * apply IH; [simpl in Hfuel; lia | |].
        -- cbn [ns_before]. intros Hc.
           destruct (noat db tl) eqn:Hno; [reflexivity|]. exfalso.
           destruct (noat_false db tl Hno) as [r1 [y [r2 [-> [Hr Hy]]]]].
           exact (email_complete db prev c r1 y r2 Hc Hr Hy E).
        -- cbn [is_at ns_before]. intros Hc Hq1. apply N.eqb_eq in Hc.
           subst c. specialize (Hrun Hq1). cbn [noat] in Hrun.
           change (is_space db 64) with false in Hrun. cbv iota in Hrun.
           rewrite N.eqb_refl in Hrun. cbn [negb orb] in Hrun.
           apply andb_true_iff in Hrun. destruct Hrun as [Hrun _].
           apply negb_true_iff in Hrun. exact Hrun.
Qed.

(** No decimal digit of the Unicode database is white space. *)
Hypothesis decimal_not_space :
  forall c, uni_isdecimal db c = true -> uni_isspace db c = false.

Lemma is_digit_ns (c : N) : is_digit db c = true -> ns db c = true.
Proof.
  unfold ns, is_digit, is_space. destruct (N.ltb_spec c 128) as [Hlt|Hge].
  - intros Hd. apply andb_true_iff in Hd. destruct Hd as [H1 H2].
    apply N.leb_le in H1, H2. apply negb_true_iff. apply orb_false_iff.
    split; apply andb_false_iff.
    + right. apply N.leb_gt. lia.
    + right. apply N.leb_gt. lia.
  - intros Hd. rewrite (decimal_not_space c Hd). reflexivity.
Qed.

(** The phone substitution puts no [@] between two characters that are not
    white space: [p2], [p1] are the characters before the position in the
    input and [q2], [q1] those before it in the output. *)
Lemma phone_keeps_at_free (fuel : nat) :
  forall p2 p1 q2 q1 prev rest,
    length rest < fuel ->
    q1 = p1 \/ (q1 = Some 93%N /\ ns_before db p1 = true) ->
    (is_at q1 = true -> ns_before db q2 = true -> ns_before db p2 = true) ->
    at_free db p2 p1 rest = true ->
    at_free db q2 q1 (sub_from db fuel phone_pattern PHONE prev rest) = true.
Proof.
  induction fuel as [|fuel IH];
    intros p2 p1 q2 q1 prev rest Hfuel Hq1 Hq2 Hfree; [lia|].
  assert (Hsame : is_at q1 = true -> q1 = p1).
  { intros H. destruct Hq1 as [|[-> _]]; [assumption | discriminate H]. }
  destruct (match_here db phone_pattern prev rest) as [[prev' rest']|] eqn:E.
  - rewrite (sub_phone_match db _ _ _ _ _ E), at_free_PHONE.
    pose proof (phone_shorter db _ _ _ _ E) as Hlt.
    destruct (phone_start db _ _ _ E) as [_ [d [tl [Hd0 Hd]]]].
    destruct (phone_end db _ _ _ _ E) as [[d' [-> Hd']] _].
    destruct (matches_split db _ _ _ _ _ (match_here_sound db _ _ _ _ _ E))
      as [a [Ha [Hl _]]].
    apply andb_true_iff. split.
    + destruct (ns_before db q2) eqn:H2; [|reflexivity].
      destruct (is_at q1) eqn:H1; [|reflexivity]. exfalso.
      rewrite Hd0 in Hfree. cbn [at_free] in Hfree.
      rewrite <- (Hsame eq_refl), H1, (Hq2 eq_refl eq_refl) in Hfree.
      rewrite (is_digit_ns d Hd) in Hfree. discriminate.
    + rewrite Ha in Hfree. apply at_free_app in Hfree.
      destruct Hfree as [r2 Hfree].
      assert (Hlast : lastc p1 a = Some d').
      { destruct a as [|x a]; [|exact (eq_sym Hl)].
        simpl in Ha. subst rest'. lia. }
      rewrite Hlast in Hfree.
      apply (IH r2 (Some d') (Some 68%N) (Some 93%N) (Some d') rest');
        [lia | | discriminate | exact Hfree].
      right. split; [reflexivity|]. cbn [ns_before]. apply is_digit_ns.
      exact Hd'.
  - destruct rest as [|c tl].
    + rewrite sub_from_step, E. reflexivity.
    + rewrite (sub_none db _ _ _ _ _ _ E). cbn [at_free] in *.
      apply andb_true_iff in Hfree. destruct Hfree as [Hchk Hfree].
      apply andb_true_iff. split.
      * destruct (ns_before db q2) eqn:H2; [|reflexivity].
        destruct (is_at q1) eqn:H1; [|reflexivity].
        rewrite <- (Hsame eq_refl), H1, (Hq2 eq_refl eq_refl) in Hchk.
        exact Hchk.
      * apply (IH p1 (Some c) q1 (Some c) (Some c) tl);
          [simpl in Hfuel; lia | left; reflexivity | | exact Hfree].
        intros _ Hn. destruct Hq1 as [<- | [_ Hp1]]; assumption.
Qed.

(** Where no [@] stands between two characters that are not white space the
    email pattern matches nowhere. *)
Lemma at_free_no_email (s : str) :
  at_free db None None s = true ->
  forall u v, s = u ++ v -> match_here db email_pattern (lastc None u) v = None.
Proof.
  intros Hfree u v ->.
  destruct (match_here db email_pattern (lastc None u) v) as [r|] eqn:E;
    [exfalso | reflexivity].
  destruct (email_shape db _ _ _ E) as [a [x [y [t [-> [_ [Hx Hy]]]]]]].
  rewrite app_assoc, at_free_triple in Hfree by assumption. discriminate.
Qed.

Lemma re_sub_phone_no_match (s : str) :
  forall u v, re_sub db phone_pattern PHONE s = u ++ v ->
    match_here db phone_pattern (lastc None u) v = None.
Proof.
  intros u v H. unfold re_sub in H.
  apply (phone_out_no_match db (S (length s)) None None s u v);
    [lia | left; reflexivity | exact H].
Qed.

Lemma scrubbed_at_free (s : str) :
  at_free db None None
    (re_sub db phone_pattern PHONE (re_sub db email_pattern EMAIL s)) = true.
Proof.
  unfold re_sub at 1.
  apply (phone_keeps_at_free _ None None None None None);
    [lia | left; reflexivity | discriminate |].
  unfold re_sub. apply email_out_at_free; [lia | discriminate | discriminate].
Qed.

(** Nothing that either pattern matches is left in a scrubbed string. *)
Lemma scrubbed_no_match (s : str) :
  forall u v,
    re_sub db phone_pattern PHONE (re_sub db email_pattern EMAIL s) = u ++ v ->
    match_here db email_pattern (lastc None u) v = None /\
    match_here db phone_pattern (lastc None u) v = None.
Proof.
  intros u v H. split.
  - exact (at_free_no_email _ (scrubbed_at_free s) u v H).
  - exact (re_sub_phone_no_match _ u v H).
Qed.

(** Scrubbing a scrubbed string changes nothing. *)
Lemma scrub_twice (s : str) :
  let once := re_sub db phone_pattern PHONE (re_sub db email_pattern EMAIL s) in
  re_sub db phone_pattern PHONE (re_sub db email_pattern EMAIL once) = once.
Proof.
  intros once.
  assert (He : re_sub db email_pattern EMAIL once = once).
  { unfold re_sub at 1. apply sub_from_no_match. intros u v H.
    exact (proj1 (scrubbed_no_match s u v H)). }
  rewrite He. unfold re_sub at 1. apply sub_from_no_match. intros u v H.
  exact (proj2 (scrubbed_no_match s u v H)).
Qed.

End Scrubber.

Lemma anonymize_text_str (db : unicode_db) (s : str) :
  anonymize_text db (VStr s) =
  VStr (re_sub db phone_pattern PHONE (re_sub db email_pattern EMAIL s)).
Proof. reflexivity. Qed.





(** C10. Scrubbing is idempotent on every value: a value that is not a
    string is returned as it is, and a scrubbed string is left unchanged by
    a second pass; in particular the two placeholders are left unchanged. *)
Theorem C10_anonymize_idempotent (db : unicode_db) :
  (forall c, uni_isdecimal db c = true -> uni_isspace db c = false) ->
  (forall x : value,
      anonymize_text db (anonymize_text db x) = anonymize_text db x) /\
  (forall x : value, (forall s, x <> VStr s) -> anonymize_text db x = x) /\
  anonymize_text db (VStr (py "[EMAIL_REDACTED]")) = VStr (py "[EMAIL_REDACTED]") /\
  anonymize_text db (VStr (py "[PHONE_REDACTED]")) = VStr (py "[PHONE_REDACTED]").
Proof.
  intros Hdb. split; [|split; [|split; vm_compute; reflexivity]].
  - intros x. destruct x; try reflexivity.
    rewrite !anonymize_text_str. f_equal. exact (scrub_twice db Hdb s).
  - intros x Hx. destruct x; try reflexivity. exfalso. exact (Hx s eq_refl).
Qed.

Lemma C10_anonymize_idempotent_witness :
  anonymize_text ascii_only
    (anonymize_text ascii_only (VStr (py "mail j.doe@x.org, call 555 123 4567")))
  = anonymize_text ascii_only (VStr (py "mail j.doe@x.org, call 555 123 4567")).
Proof.
  refine (proj1 (C10_anonymize_idempotent ascii_only _) _).
  intros c H. vm_compute in H. discriminate.
Defined.

(** * Further properties of the scripts *)

(** ** The automation tiers *)

Lemma isin_spec (x : str) (l : list str) : isin x l = true <-> In x l.
Proof.
  unfold isin. rewrite existsb_exists. split.
  - intros [y [Hy E]]. apply str_eqb_eq in E. subst y. exact Hy.
  - intros H. exists x. split; [exact H | apply str_eqb_refl].
Qed.

Lemma tiers_distinct :
  py "Full Automation" <> py "Agentic Workflow" /\
  py "Full Automation" <> py "Human-in-the-Loop" /\
  py "Agentic Workflow" <> py "Human-in-the-Loop".
Proof. repeat split; intros H; vm_compute in H; discriminate. Qed.

Lemma tier_lists_disjoint (i : str) :
  (In i full_automation_intents -> ~ In i agentic_workflow_intents) /\
  (i = py "Other" ->
   ~ In i full_automation_intents /\ ~ In i agentic_workflow_intents).
Proof.
  split.
  - intros Hf Ha. apply isin_spec in Ha.
    repeat (destruct Hf as [<- | Hf]; [vm_compute in Ha; discriminate|]).
    destruct Hf.
  - intros ->. split; intros H; apply isin_spec in H; vm_compute in H;
      discriminate.
Qed.

(** X1. The tier of a row after the four assignments, in full: it is Full
    Automation exactly when the intent is one of the five full-automation
    intents and the text has no sentiment keyword, Agentic Workflow exactly
    when the intent is one of the three agentic intents and the text has no
    sentiment keyword, and Human-in-the-Loop in every other case. *)
Theorem X1_tier_characterization (df : list row) (r : row) :
  In r (automation_categories df) ->
  (AutomationCategory r = py "Full Automation" <->
   In (Intent r) full_automation_intents /\ ~ has_sentiment (text r)) /\
  (AutomationCategory r = py "Agentic Workflow" <->
   In (Intent r) agentic_workflow_intents /\ ~ has_sentiment (text r)) /\
  (AutomationCategory r = py "Human-in-the-Loop" <->
   has_sentiment (text r) \/
   (~ In (Intent r) full_automation_intents /\
    ~ In (Intent r) agentic_workflow_intents)).
Proof.
  rewrite automation_categories_rows. intros Hin.
  apply in_map_iff in Hin. destruct Hin as [r0 [<- _]].
  cbn [AutomationCategory Intent text]. unfold row_category.
  pose proof (str_contains_sentiment (text r0)) as Hs.
  pose proof (isin_spec (Intent r0) agentic_workflow_intents) as Ha.
  pose proof (isin_spec (Intent r0) full_automation_intents) as Hf.
  pose proof (str_eqb_eq (Intent r0) (py "Other")) as Ho.
  destruct (tier_lists_disjoint (Intent r0)) as [Hd Hother].
  destruct tiers_distinct as [D1 [D2 D3]].
  fold (has_sentiment (text r0)) in Hs.
  destruct (str_eqb (Intent r0) (py "Other"));
    destruct (str_contains human_in_the_loop_keywords (text r0));
    destruct (isin (Intent r0) agentic_workflow_intents);
    destruct (isin (Intent r0) full_automation_intents);
    repeat split; intros;
    try (exfalso; congruence);
    intuition (try congruence; try discriminate).
Qed.

Lemma X1_tier_characterization_witness :
  let r := mkrow (py "where is my invoice") (py "Billing Inquiry")
                 (py "Full Automation") in
  In r (automation_categories
          [mkrow (py "where is my invoice") (py "Billing Inquiry") []]) /\
  In (Intent r) full_automation_intents /\ ~ has_sentiment (text r).
Proof.
  cbv zeta.
  assert (Hin : In (mkrow (py "where is my invoice") (py "Billing Inquiry")
                          (py "Full Automation"))
                   (automation_categories
                      [mkrow (py "where is my invoice") (py "Billing Inquiry")
                             []]))
    by (left; reflexivity).
  split; [exact Hin|].
  apply (proj1 (proj1 (X1_tier_characterization _ _ Hin))). reflexivity.
Defined.

(** X2. The assignment of tiers reads only the text and the intent of a
    row: the tier column it is given does not matter, and assigning the
    tiers again to its result changes nothing. *)
Theorem X2_tiers_idempotent (df : list row) :
  automation_categories (automation_categories df) = automation_categories df /\
  forall df',
    map (fun r => (text r, Intent r)) df' = map (fun r => (text r, Intent r)) df ->
    automation_categories df' = automation_categories df.
Proof.
  split.
  - rewrite !automation_categories_rows, map_map. reflexivity.
  - intros df' H. rewrite !automation_categories_rows.
    revert df' H. induction df as [|r df IH]; intros [|r' df'] H;
      try discriminate; [reflexivity|].
    simpl in H. injection H as Ht Hi H. simpl.
    rewrite (IH df' H). unfold row_category. rewrite Ht, Hi. reflexivity.
Qed.

Lemma X2_tiers_idempotent_witness :
  automation_categories
    [mkrow (py "refund") (py "Refund Request") (py "anything")]
  = automation_categories [mkrow (py "refund") (py "Refund Request") []].
Proof.
  apply (proj2 (X2_tiers_idempotent
                  [mkrow (py "refund") (py "Refund Request") []])).
  reflexivity.
Defined.

Lemma row_category_cases (r : row) :
  row_category r = py "Full Automation" \/
  row_category r = py "Agentic Workflow" \/
  row_category r = py "Human-in-the-Loop".
Proof.
  unfold row_category.
  destruct (str_eqb (Intent r) (py "Other")); [tauto|].
  destruct (str_contains human_in_the_loop_keywords (text r)); [tauto|].
  destruct (isin (Intent r) agentic_workflow_intents); [tauto|].
  destruct (isin (Intent r) full_automation_intents); tauto.
Qed.

(** X3. The counts of the executive summary split the table: the rows
    counted as Full Automation, as Agentic Workflow and as
    Human-in-the-Loop are all the rows, so the automatable count never
    exceeds the number of tickets, and the rows kept as automatable are as
    many as the automatable count. *)
Theorem X3_counts_partition (df : list row) :
  let out := automation_categories df in
  fully_automated_count out + partially_automated_count out
  + category_count out (py "Human-in-the-Loop") = length df /\
  automatable_count out <= length df /\
  length (automatable_intents_df out) = automatable_count out.
Proof.
  cbv zeta. rewrite automation_categories_rows.
  unfold automatable_count, fully_automated_count, partially_automated_count,
    automatable_intents_df, category_count.
  induction df as [|r df IH]; [simpl; lia|].
  cbn [map filter AutomationCategory].
  destruct IH as [IH1 [IH2 IH3]].
  destruct (row_category_cases r) as [E | [E | E]]; rewrite E;
    repeat match goal with
      | |- context [str_eqb ?a ?b] =>
          let v := eval vm_compute in (str_eqb a b) in
          change (str_eqb a b) with v
      end; cbn [negb length]; lia.
Qed.

(** X4. In the table the analysis builds, the intent of every row is the
    classifier's label of its text, and a row labelled Technical Issue,
    Product/Feature Request or Other is never automated, whatever its
    text. *)
Theorem X4_never_automated (lower : str -> str) (tickets : list ticket)
    (r : row) :
  In r (analyze_support_tickets lower tickets) ->
  Intent r = map_intent (text r) /\
  (In (Intent r) [py "Technical Issue"; py "Product/Feature Request";
                  py "Other"] ->
   AutomationCategory r = py "Human-in-the-Loop").
Proof.
  unfold analyze_support_tickets. rewrite automation_categories_rows, map_map.
  intros Hin. apply in_map_iff in Hin. destruct Hin as [t [<- _]].
  cbn [Intent text AutomationCategory]. split; [reflexivity|].
  unfold row_category. cbn [Intent text].
  generalize (map_intent (ticket_text lower t)). intros i Hi.
  destruct (str_eqb i (py "Other")); [reflexivity|].
  destruct (str_contains human_in_the_loop_keywords (ticket_text lower t));
    [reflexivity|].
  destruct Hi as [<- | [<- | [<- | []]]]; reflexivity.
Qed.

Lemma X4_never_automated_witness :
  AutomationCategory
    (mkrow (py "the app shows an error") (py "Technical Issue")
           (py "Human-in-the-Loop"))
  = py "Human-in-the-Loop".
Proof.
  refine (proj2 (X4_never_automated ascii_lower
                   [mkticket (Some (py "The app")) (Some (py "shows an ERROR"))]
                   _ _) _).
  - left. reflexivity.
  - left. reflexivity.
Defined.

(** ** The classifier and substrings *)

Lemma substring_trans (k t t' : str) :
  substring k t -> substring t t' -> substring k t'.
Proof.
  intros [u [v ->]] [u' [v' ->]]. exists (u' ++ u), (v ++ v').
  rewrite <- !app_assoc. reflexivity.
Qed.

Lemma any_in_mono (keywords : list str) (t t' : str) :
  substring t t' -> any_in keywords t = true -> any_in keywords t' = true.
Proof.
  intros Hsub H. apply any_in_spec in H. destruct H as [k [Hk Hkt]].
  apply any_in_spec. exists k. split; [exact Hk|].
  exact (substring_trans k t t' Hkt Hsub).
Qed.

Lemma rule_index_mono (rules : list (list str * str)) (t t' : str) :
  substring t t' -> rule_index rules t' <= rule_index rules t.
Proof.
  intros Hsub. induction rules as [|[kws label] rules IH]; simpl; [lia|].
  destruct (any_in kws t) eqn:E.
  - rewrite (any_in_mono kws t t' Hsub E). lia.
  - destruct (any_in kws t'); lia.
Qed.

Lemma first_match_rule_index (rules : list (list str * str)) (t : str) :
  first_match rules t =
  nth (rule_index rules t) (map snd rules ++ [py "Other"]) (py "Other").
Proof.
  induction rules as [|[kws label] rules IH]; simpl; [reflexivity|].
  destruct (any_in kws t); [reflexivity | exact IH].
Qed.

(** X5. The label of a text is the label at the position of the first rule
    with a keyword in it, and a text that contains another text is decided
    by the same rule or by an earlier one: adding words to a ticket can move
    it up the list of rules but never down. In particular every part of a
    text labelled Other is labelled Other. *)
Theorem X5_classifier_monotone (t t' : str) :
  substring t t' ->
  map_intent t = nth (rule_index intent_rules t) intent_labels (py "Other") /\
  map_intent t' = nth (rule_index intent_rules t') intent_labels (py "Other") /\
  rule_index intent_rules t' <= rule_index intent_rules t /\
  (map_intent t' = py "Other" -> map_intent t = py "Other").
Proof.
  intros Hsub.
  pose proof (rule_index_mono intent_rules t t' Hsub) as Hle.
  split; [|split; [|split; [exact Hle|]]].
  - rewrite map_intent_first_match. apply first_match_rule_index.
  - rewrite map_intent_first_match. apply first_match_rule_index.
  - rewrite (map_intent_first_match t'), (first_match_rule_index _ t').
    assert (Hbound : forall x, rule_index intent_rules x <= 10).
    { intros x. unfold intent_rules. simpl.
      repeat match goal with
        | |- context [if ?b then _ else _] => destruct b; [lia|]
        end. lia. }
    pose proof (Hbound t) as Hb. pose proof (Hbound t') as Hb'.
    assert (Hother : forall n, n <= 10 ->
      nth n (map snd intent_rules ++ [py "Other"]) (py "Other") = py "Other" ->
      n = 10).
    { intros n Hn H.
      do 10 (destruct n as [|n]; [vm_compute in H; discriminate|]).
      lia. }
    intros H. apply Hother in H; [|exact Hb'].
    assert (E : rule_index intent_rules t = 10) by lia.
    rewrite map_intent_first_match, first_match_rule_index, E. reflexivity.
Qed.

Lemma X5_classifier_monotone_witness :
  rule_index intent_rules (py "my card was declined, refund please")
  <= rule_index intent_rules (py "my card was declined").
Proof.
  refine (proj1 (proj2 (proj2 (X5_classifier_monotone
            (py "my card was declined")
            (py "my card was declined, refund please") _)))).
  apply contains_spec. vm_compute. reflexivity.
Defined.

Lemma any_in_redundant (l l' : list str) (t : str) :
  (forall k, In k l -> exists k', In k' l' /\ substring k' k) ->
  (forall k, In k l' -> In k l) ->
  any_in l t = any_in l' t.
Proof.
  intros Hcover Hincl. apply eq_true_iff_eq. rewrite !any_in_spec. split.
  - intros [k [Hk Hsub]]. destruct (Hcover k Hk) as [k' [Hk' Hkk]].
    exists k'. split; [exact Hk' | exact (substring_trans k' k t Hkk Hsub)].
  - intros [k [Hk Hsub]]. exists k. split; [apply Hincl; exact Hk | exact Hsub].
Qed.

(** X6. Three keywords of the classifier never decide a label: a text with
    "cancellation" has "cancel", and a text with "overcharged" or "double
    charge" has "charge", each a keyword of the same rule. Without these
    three the classifier labels every text as before. *)
Theorem X6_redundant_keywords (t : str) :
  first_match pruned_rules t = map_intent t.
Proof.
  rewrite map_intent_first_match. unfold intent_rules, pruned_rules.
  cbn [first_match].
  rewrite (any_in_redundant
             [py "cancel"; py "cancellation"; py "unsubscribe";
              py "end my account"; py "close my account"]
             [py "cancel"; py "unsubscribe"; py "end my account";
              py "close my account"] t).
  - rewrite (any_in_redundant
               [py "billing"; py "charge"; py "invoice"; py "overcharged";
                py "double charge"]
               [py "billing"; py "charge"; py "invoice"] t).
    + reflexivity.
    + intros k Hk.
      destruct Hk as [<- | [<- | [<- | [<- | [<- | []]]]]];
        [exists (py "billing") | exists (py "charge") | exists (py "invoice")
        | exists (py "charge") | exists (py "charge")];
        (split; [solve [repeat first [left; reflexivity | right]]
                | apply contains_spec; vm_compute; reflexivity]).
    + intros k Hk. simpl in *. tauto.
  - intros k Hk.
    destruct Hk as [<- | [<- | [<- | [<- | [<- | []]]]]];
      [exists (py "cancel") | exists (py "cancel") | exists (py "unsubscribe")
      | exists (py "end my account") | exists (py "close my account")];
      (split; [solve [repeat first [left; reflexivity | right]]
              | apply contains_spec; vm_compute; reflexivity]).
  - intros k Hk. simpl in *. tauto.
Qed.

(** X7. The blueprint covers the tiers it prints: a row in the tier Agentic
    Workflow has an intent for which exactly one workflow line is printed,
    and a row in the tier Full Automation has one of the five
    full-automation intents, for which the automation type is the data
    lookup exactly on Password Reset / Login Issue and Billing Inquiry. *)
Theorem X7_blueprint_covers (df : list row) (r : row) :
  In r (automation_categories df) ->
  (AutomationCategory r = py "Agentic Workflow" ->
   length (workflow_lines (Intent r)) = 1) /\
  (AutomationCategory r = py "Full Automation" ->
   In (Intent r) full_automation_intents /\
   (automation_type (Intent r) = py "Simple data lookup via API" <->
    Intent r = py "Password Reset / Login Issue" \/
    Intent r = py "Billing Inquiry")).
Proof.
  rewrite automation_categories_rows. intros Hin.
  apply in_map_iff in Hin. destruct Hin as [r0 [<- _]].
  cbn [AutomationCategory Intent]. unfold row_category.
  destruct tiers_distinct as [D1 [D2 D3]].
  destruct (str_eqb (Intent r0) (py "Other"));
    [split; intros H; exfalso; congruence|].
  destruct (str_contains human_in_the_loop_keywords (text r0));
    [split; intros H; exfalso; congruence|].
  destruct (isin (Intent r0) agentic_workflow_intents) eqn:Ea.
  - split; [|intros H; exfalso; congruence]. intros _.
    apply isin_spec in Ea.
    destruct Ea as [<- | [<- | [<- | []]]]; reflexivity.
  - destruct (isin (Intent r0) full_automation_intents) eqn:Ef;
      [|split; intros H; exfalso; congruence].
    split; [intros H; exfalso; congruence|]. intros _.
    apply isin_spec in Ef. split; [exact Ef|].
    destruct Ef as [<- | [<- | [<- | [<- | [<- | []]]]]]; split;
      try (intros _; tauto);
      try (intros H; vm_compute in H; discriminate);
      try (intros [H | H]; vm_compute in H; discriminate).
Qed.

Lemma X7_blueprint_covers_witness :
  length (workflow_lines (py "Refund Request")) = 1.
Proof.
  refine (proj1 (X7_blueprint_covers
                   [mkrow (py "refund") (py "Refund Request") []]
                   (mkrow (py "refund") (py "Refund Request")
                          (py "Agentic Workflow")) _) _).
  - left. reflexivity.
  - reflexivity.
Defined.

(** ** Topic discovery: assignment, bucket and report *)


(** X8. The topic a ticket is assigned is the first maximum of its row of
    topic weights: it is an index of the row, no entry of the row is larger
    than the entry there, and every entry before it is strictly smaller. *)
Theorem X8_argmax_first_maximum (row : list Z) :
  row <> [] ->
  argmax row < length row /\
  (forall j, j < length row -> (nth j row 0 <= nth (argmax row) row 0)%Z) /\
  (forall j, j < argmax row -> (nth j row 0 < nth (argmax row) row 0)%Z).
Proof.
  destruct row as [|x l]; [congruence | intros _].
  unfold argmax.
  apply (argmax_from_spec l [x] 0 x).
  - simpl. lia.
  - reflexivity.
  - intros j Hj. simpl in Hj. destruct j; [simpl; lia | lia].
  - intros j Hj. lia.
Qed.

Lemma X8_argmax_first_maximum_witness :
  argmax [2; 7; 1; 7]%Z < 4 /\
  (forall j, j < 4 ->
             (nth j [2; 7; 1; 7] 0 <= nth (argmax [2; 7; 1; 7]) [2; 7; 1; 7] 0)%Z) /\
  (forall j, j < argmax [2; 7; 1; 7]%Z ->
             (nth j [2; 7; 1; 7] 0 < nth (argmax [2; 7; 1; 7]) [2; 7; 1; 7] 0)%Z).
Proof.
  apply (X8_argmax_first_maximum [2; 7; 1; 7]%Z). discriminate.
Defined.

Lemma map_initial_intent_other (lower : str -> str) (text : str) :
  map_initial_intent lower text = py "Other" <->
  forall k, In k reduced_keywords -> ~ substring k (lower text).
Proof.
  unfold map_initial_intent. cbv zeta.
  change reduced_keywords
    with ([py "cancel"; py "cancellation"; py "unsubscribe";
           py "end my account"; py "close my account"]
          ++ [py "password"; py "reset"; py "forgot"; py "login issue";
              py "can't log in"]
          ++ [py "refund"; py "money back"; py "reimburse"]).
  set (l1 := [py "cancel"; py "cancellation"; py "unsubscribe";
              py "end my account"; py "close my account"]).
  set (l2 := [py "password"; py "reset"; py "forgot"; py "login issue";
              py "can't log in"]).
  set (l3 := [py "refund"; py "money back"; py "reimburse"]).
  pose proof (any_in_spec l1 (lower text)) as H1.
  pose proof (any_in_spec l2 (lower text)) as H2.
  pose proof (any_in_spec l3 (lower text)) as H3.
  destruct (any_in l1 (lower text)).
  - split; [intros H; vm_compute in H; discriminate|].
    intros H. exfalso. destruct (proj1 H1 eq_refl) as [k [Hk Hs]].
    apply (H k); [apply in_or_app; left; exact Hk | exact Hs].
  - destruct (any_in l2 (lower text)).
    + split; [intros H; vm_compute in H; discriminate|].
      intros H. exfalso. destruct (proj1 H2 eq_refl) as [k [Hk Hs]].
      apply (H k); [|exact Hs].
      apply in_or_app; right; apply in_or_app; left; exact Hk.
    + destruct (any_in l3 (lower text)).
      * split; [intros H; vm_compute in H; discriminate|].
        intros H. exfalso. destruct (proj1 H3 eq_refl) as [k [Hk Hs]].
        apply (H k); [|exact Hs].
        apply in_or_app; right; apply in_or_app; right; exact Hk.
      * split; [|reflexivity]. intros _ k Hk Hs.
        apply in_app_or in Hk. destruct Hk as [Hk | Hk].
        { assert (false = true) by (apply H1; eauto). discriminate. }
        apply in_app_or in Hk. destruct Hk as [Hk | Hk].
        { assert (false = true) by (apply H2; eauto). discriminate. }
        assert (false = true) by (apply H3; eauto). discriminate.
Qed.

(** X9. The bucket topic discovery works on holds exactly the texts
    (subject, a space, description, with missing cells empty) of the tickets
    whose lowered text contains none of the thirteen keywords of the
    cancellation, password and refund rules. *)
Theorem X9_other_bucket (lower : str -> str) (rows : list ticket)
    (text : str) :
  In text (other_tickets lower rows) <->
  (exists t, In t rows /\
             text = fillna (Subject t) ++ py " " ++ fillna (Description t)) /\
  (forall k, In k reduced_keywords -> ~ substring k (lower text)).
Proof.
  unfold other_tickets. rewrite filter_In, in_map_iff, str_eqb_eq.
  rewrite map_initial_intent_other. split.
  - intros [[t [Ht Hin]] Hk]. split; [exists t; auto | exact Hk].
  - intros [[t [Hin Ht]] Hk]. split; [exists t; auto | exact Hk].
Qed.

(** X10. Every ticket the analysis labels Other is in the bucket of topic
    discovery: the two scripts build the same text up to lowering, and a
    text the full classifier leaves unlabelled is left unlabelled by the
    reduced one. *)
Theorem X10_analysis_other_in_bucket (lower : str -> str)
    (rows : list ticket) (t : ticket) :
  In t rows ->
  map_intent (ticket_text lower t) = py "Other" ->
  In (fillna (Subject t) ++ py " " ++ fillna (Description t))
     (other_tickets lower rows).
Proof.
  intros Hin Hother. unfold other_tickets. apply filter_In. split.
  - apply in_map_iff. exists t. auto.
  - set (raw := fillna (Subject t) ++ py " " ++ fillna (Description t)) in *.
    destruct (str_eqb (map_initial_intent lower raw) (py "Other")) eqn:E;
      [reflexivity | exfalso].
    assert (Hne : map_initial_intent lower raw <> py "Other").
    { intros H. apply str_eqb_eq in H. congruence. }
    destruct (reduced_agrees_after_lower lower raw Hne) as [Hlab Heq].
    unfold ticket_text in Hother. fold raw in Hother.
    rewrite <- Heq, Hother in Hlab. apply isin_spec in Hlab.
    vm_compute in Hlab. discriminate.
Qed.

Lemma X10_analysis_other_in_bucket_witness :
  In (py "Sauna" ++ py " " ++ py "Too HOT")
     (other_tickets ascii_lower
        [mkticket (Some (py "Sauna")) (Some (py "Too HOT"))]).
Proof.
  apply (X10_analysis_other_in_bucket ascii_lower
           [mkticket (Some (py "Sauna")) (Some (py "Too HOT"))]
           (mkticket (Some (py "Sauna")) (Some (py "Too HOT")))).
  - left. reflexivity.
  - vm_compute. reflexivity.
Defined.

Lemma NoDup_map_nth (A : Type) (d : A) (l : list A) (idx : list nat) :
  NoDup l -> NoDup idx -> Forall (fun i => i < length l) idx ->
  NoDup (map (fun i => nth i l d) idx).
Proof.
  intros Hl Hidx Hin. induction Hidx as [|i idx Hni _ IH]; cbn [map].
  - constructor.
  - apply Forall_cons_iff in Hin. destruct Hin as [Hi Hin].
    constructor; [|apply IH; exact Hin].
    intros H. apply in_map_iff in H. destruct H as [j [Hj Hjin]].
    rewrite Forall_forall in Hin.
    apply (proj1 (NoDup_nth l d) Hl) in Hj; [|apply Hin; exact Hjin | exact Hi].
    subst j. contradiction.
Qed.

Lemma top_indices_range (argsort : list Z -> list nat) (w : list Z) :
  is_argsort w (argsort w) ->
  length (top_indices argsort w) = Nat.min NUM_WORDS_PER_TOPIC (length w) /\
  NoDup (top_indices argsort w) /\
  Forall (fun i => i < length w) (top_indices argsort w).
Proof.
  intros [Hperm _]. unfold top_indices, last_reversed.
  assert (Hlen : length (argsort w) = length w).
  { rewrite (Permutation_length Hperm). apply length_seq. }
  assert (Hnd : NoDup (rev (argsort w))).
  { apply (Permutation_NoDup (Permutation_rev _)).
    apply (Permutation_NoDup (Permutation_sym Hperm)). apply seq_NoDup. }
  split; [|split].
  - rewrite length_firstn, length_rev, Hlen. reflexivity.
  - rewrite <- (firstn_skipn NUM_WORDS_PER_TOPIC (rev (argsort w))) in Hnd.
    exact (NoDup_app_remove_r _ _ Hnd).
  - apply Forall_forall. intros i Hi.
    assert (Hin : In i (seq 0 (length w))).
    { apply (Permutation_in _ Hperm). apply in_rev.
      rewrite <- (firstn_skipn NUM_WORDS_PER_TOPIC (rev (argsort w))).
      apply in_or_app. left. exact Hi. }
    apply in_seq in Hin. lia.
Qed.

(** X11. Given what numpy promises of argsort and a fitted model with one
    row of term weights per topic, each as long as the vocabulary, the
    report loop stays within its arrays: every topic has its row of weights
    and every index looked up is an index of the vocabulary. Every keyword
    line of the report lists as many words as asked for (or as many as the
    vocabulary has, if fewer), each a term of the vocabulary, and no term
    twice when the vocabulary has none twice. *)
Theorem X11_keyword_lines (argsort : list Z -> list nat)
    (feature_names : list str) (lda : lda_model) (X : list (list nat)) :
  (forall w, is_argsort w (argsort w)) ->
  length (components_ lda) = NUM_TOPICS ->
  Forall (fun w => length w = length feature_names) (components_ lda) ->
  (forall topic_idx, topic_idx < NUM_TOPICS ->
     topic_idx < length (components_ lda) /\
     Forall (fun i => i < length feature_names)
            (top_indices argsort (nth topic_idx (components_ lda) []))) /\
  (forall ws, In (Keywords ws) (report argsort feature_names lda X) ->
     length ws = Nat.min NUM_WORDS_PER_TOPIC (length feature_names) /\
     (forall w, In w ws -> In w feature_names) /\
     (NoDup feature_names -> NoDup ws)).
Proof.
  intros Hsort Hrows Hcols.
  assert (Hrow : forall t, t < NUM_TOPICS ->
            length (nth t (components_ lda) []) = length feature_names).
  { intros t Ht. rewrite Forall_forall in Hcols. apply Hcols.
    apply nth_In. rewrite Hrows. exact Ht. }
  assert (Htop : forall t, t < NUM_TOPICS ->
            let top := top_indices argsort (nth t (components_ lda) []) in
            length top = Nat.min NUM_WORDS_PER_TOPIC (length feature_names) /\
            NoDup top /\ Forall (fun i => i < length feature_names) top).
  { intros t Ht. cbv zeta. rewrite <- (Hrow t Ht).
    apply top_indices_range, Hsort. }
  split.
  - intros t Ht. split; [rewrite Hrows; exact Ht | apply (Htop t Ht)].
  - intros ws Hin. unfold report in Hin. cbv zeta in Hin.
    apply in_app_or in Hin. destruct Hin as [Hin | Hin].
    { destruct Hin as [H | [H | [H | []]]]; discriminate H. }
    apply in_flat_map in Hin. destruct Hin as [t [Ht Hin]].
    apply in_seq in Ht.
    destruct (Htop t) as [Hlen [Hnd Hrange]]; [lia|].
    unfold topic_lines in Hin. cbv zeta in Hin.
    destruct Hin as [H | [H | [H | []]]]; try discriminate H.
    injection H as <-. split; [|split].
    + rewrite length_map. exact Hlen.
    + intros w Hw. apply in_map_iff in Hw. destruct Hw as [i [<- Hi]].
      apply nth_In. rewrite Forall_forall in Hrange. apply Hrange, Hi.
    + intros Hvoc. apply NoDup_map_nth; assumption.
Qed.

Lemma X11_keyword_lines_witness :
  let ws := map (fun i => nth i [py "card"; py "gym"] [])
                (top_indices stable_argsort [4; 6]%Z) in
  length ws = 2 /\ (forall w, In w ws -> In w [py "card"; py "gym"]) /\
  (NoDup [py "card"; py "gym"] -> NoDup ws).
Proof.
  refine (proj2 (X11_keyword_lines stable_argsort [py "card"; py "gym"]
                   (mklda (repeat [4; 6]%Z NUM_TOPICS) (fun _ => [])) []
                   stable_argsort_ok _ _)
                _ _).
  - reflexivity.
  - repeat (apply Forall_cons; [reflexivity|]). apply Forall_nil.
  - right. right. right. right. left. reflexivity.
Defined.

(** X12. The topic report is printed exactly when every stage succeeds:
    the file loads, some ticket is Other, the vectorizer returns a
    vocabulary that is not empty and the model fits. Then the run prints its
    eight progress lines, the report, and returns. In every other case
    (missing or unreadable file, no Other ticket, vectorizer or model
    raising, empty vocabulary) no line of the report is printed. *)
Theorem X12_report_iff_all_stages (lower : str -> str)
    (fit_transform : list str -> option (list str * list (list nat)))
    (lda_fit : nat -> list (list nat) -> option lda_model)
    (argsort : list Z -> list nat) (file : csv_read) :
  let r := analyze_and_count_topics lower fit_transform lda_fit argsort file in
  (forall rows feature_names X lda,
      file = Frame rows ->
      other_tickets lower rows <> [] ->
      fit_transform (other_tickets lower rows) = Some (feature_names, X) ->
      feature_names <> [] ->
      lda_fit NUM_TOPICS X = Some lda ->
      ended r = Returns /\
      stdout r =
        [Starting; FileLoaded (length rows); StepClassifying;
         FoundOther (length (other_tickets lower rows)); StepPreparing;
         PreparationDone (length feature_names); StepTraining; TrainingDone]
        ++ report argsort feature_names lda X) /\
  (~ (exists rows feature_names X lda,
        file = Frame rows /\
        other_tickets lower rows <> [] /\
        fit_transform (other_tickets lower rows) = Some (feature_names, X) /\
        feature_names <> [] /\
        lda_fit NUM_TOPICS X = Some lda) ->
   no_topic_output r).
Proof.
  cbv zeta. split.
  - intros rows feature_names X lda -> Hne Hfit Hvoc Hlda.
    unfold analyze_and_count_topics.
    destruct (other_tickets lower rows) as [|o os] eqn:Eo; [congruence|].
    rewrite Hfit. destruct feature_names as [|f fs]; [congruence|].
    cbn [length Nat.eqb]. rewrite Hlda. split; reflexivity.
  - intros Hnot. unfold no_topic_output, analyze_and_count_topics.
    destruct file as [| |rows]; [reflexivity | reflexivity |].
    destruct (other_tickets lower rows) as [|o os] eqn:Eo; [reflexivity|].
    destruct (fit_transform (o :: os)) as [[feature_names X]|] eqn:Ef;
      [|reflexivity].
    destruct feature_names as [|f fs]; [reflexivity|].
    cbn [length Nat.eqb].
    destruct (lda_fit NUM_TOPICS X) as [lda|] eqn:El; [|reflexivity].
    exfalso. apply Hnot. exists rows, (f :: fs), X, lda.
    rewrite Eo. repeat split; auto; discriminate.
Qed.

Lemma X12_report_iff_all_stages_witness :
  let r := analyze_and_count_topics ascii_lower demo_fit_transform
             (fun _ _ => Some demo_lda) stable_argsort (Frame demo_rows) in
  ended r = Returns /\
  stdout r =
    [Starting; FileLoaded 3; StepClassifying; FoundOther 2; StepPreparing;
     PreparationDone 2; StepTraining; TrainingDone]
    ++ report stable_argsort [py "printer"; py "towel"] demo_lda
              [[1; 0]; [1; 0]].
Proof.
  refine (proj1 (X12_report_iff_all_stages ascii_lower demo_fit_transform
                   (fun _ _ => Some demo_lda) stable_argsort (Frame demo_rows))
                demo_rows [py "printer"; py "towel"] [[1; 0]; [1; 0]] demo_lda
                eq_refl _ eq_refl _ eq_refl).
  - vm_compute. discriminate.
  - discriminate.
Defined.

(** ** Listing the chats *)

Lemma loop_rate_limited (r : http_reply) (rs : list http_reply)
    (acc : list value) (start : nat) :
  rate_limited r = true ->
  chat_ids_loop (r :: rs) acc start =
  (GetChats 100 start :: Sleep 60 :: fst (chat_ids_loop rs acc start),
   snd (chat_ids_loop rs acc start)).
Proof.
  destruct r as [|code body]; [discriminate|]. cbn [rate_limited]. intros H.
  cbn [chat_ids_loop]. rewrite H.
  destruct (chat_ids_loop rs acc start) as [ev out]. reflexivity.
Qed.

Lemma loop_page (r : http_reply) (ids : list value) (rs : list http_reply)
    (acc : list value) (start : nat) :
  page_ids r = Some ids ->
  chat_ids_loop (r :: rs) acc start =
  (GetChats 100 start :: Sleep 1
     :: fst (chat_ids_loop rs (acc ++ ids) (start + 100)),
   snd (chat_ids_loop rs (acc ++ ids) (start + 100))).
Proof.
  destruct r as [|code body]; [discriminate|]. cbn [page_ids].
  destruct body as [| | | | |l|d]; try discriminate.
  destruct (code =? 429) eqn:E429; [discriminate|].
  destruct (raises_for_status code) eqn:Eerr; [discriminate|]. cbn [orb].
  destruct (dict_get d (py "code")) as [c|] eqn:Ec; [|discriminate].
  destruct (dict_get d (py "data")) as [chats|] eqn:Ed; [|discriminate].
  destruct chats as [| | | | |l|d']; try discriminate.
  destruct l as [|chat chats]; [discriminate|].
  destruct (equals_zero c) eqn:Ez; [|discriminate]. intros Hids.
  cbn [chat_ids_loop]. rewrite E429, Eerr.
  cbn [py_get py_in py_getitem]. unfold dict_has. rewrite Ec, Ed, Ez.
  cbn [andb truthy negb]. unfold chat_ids_of. cbn [py_iter]. rewrite Hids.
  destruct (chat_ids_loop rs (acc ++ ids) (start + 100)) as [ev out].
  reflexivity.
Qed.

Lemma loop_ends (r : http_reply) (rs : list http_reply)
    (acc : list value) (start : nat) :
  ends_listing r = true ->
  chat_ids_loop (r :: rs) acc start = ([GetChats 100 start], Returned acc rs).
Proof.
  destruct r as [|code body]; [reflexivity|]. cbn [ends_listing].
  destruct (code =? 429) eqn:E429; [discriminate|].
  cbn [chat_ids_loop]. rewrite E429.
  destruct (raises_for_status code) eqn:Eerr; [reflexivity|].
  destruct body as [| | | | |l|d]; try discriminate.
  cbn [py_get py_in py_getitem]. unfold dict_has.
  destruct (dict_get d (py "code")) as [c|] eqn:Ec.
  - destruct (dict_get d (py "data")) as [chats|] eqn:Ed.
    + destruct (equals_zero c) eqn:Ez; [|reflexivity].
      intros H. cbn [andb]. rewrite H. reflexivity.
    + rewrite andb_false_r. reflexivity.
  - reflexivity.
Qed.

Lemma loop_malformed (r : http_reply) (rs : list http_reply)
    (acc : list value) (start : nat) :
  malformed r = true ->
  chat_ids_loop (r :: rs) acc start = ([GetChats 100 start], Crashed).
Proof.
  destruct r as [|code body]; [discriminate|]. cbn [malformed].
  destruct (code =? 429) eqn:E429; [discriminate|].
  destruct (raises_for_status code) eqn:Eerr; [discriminate|]. cbn [orb].
  cbn [chat_ids_loop]. rewrite E429, Eerr.
  destruct body as [| | | | |l|d]; try reflexivity.
  cbn [py_get py_in py_getitem]. unfold dict_has.
  destruct (dict_get d (py "code")) as [c|] eqn:Ec; [|discriminate].
  destruct (dict_get d (py "data")) as [chats|] eqn:Ed; [|discriminate].
  intros H. apply andb_true_iff in H. destruct H as [H Hids].
  apply andb_true_iff in H. destruct H as [Hz Ht].
  rewrite Hz, Ht. cbn [andb negb].
  destruct (chat_ids_of chats); [discriminate | reflexivity].
Qed.

(** Every reply is of exactly one of the four kinds. *)
Lemma reply_kinds (r : http_reply) :
  let kinds := [rate_limited r;
                match page_ids r with Some _ => true | None => false end;
                ends_listing r; malformed r] in
  length (filter (fun b => b) kinds) = 1.
Proof.
  cbv zeta. destruct r as [|code body]; [reflexivity|].
  cbn [rate_limited page_ids ends_listing malformed].
  destruct (code =? 429) eqn:E429.
  { cbn [orb]. destruct body; reflexivity. }
  destruct (raises_for_status code) eqn:Eerr.
  { cbn [orb]. destruct body; reflexivity. }
  cbn [orb]. destruct body as [| | | | |l|d]; try reflexivity.
  destruct (dict_get d (py "code")) as [c|]; [|reflexivity].
  destruct (dict_get d (py "data")) as [chats|]; [|reflexivity].
  destruct (equals_zero c); [|destruct chats as [| | | | |[|? ?]|]; reflexivity].
  cbn [andb].
  destruct chats as [|b|n|m e|s|l|d']; cbn [truthy negb andb];
    try reflexivity.
  - destruct b; reflexivity.
  - destruct (n =? 0)%Z; reflexivity.
  - destruct (m =? 0)%Z; reflexivity.
  - destruct s as [|c0 s]; [reflexivity|]. cbn [negb].
    destruct (chat_ids_of (VStr (c0 :: s))) eqn:E; [|reflexivity].
    discriminate E.
  - destruct l as [|chat chats]; [reflexivity|]. cbn [negb].
    unfold chat_ids_of. cbn [py_iter].
    destruct (for_each (fun chat0 => py_getitem chat0 (py "id"))
                       (chat :: chats)); reflexivity.
  - destruct d' as [|kv d']; [reflexivity|]. cbn [negb].
    destruct (chat_ids_of (VDict (kv :: d'))) eqn:E; [|reflexivity].
    discriminate E.
Qed.

Lemma seconds_slept_cons (e : event) (events : list event) :
  seconds_slept (e :: events) =
  match e with Sleep n => n | _ => 0 end + seconds_slept events.
Proof. reflexivity. Qed.

Lemma seconds_slept_app (a b : list event) :
  seconds_slept (a ++ b) = seconds_slept a + seconds_slept b.
Proof. unfold seconds_slept. rewrite map_app, list_sum_app. reflexivity. Qed.

Lemma rate_limited_no_page (r : http_reply) :
  rate_limited r = true -> page_ids r = None.
Proof.
  destruct r as [|code body]; [reflexivity|]. cbn [rate_limited page_ids].
  intros ->. destruct body; reflexivity.
Qed.

(** The rounds of the loop on replies that are pages or ask to wait: the
    events of these rounds, and the state in which the loop goes on. *)
Lemma loop_prefix (pre : list http_reply) :
  forall (acc : list value) (start : nat),
    Forall (fun r => rate_limited r = true \/ page_ids r <> None) pre ->
    exists events,
      (forall tail,
          chat_ids_loop (pre ++ tail) acc start =
          (events ++ fst (chat_ids_loop tail (acc ++ listed_ids pre)
                                        (start + 100 * count_pages pre)),
           snd (chat_ids_loop tail (acc ++ listed_ids pre)
                              (start + 100 * count_pages pre)))) /\
      listing_requests events =
        map (fun n => (100, start + 100 * count_pages (firstn n pre)))
            (seq 0 (length pre)) /\
      seconds_slept events =
        60 * length (filter rate_limited pre) + count_pages pre /\
      conversation_requests events = [].
Proof.
  induction pre as [|r pre IH]; intros acc start Hgood.
  - exists []. split; [|split; [|split]]; try reflexivity.
    intros tail. cbn [app listed_ids flat_map count_pages filter length].
    rewrite app_nil_r, Nat.mul_0_r, Nat.add_0_r.
    destruct (chat_ids_loop tail acc start). reflexivity.
  - pose proof (Forall_inv Hgood) as Hr.
    pose proof (Forall_inv_tail Hgood) as Hpre.
    destruct (rate_limited r) eqn:Erl.
    + pose proof (rate_limited_no_page r Erl) as Hnp.
      destruct (IH acc start Hpre) as [events [Hrun [Hreq [Hsleep Hconv]]]].
      exists (GetChats 100 start :: Sleep 60 :: events).
      split; [|split; [|split]].
      * intros tail. cbn [app]. rewrite (loop_rate_limited r _ acc start Erl).
        rewrite Hrun. unfold listed_ids, count_pages.
        cbn [flat_map filter fst snd]. rewrite Hnp. reflexivity.
      * cbn [listing_requests flat_map app length seq map firstn].
        fold (listing_requests events). rewrite Hreq.
        cbn [count_pages filter length]. rewrite Nat.mul_0_r, Nat.add_0_r.
        f_equal. rewrite <- seq_shift, map_map. apply map_ext. intros n.
        unfold count_pages. cbn [firstn filter]. rewrite Hnp. reflexivity.
      * rewrite !seconds_slept_cons, Hsleep. cbn [filter]. rewrite Erl.
        unfold count_pages. cbn [filter length]. rewrite Hnp. lia.
      * exact Hconv.
    + destruct Hr as [Hr | Hr]; [congruence|].
      destruct (page_ids r) as [ids|] eqn:Eids; [|congruence].
      destruct (IH (acc ++ ids) (start + 100) Hpre)
        as [events [Hrun [Hreq [Hsleep Hconv]]]].
      exists (GetChats 100 start :: Sleep 1 :: events).
      split; [|split; [|split]].
      * intros tail. cbn [app]. rewrite (loop_page r ids _ acc start Eids).
        rewrite Hrun. unfold listed_ids, count_pages.
        cbn [flat_map filter fst snd]. rewrite Eids. cbn [length].
        rewrite <- app_assoc.
        replace (start + 100 * S (length (filter
                   (fun r0 => match page_ids r0 with
                              | Some _ => true
                              | None => false
                              end) pre)))
          with (start + 100 + 100 * length (filter
                   (fun r0 => match page_ids r0 with
                              | Some _ => true
                              | None => false
                              end) pre)) by lia.
        reflexivity.
      * cbn [listing_requests flat_map app length seq map firstn].
        fold (listing_requests events). rewrite Hreq.
        cbn [count_pages filter length]. rewrite Nat.mul_0_r, Nat.add_0_r.
        f_equal. rewrite <- seq_shift, map_map. apply map_ext. intros n.
        unfold count_pages. cbn [firstn filter]. rewrite Eids. cbn [length].
        f_equal. lia.
      * rewrite !seconds_slept_cons, Hsleep. cbn [filter]. rewrite Erl.
        unfold count_pages. cbn [filter]. rewrite Eids. cbn [length]. lia.
      * exact Hconv.
Qed.

(** X13. The listing returns the ids of all the pages received before the
    first reply that ends it (a failed request, an error status other than
    429, an API error or an empty page), in the order received, whatever
    number of 429 replies came in between; the replies after that one are
    not consumed. *)
Theorem X13_listing_result (access_token : value)
    (pre : list http_reply) (last : http_reply) (rest : list http_reply) :
  Forall (fun r => rate_limited r = true \/ page_ids r <> None) pre ->
  ends_listing last = true ->
  snd (get_all_chat_ids access_token (pre ++ last :: rest)) =
  Returned (listed_ids pre) rest.
Proof.
  intros Hpre Hlast. unfold get_all_chat_ids.
  destruct (loop_prefix pre [] 1 Hpre) as [events [Hrun _]].
  rewrite Hrun. cbn [snd]. rewrite (loop_ends last rest _ _ Hlast).
  reflexivity.
Qed.

(** X14. The requests of the listing: each asks for 100 chats, the first
    from index 1, and the start index of a request is 1 plus 100 times the
    number of pages received before it, so a 429 reply is followed by the
    same request again. The script sleeps 60 seconds after every 429 reply
    and 1 second after every page. *)
Theorem X14_listing_requests (access_token : value)
    (pre : list http_reply) (last : http_reply) (rest : list http_reply) :
  Forall (fun r => rate_limited r = true \/ page_ids r <> None) pre ->
  ends_listing last = true ->
  let events := fst (get_all_chat_ids access_token (pre ++ last :: rest)) in
  listing_requests events =
    map (fun n => (100, 1 + 100 * count_pages (firstn n pre)))
        (seq 0 (S (length pre))) /\
  seconds_slept events = 60 * length (filter rate_limited pre) + count_pages pre.
Proof.
  intros Hpre Hlast. cbv zeta. unfold get_all_chat_ids.
  destruct (loop_prefix pre [] 1 Hpre) as [events [Hrun [Hreq [Hsleep _]]]].
  rewrite Hrun. cbn [fst]. rewrite (loop_ends last rest _ _ Hlast). cbn [fst].
  split.
  - unfold listing_requests in *. rewrite flat_map_app.
    rewrite Hreq. rewrite seq_S, map_app. cbn [flat_map app map Nat.add].
    rewrite firstn_all. reflexivity.
  - rewrite seconds_slept_app, Hsleep. cbn. lia.
Qed.

(** X15. The listing never gives up by itself: as long as the replies are
    pages or ask to wait, it asks again; with only such replies in the
    script it has made one request more than there are replies and waits
    for the next. In particular it retries a 429 without any bound. *)
Theorem X15_listing_goes_on (access_token : value) (pre : list http_reply) :
  Forall (fun r => rate_limited r = true \/ page_ids r <> None) pre ->
  snd (get_all_chat_ids access_token pre) = Starved /\
  length (listing_requests (fst (get_all_chat_ids access_token pre)))
  = S (length pre).
Proof.
  intros Hpre. unfold get_all_chat_ids.
  destruct (loop_prefix pre [] 1 Hpre) as [events [Hrun [Hreq _]]].
  specialize (Hrun []). rewrite app_nil_r in Hrun. rewrite Hrun.
  cbn [fst snd chat_ids_loop]. split; [reflexivity|].
  unfold listing_requests in *. rewrite flat_map_app, length_app, Hreq.
  rewrite length_map, length_seq. cbn. lia.
Qed.

(** X16. A reply of an unexpected shape is not handled: when a reply with a
    good status has a body that is not a dict, or chats that are not a list
    of dicts with an "id", the exception escapes the function and the ids
    of the pages received before are lost (a failed request instead returns
    them). *)
Theorem X16_listing_crash (access_token : value)
    (pre : list http_reply) (bad : http_reply) (rest : list http_reply) :
  Forall (fun r => rate_limited r = true \/ page_ids r <> None) pre ->
  malformed bad = true ->
  snd (get_all_chat_ids access_token (pre ++ bad :: rest)) = Crashed.
Proof.
  intros Hpre Hbad. unfold get_all_chat_ids.
  destruct (loop_prefix pre [] 1 Hpre) as [events [Hrun _]].
  rewrite Hrun. cbn [snd]. rewrite (loop_malformed bad rest _ _ Hbad).
  reflexivity.
Qed.

Lemma X13_listing_result_witness :
  snd (get_all_chat_ids (VStr (py "tok"))
         ([demo_wait; demo_page; demo_wait; demo_page']
          ++ demo_empty_page :: [demo_page]))
  = Returned [VInt 7; VStr (py "c8"); VInt 9] [demo_page].
Proof.
  apply (X13_listing_result (VStr (py "tok"))
           [demo_wait; demo_page; demo_wait; demo_page'] demo_empty_page
           [demo_page]).
  - repeat (apply Forall_cons;
            [first [left; reflexivity | right; vm_compute; discriminate]|]);
      apply Forall_nil.
  - reflexivity.
Defined.

Lemma X14_listing_requests_witness :
  let events := fst (get_all_chat_ids (VStr (py "tok"))
                       ([demo_wait; demo_page; demo_wait; demo_page']
                        ++ demo_empty_page :: [demo_page])) in
  listing_requests events
  = [(100, 1); (100, 1); (100, 101); (100, 101); (100, 201)] /\
  seconds_slept events = 122.
Proof.
  apply (X14_listing_requests (VStr (py "tok"))
           [demo_wait; demo_page; demo_wait; demo_page'] demo_empty_page
           [demo_page]).
  - repeat (apply Forall_cons;
            [first [left; reflexivity | right; vm_compute; discriminate]|]);
      apply Forall_nil.
  - reflexivity.
Defined.

Lemma X15_listing_goes_on_witness :
  snd (get_all_chat_ids VNone [demo_wait; demo_wait; demo_wait]) = Starved /\
  length (listing_requests
            (fst (get_all_chat_ids VNone [demo_wait; demo_wait; demo_wait])))
  = 4.
Proof.
  apply (X15_listing_goes_on VNone [demo_wait; demo_wait; demo_wait]).
  repeat (apply Forall_cons;
          [first [left; reflexivity | right; vm_compute; discriminate]|]);
    apply Forall_nil.
Defined.

Lemma X16_listing_crash_witness :
  snd (get_all_chat_ids VNone ([demo_page] ++ demo_bad_body :: [])) = Crashed.
Proof.
  apply (X16_listing_crash VNone [demo_page] demo_bad_body []).
  - repeat (apply Forall_cons;
            [first [left; reflexivity | right; vm_compute; discriminate]|]);
      apply Forall_nil.
  - reflexivity.
Defined.

(** ** The access token *)

(** X17. A token is only ever taken from the "access_token" field of a
    reply with a status that is not an error: when the function returns
    something other than [None], the three credentials were set, exactly one
    request was made, and its reply was a dict carrying that token. With
    such a reply the function returns the token. *)
Theorem X17_token_source (CLIENT_ID CLIENT_SECRET REFRESH_TOKEN : option str)
    (replies : list http_reply) :
  (forall events token rest,
      get_new_access_token CLIENT_ID CLIENT_SECRET REFRESH_TOKEN replies
      = (events, Returned token rest) ->
      token <> VNone ->
      env_set CLIENT_ID = true /\ env_set CLIENT_SECRET = true /\
      env_set REFRESH_TOKEN = true /\ events = [PostToken] /\
      exists status_code d,
        replies = Reply status_code (VDict d) :: rest /\
        raises_for_status status_code = false /\
        dict_get d (py "access_token") = Some token) /\
  (forall status_code d token rest,
      env_set CLIENT_ID = true -> env_set CLIENT_SECRET = true ->
      env_set REFRESH_TOKEN = true ->
      replies = Reply status_code (VDict d) :: rest ->
      raises_for_status status_code = false ->
      dict_get d (py "access_token") = Some token ->
      get_new_access_token CLIENT_ID CLIENT_SECRET REFRESH_TOKEN replies
      = ([PostToken], Returned token rest)).
Proof.
  split.
  - intros events token rest H Htok. unfold get_new_access_token in H.
    destruct (env_set CLIENT_ID); cbn [andb negb] in H;
      [|injection H as _ H _; congruence].
    destruct (env_set CLIENT_SECRET); cbn [andb negb] in H;
      [|injection H as _ H _; congruence].
    destruct (env_set REFRESH_TOKEN); cbn [andb negb] in H;
      [|injection H as _ H _; congruence].
    destruct replies as [|[|code body] replies']; [discriminate | |].
    { injection H as _ H _. congruence. }
    destruct (raises_for_status code) eqn:Eerr.
    { injection H as _ H _. congruence. }
    destruct body as [| | | | s | l | d]; cbn [py_in] in H; try discriminate.
    + destruct (contains s (py "access_token")); discriminate.
    + destruct (existsb _ l); discriminate.
    + unfold dict_has in H. cbn [py_getitem py_get] in H.
      destruct (dict_get d (py "access_token")) as [tok|] eqn:Et.
      * injection H as <- <- <-. repeat split; auto.
        exists code, d. auto.
      * destruct (dict_get d (py "error")); injection H as _ H _; congruence.
  - intros code d token rest H1 H2 H3 -> Herr Htok.
    unfold get_new_access_token. rewrite H1, H2, H3. cbn [andb negb].
    rewrite Herr.
    cbn [py_in py_getitem]. unfold dict_has. rewrite Htok. reflexivity.
Qed.

Lemma X17_token_source_witness :
  get_new_access_token (Some (py "id")) (Some (py "secret"))
    (Some (py "refresh")) [demo_token; demo_page]
  = ([PostToken], Returned (VStr (py "tok")) [demo_page]).
Proof.
  apply (proj2 (X17_token_source (Some (py "id")) (Some (py "secret"))
                  (Some (py "refresh")) [demo_token; demo_page])
               200 [(py "access_token", VStr (py "tok"))]);
    reflexivity.
Defined.

(** ** The main part of the extractor *)

Section ExtractorFacts.

Variable db : unicode_db.

(** X18. Without a token nothing is fetched: when a credential is missing
    or empty the script makes no request at all, and when the token request
    fails or gets an error status it makes no further request; in both cases
    it ends without a file and leaves the other replies unused. *)
Theorem X18_no_token_no_requests
    (CLIENT_ID CLIENT_SECRET REFRESH_TOKEN : option str) (write_ok : bool) :
  (env_set CLIENT_ID && env_set CLIENT_SECRET && env_set REFRESH_TOKEN = false ->
   forall replies,
     main db CLIENT_ID CLIENT_SECRET REFRESH_TOKEN write_ok replies
     = ([], Returned NoAccessToken replies)) /\
  (env_set CLIENT_ID && env_set CLIENT_SECRET && env_set REFRESH_TOKEN = true ->
   forall r rest,
     request_fails r = true ->
     main db CLIENT_ID CLIENT_SECRET REFRESH_TOKEN write_ok (r :: rest)
     = ([PostToken], Returned NoAccessToken rest)).
Proof.
  split.
  - intros Henv replies. unfold main, get_new_access_token. rewrite Henv.
    reflexivity.
  - intros Henv r rest Hr. unfold main, get_new_access_token. rewrite Henv.
    cbn [negb]. destruct r as [|code body]; [reflexivity|].
    cbn [request_fails] in Hr. rewrite Hr. reflexivity.
Qed.

Lemma get_chat_conversation_shape (chat_id access_token : value)
    (replies : list http_reply) :
  fst (get_chat_conversation chat_id access_token replies)
  = [GetConversation chat_id] /\
  forall v rest,
    snd (get_chat_conversation chat_id access_token replies) = Returned v rest ->
    exists r, replies = r :: rest.
Proof.
  unfold get_chat_conversation.
  destruct replies as [|[|code data] replies']; cbn [fst snd].
  - split; [reflexivity | discriminate].
  - split; [reflexivity|]. intros v rest H. injection H as _ <-. eauto.
  - split; [reflexivity|]. intros v rest H.
    destruct (raises_for_status code); [injection H as _ <-; eauto|].
    destruct (py_get data (py "code")) as [c|]; [|discriminate].
    destruct (equals_zero c && _).
    + destruct (py_getitem data (py "data")); [|discriminate].
      injection H as _ <-. eauto.
    + injection H as _ <-. eauto.
Qed.

(** X19. The conversations are asked for once each, in the order of the
    chat ids, and never again: when the loop returns, its conversation
    requests are exactly the chat ids, it has consumed one reply and slept
    one second per chat, it has made no listing request, and it has added
    at most one transcript per chat to those it started with. *)
Theorem X19_one_request_per_chat (access_token : value)
    (chat_ids : list value) :
  forall replies all_transcripts events transcripts rest,
    process_chats db access_token chat_ids replies all_transcripts
    = (events, Returned transcripts rest) ->
    conversation_requests events = chat_ids /\
    listing_requests events = [] /\
    seconds_slept events = length chat_ids /\
    length replies = length chat_ids + length rest /\
    exists added, transcripts = all_transcripts ++ added /\
                  length added <= length chat_ids.
Proof.
  induction chat_ids as [|chat_id chat_ids IH];
    intros replies all events transcripts rest H.
  - cbn [process_chats] in H. injection H as <- <- <-.
    repeat split; try reflexivity. exists []. rewrite app_nil_r. auto.
  - cbn [process_chats] in H.
    destruct (get_chat_conversation_shape chat_id access_token replies)
      as [Hev Hrest].
    destruct (get_chat_conversation chat_id access_token replies)
      as [ev [cd replies'| |]]; try discriminate.
    cbn [fst snd] in Hev, Hrest. subst ev.
    destruct (Hrest cd replies' eq_refl) as [r ->].
    destruct (scrub_conversation db cd) as [appended|]; [|discriminate].
    destruct (process_chats db access_token chat_ids replies'
                (match appended with
                 | Some transcript => all ++ [transcript]
                 | None => all
                 end)) as [ev' out'] eqn:E.
    injection H as <- ->.
    destruct (IH _ _ _ _ _ E) as [Hc [Hl [Hs [Hn [added [-> Hadd]]]]]].
    repeat split.
    + change (chat_id :: conversation_requests ev' = chat_id :: chat_ids).
      rewrite Hc. reflexivity.
    + exact Hl.
    + rewrite !seconds_slept_cons, Hs. cbn [length]. lia.
    + cbn [length]. lia.
    + destruct appended as [t|].
      * exists (t :: added). rewrite <- app_assoc. cbn [app length].
        split; [reflexivity | lia].
      * exists added. split; [reflexivity | cbn [length]; lia].
Qed.

(** X20. A conversation request that fails, or gets an error status such
    as 429, is not repeated and does not stop the loop: when every one of
    the requests fails the loop still asks once for every chat and returns
    with no transcript added. *)
Theorem X20_failed_chats_skipped (access_token : value)
    (chat_ids : list value) :
  forall failing rest all_transcripts,
    length failing = length chat_ids ->
    Forall (fun r => request_fails r = true) failing ->
    snd (process_chats db access_token chat_ids (failing ++ rest)
           all_transcripts)
    = Returned all_transcripts rest /\
    conversation_requests
      (fst (process_chats db access_token chat_ids (failing ++ rest)
              all_transcripts))
    = chat_ids.
Proof.
  induction chat_ids as [|chat_id chat_ids IH];
    intros failing rest all Hlen Hfail.
  - destruct failing; [|discriminate]. split; reflexivity.
  - destruct failing as [|r failing]; [discriminate|].
    injection Hlen as Hlen.
    pose proof (Forall_inv Hfail) as Hr.
    pose proof (Forall_inv_tail Hfail) as Hfail'.
    assert (E : get_chat_conversation chat_id access_token
                  ((r :: failing) ++ rest)
                = ([GetConversation chat_id], Returned VNone (failing ++ rest))).
    { cbn [app get_chat_conversation]. destruct r as [|code data];
        [reflexivity|]. cbn [request_fails] in Hr. rewrite Hr. reflexivity. }
    cbn [process_chats]. rewrite E. cbn [scrub_conversation truthy].
    destruct (IH failing rest all Hlen Hfail') as [Hout Hreq].
    destruct (process_chats db access_token chat_ids (failing ++ rest) all)
      as [ev out]. cbn [fst snd] in *. split; [exact Hout|].
    change (chat_id :: conversation_requests ev = chat_id :: chat_ids).
    rewrite Hreq. reflexivity.
Qed.

End ExtractorFacts.

Lemma X18_no_token_no_requests_witness :
  main ascii_only (Some (py "id")) None (Some (py "refresh")) true
       [demo_token; demo_page]
  = ([], Returned NoAccessToken [demo_token; demo_page]).
Proof.
  apply (proj1 (X18_no_token_no_requests ascii_only (Some (py "id")) None
                  (Some (py "refresh")) true)).
  reflexivity.
Defined.

Lemma X19_one_request_per_chat_witness :
  conversation_requests
    (fst (process_chats ascii_only (VStr (py "tok")) [VInt 7; VInt 9]
            [demo_conversation; demo_wait] []))
  = [VInt 7; VInt 9].
Proof.
  destruct (process_chats ascii_only (VStr (py "tok")) [VInt 7; VInt 9]
              [demo_conversation; demo_wait] []) as [events out] eqn:E.
  assert (Hout : exists ts, out = Returned ts []).
  { vm_compute in E. injection E as _ <-. eexists. reflexivity. }
  destruct Hout as [ts ->].
  exact (proj1 (X19_one_request_per_chat ascii_only (VStr (py "tok"))
                  [VInt 7; VInt 9] _ _ _ _ _ E)).
Defined.

Lemma X20_failed_chats_skipped_witness :
  snd (process_chats ascii_only (VStr (py "tok")) [VInt 7; VInt 9]
         ([demo_wait; RequestException] ++ [demo_page]) [])
  = Returned [] [demo_page].
Proof.
  refine (proj1 (X20_failed_chats_skipped ascii_only (VStr (py "tok"))
                   [VInt 7; VInt 9] [demo_wait; RequestException] [demo_page]
                   [] eq_refl _)).
  repeat (apply Forall_cons; [reflexivity|]). apply Forall_nil.
Defined.

(** ** Scrubbing the messages *)

Lemma str_eqb_neq (a b : str) : str_eqb a b = false <-> a <> b.
Proof.
  split.
  - intros H E. apply str_eqb_eq in E. congruence.
  - intros H. destruct (str_eqb a b) eqn:E; [|reflexivity].
    apply str_eqb_eq in E. contradiction.
Qed.

Lemma dict_get_set_same (d : list (str * value)) (key : str) (v : value) :
  dict_get (dict_set d key v) key = Some v.
Proof.
  induction d as [|[k x] d IH]; cbn [dict_set dict_get].
  - rewrite str_eqb_refl. reflexivity.
  - destruct (str_eqb k key) eqn:E; cbn [dict_get]; rewrite E;
      [reflexivity | exact IH].
Qed.

Lemma dict_get_set_other (d : list (str * value)) (key key' : str)
    (v : value) :
  key <> key' -> dict_get (dict_set d key v) key' = dict_get d key'.
Proof.
  intros Hne. induction d as [|[k x] d IH]; cbn [dict_set dict_get].
  - apply str_eqb_neq in Hne. rewrite Hne. reflexivity.
  - destruct (str_eqb k key) eqn:E; cbn [dict_get].
    + apply str_eqb_eq in E. subst k. apply str_eqb_neq in Hne.
      rewrite Hne. reflexivity.
    + destruct (str_eqb k key'); [reflexivity | exact IH].
Qed.

Lemma dict_set_keys (d : list (str * value)) (key : str) (x v : value) :
  dict_get d key = Some x -> map fst (dict_set d key v) = map fst d.
Proof.
  induction d as [|[k y] d IH]; cbn [dict_set dict_get]; [discriminate|].
  destruct (str_eqb k key); [reflexivity|].
  intros H. cbn [map fst]. rewrite (IH H). reflexivity.
Qed.

Section ScrubbingFacts.

Variable db : unicode_db.

(** One of the two assignments of the loop on a message that is a dict. *)
Lemma scrub_field_dict (key : str) (d : list (str * value)) :
  exists d',
    scrub_field db key (VDict d) = Some (VDict d') /\
    map fst d' = map fst d /\
    forall k, dict_get d' k =
              if str_eqb key k
              then option_map (anonymize_text db) (dict_get d key)
              else dict_get d k.
Proof.
  unfold scrub_field. cbn [py_in]. unfold dict_has.
  destruct (dict_get d key) as [v|] eqn:E.
  - exists (dict_set d key (anonymize_text db v)).
    split; [reflexivity | split; [exact (dict_set_keys d key v _ E)|]].
    intros k. destruct (str_eqb key k) eqn:Ek.
    + apply str_eqb_eq in Ek. subst k. apply dict_get_set_same.
    + apply dict_get_set_other. apply str_eqb_neq. exact Ek.
  - exists d. split; [reflexivity | split; [reflexivity|]].
    intros k. destruct (str_eqb key k) eqn:Ek; [|reflexivity].
    apply str_eqb_eq in Ek. subst k. exact E.
Qed.

Lemma scrub_message_dict (d : list (str * value)) :
  exists d',
    scrub_message db (VDict d) = Some (VDict d') /\
    map fst d' = map fst d /\
    forall k, dict_get d' k =
              if str_eqb (py "msg") k || str_eqb (py "sent_by") k
              then option_map (anonymize_text db) (dict_get d k)
              else dict_get d k.
Proof.
  unfold scrub_message.
  destruct (scrub_field_dict (py "msg") d) as [d1 [E1 [K1 G1]]].
  rewrite E1.
  destruct (scrub_field_dict (py "sent_by") d1) as [d2 [E2 [K2 G2]]].
  exists d2. split; [exact E2 | split; [congruence|]].
  intros k. rewrite G2.
  destruct (str_eqb (py "sent_by") k) eqn:Es.
  - apply str_eqb_eq in Es. subst k. rewrite G1.
    change (str_eqb (py "msg") (py "sent_by")) with false.
    rewrite orb_true_r. reflexivity.
  - rewrite G1, orb_false_r.
    destruct (str_eqb (py "msg") k) eqn:Em; [|reflexivity].
    apply str_eqb_eq in Em. subst k. reflexivity.
Qed.

(** X21. On a message that is a dict the loop never raises, keeps the keys
    in their order and leaves every field as it is except "msg" and
    "sent_by", which hold the scrubbed value of what they held (a value that
    is not a string is kept as it is). *)
Theorem X21_message_fields (d : list (str * value)) :
  exists d',
    scrub_message db (VDict d) = Some (VDict d') /\
    map fst d' = map fst d /\
    forall k, dict_get d' k =
              if str_eqb (py "msg") k || str_eqb (py "sent_by") k
              then option_map (anonymize_text db) (dict_get d k)
              else dict_get d k.
Proof. exact (scrub_message_dict d). Qed.

Lemma for_each_Forall (A B : Type) (f : A -> option B) (P : B -> Prop)
    (l : list A) :
  (forall x y, f x = Some y -> P y) ->
  forall l', for_each f l = Some l' -> Forall P l' /\ length l' = length l.
Proof.
  intros Hf. induction l as [|x l IH]; intros l' H; cbn [for_each] in H.
  - injection H as <-. split; [constructor | reflexivity].
  - destruct (f x) as [y|] eqn:E; [|discriminate].
    destruct (for_each f l) as [ys|]; [|discriminate].
    injection H as <-. destruct (IH ys eq_refl) as [Hall Hlen].
    split; [constructor; [exact (Hf x y E) | exact Hall]|].
    cbn [length]. rewrite Hlen. reflexivity.
Qed.

Hypothesis decimal_not_space :
  forall c, uni_isdecimal db c = true -> uni_isspace db c = false.

Lemma anonymize_clean (v : value) (s : str) :
  anonymize_text db v = VStr s -> clean db s.
Proof.
  destruct v; try discriminate. rewrite anonymize_text_str.
  intros H. injection H as <-. intros u v Huv.
  exact (scrubbed_no_match db decimal_not_space s0 u v Huv).
Qed.

Lemma scrub_message_scrubbed (m m' : value) :
  scrub_message db m = Some m' -> message_scrubbed db m'.
Proof.
  intros H. destruct m as [| | | | s | l | d].
  1-4: discriminate H.
  - (* a string is returned as it is, or the assignment raises *)
    unfold scrub_message, scrub_field in H. cbn [py_in] in H.
    destruct (contains s (py "msg")); [discriminate|].
    cbn [py_in] in H.
    destruct (contains s (py "sent_by")); [discriminate|].
    injection H as <-. intros d key s' E. discriminate E.
  - unfold scrub_message, scrub_field in H. cbn [py_in] in H.
    destruct (existsb _ l); [discriminate|].
    cbn [py_in] in H.
    destruct (existsb _ l); [discriminate|].
    injection H as <-. intros d key s' E. discriminate E.
  - destruct (scrub_message_dict d) as [d' [E [_ G]]].
    rewrite E in H. injection H as <-.
    intros d0 key s E0 Hkey Hget. injection E0 as <-.
    rewrite G in Hget.
    assert (Hk : str_eqb (py "msg") key || str_eqb (py "sent_by") key = true).
    { destruct Hkey as [-> | ->]; reflexivity. }
    rewrite Hk in Hget. destruct (dict_get d key) as [v|]; [|discriminate].
    cbn [option_map] in Hget. injection Hget as Hget.
    exact (anonymize_clean v s Hget).
Qed.

End ScrubbingFacts.

Section SavedTranscripts.

Variable db : unicode_db.

Hypothesis decimal_not_space :
  forall c, uni_isdecimal db c = true -> uni_isspace db c = false.

Lemma scrub_conversation_scrubbed (conversation_data t : value) :
  scrub_conversation db conversation_data = Some (Some t) ->
  transcript_scrubbed db t.
Proof.
  unfold scrub_conversation.
  destruct (truthy conversation_data); [|discriminate].
  destruct conversation_data as [| | | | s | l | d]; cbn [py_in py_getitem];
    try discriminate.
  - destruct (contains s (py "conversation")); discriminate.
  - destruct (existsb _ l); discriminate.
  - unfold dict_has.
    destruct (dict_get d (py "conversation")) as [conversation|] eqn:E;
      [|discriminate].
    destruct (py_iter conversation) as [messages|] eqn:Ei; [|discriminate].
    destruct (for_each (scrub_message db) messages) as [messages'|] eqn:Ef;
      [|discriminate].
    intros H. injection H as <-.
    destruct conversation as [| | | | s | l | d']; try discriminate Ei.
    + exists d, (VStr s). split; [reflexivity | split; [exact E|]].
      intros ms Hms. discriminate Hms.
    + exists (dict_set d (py "conversation") (VList messages')),
        (VList messages').
      split; [reflexivity | split; [apply dict_get_set_same|]].
      intros ms Hms. injection Hms as <-.
      apply (for_each_Forall _ _ (scrub_message db) (message_scrubbed db)
               messages
               (fun x y => scrub_message_scrubbed db decimal_not_space x y)
               messages' Ef).
    + exists d, (VDict d'). split; [reflexivity | split; [exact E|]].
      intros ms Hms. discriminate Hms.
Qed.

Lemma process_chats_scrubbed (access_token : value) (chat_ids : list value) :
  forall replies all_transcripts events transcripts rest,
    Forall (transcript_scrubbed db) all_transcripts ->
    process_chats db access_token chat_ids replies all_transcripts
    = (events, Returned transcripts rest) ->
    Forall (transcript_scrubbed db) transcripts.
Proof.
  induction chat_ids as [|chat_id chat_ids IH];
    intros replies all events transcripts rest Hall H.
  - cbn [process_chats] in H. injection H as _ <- _. exact Hall.
  - cbn [process_chats] in H.
    destruct (get_chat_conversation chat_id access_token replies)
      as [ev [cd replies'| |]]; try discriminate.
    destruct (scrub_conversation db cd) as [appended|] eqn:Es; [|discriminate].
    destruct (process_chats db access_token chat_ids replies'
                (match appended with
                 | Some transcript => all ++ [transcript]
                 | None => all
                 end)) as [ev' out'] eqn:E.
    injection H as _ ->.
    refine (IH _ _ _ _ _ _ E). destruct appended as [t|]; [|exact Hall].
    apply Forall_app. split; [exact Hall|]. constructor; [|constructor].
    exact (scrub_conversation_scrubbed cd t Es).
Qed.

(** X22. Whatever the script writes to its file is scrubbed: every
    transcript it saves is a dict with a "conversation", and in every
    message of a conversation list that is a dict, a string under "msg" or
    "sent_by" has no place left where the email or the phone pattern
    matches. *)
Theorem X22_saved_transcripts_scrubbed
    (CLIENT_ID CLIENT_SECRET REFRESH_TOKEN : option str) (write_ok : bool)
    (replies : list http_reply) (events : list event) (fin : finished)
    (rest : list http_reply) (transcripts : list value) :
  main db CLIENT_ID CLIENT_SECRET REFRESH_TOKEN write_ok replies
  = (events, Returned fin rest) ->
  fin = Saved transcripts \/ fin = WriteFailed transcripts ->
  Forall (transcript_scrubbed db) transcripts.
Proof.
  unfold main. intros H Hfin.
  destruct (get_new_access_token CLIENT_ID CLIENT_SECRET REFRESH_TOKEN replies)
    as [ev [token replies1| |]]; try discriminate.
  destruct (negb (truthy token)).
  { injection H as _ <- _. destruct Hfin; discriminate. }
  destruct (get_all_chat_ids token replies1)
    as [ev1 [chat_ids replies2| |]]; try discriminate.
  destruct chat_ids as [|chat_id chat_ids].
  { injection H as _ <- _. destruct Hfin; discriminate. }
  destruct (process_chats db token (chat_id :: chat_ids) replies2 [])
    as [ev2 [ts replies3| |]] eqn:E; try discriminate.
  injection H as _ <- _.
  assert (Hts : Forall (transcript_scrubbed db) ts).
  { exact (process_chats_scrubbed token (chat_id :: chat_ids) replies2 []
             ev2 ts replies3 (Forall_nil _) E). }
  destruct write_ok; destruct Hfin as [Hf | Hf]; try discriminate;
    injection Hf as <-; exact Hts.
Qed.

End SavedTranscripts.

Lemma X22_saved_transcripts_scrubbed_witness :
  Forall (transcript_scrubbed ascii_only)
    match snd (main ascii_only (Some (py "id")) (Some (py "secret"))
                 (Some (py "refresh")) true
                 [demo_token; demo_page'; demo_empty_page; demo_conversation])
    with
    | Returned (Saved transcripts) _ => transcripts
    | _ => []
    end.
Proof.
  destruct (main ascii_only (Some (py "id")) (Some (py "secret"))
              (Some (py "refresh")) true
              [demo_token; demo_page'; demo_empty_page; demo_conversation])
    as [events out] eqn:E.
  assert (Hout : exists ts, out = Returned (Saved ts) []).
  { vm_compute in E. injection E as _ <-. eexists. reflexivity. }
  destruct Hout as [ts ->]. cbn [snd].
  refine (X22_saved_transcripts_scrubbed ascii_only _ _ _ _ _ _ _ _ _ _ E
            (or_introl eq_refl)).
  intros c H. vm_compute in H. discriminate.
Defined.

(** ** What the scrubber changes and what it leaves *)

Section ScrubberUse.

Variable db : unicode_db.

(** X23. A string without [@] in which every decimal digit follows a word
    character (a letter, a digit or an underscore) is returned as it is: the
    email pattern needs an [@] and a phone match must start at a digit that
    follows no word character. So a string without digits is only changed
    around an [@], and a number glued to a word before it is never
    redacted. *)
Theorem X23_unchanged_text (s : str) :
  (forall u c v, s = u ++ c :: v ->
     c <> 64%N /\
     (is_digit db c = true -> word_before db (lastc None u) = true)) ->
  anonymize_text db (VStr s) = VStr s.
Proof.
  intros Hs. rewrite anonymize_text_str.
  assert (He : re_sub db email_pattern EMAIL s = s).
  { unfold re_sub. apply sub_from_no_match. intros u v Huv.
    destruct (match_here db email_pattern (lastc None u) v) as [r|] eqn:E;
      [exfalso | reflexivity].
    destruct (email_shape db _ _ _ E) as [a [x [y [t [-> _]]]]].
    destruct (Hs (u ++ a ++ [x]) 64%N (y :: t)) as [Hne _].
    - rewrite Huv, <- !app_assoc. reflexivity.
    - apply Hne. reflexivity. }
  rewrite He. f_equal. unfold re_sub. apply sub_from_no_match.
  intros u v Huv.
  destruct (match_here db phone_pattern (lastc None u) v) as [r|] eqn:E;
    [exfalso | reflexivity].
  destruct (phone_start db _ _ _ E) as [Hw [d [tl [-> Hd]]]].
  destruct (Hs u d tl Huv) as [_ Hword].
  rewrite (Hword Hd) in Hw. discriminate.
Qed.

Lemma sub_email_nil (fuel : nat) (p : option N) :
  sub_from db fuel email_pattern EMAIL p [] = [].
Proof. destruct fuel; reflexivity. Qed.

(** X24. A stretch without white space that has an [@] with at least one
    character on each side is replaced as a whole by the email placeholder,
    with everything that is attached to the address (brackets, a trailing
    comma or full stop, further [@]s). *)
Theorem X24_email_token (a b : str) :
  a <> [] -> b <> [] ->
  Forall (fun c => ns db c = true) (a ++ 64%N :: b) ->
  anonymize_text db (VStr (a ++ 64%N :: b)) = VStr (py "[EMAIL_REDACTED]").
Proof.
  intros Ha Hb Hns. rewrite anonymize_text_str.
  assert (He : re_sub db email_pattern EMAIL (a ++ 64%N :: b) = EMAIL).
  { destruct a as [|c r1]; [congruence|]. destruct b as [|y r2]; [congruence|].
    apply Forall_app in Hns. destruct Hns as [Hcr Hyr].
    pose proof (Forall_inv Hcr) as Hc. pose proof (Forall_inv_tail Hcr) as Hr1.
    pose proof (Forall_inv (Forall_inv_tail Hyr)) as Hy.
    pose proof (email_complete db None c r1 y r2 Hc Hr1 Hy) as Hsome.
    unfold re_sub. cbn [app] in *.
    destruct (match_here db email_pattern None (c :: r1 ++ 64%N :: y :: r2))
      as [[p' s']|] eqn:E; [|contradiction].
    rewrite (sub_email_match db _ _ _ _ _ E).
    destruct (email_end db _ _ _ _ E) as [Hafter _].
    apply match_here_sound, matches_split in E.
    destruct E as [a0 [Hsplit _]].
    assert (Hs' : s' = []).
    { destruct s' as [|c' t']; [reflexivity | exfalso].
      assert (Hin : In c' (c :: r1 ++ 64%N :: y :: r2)).
      { rewrite Hsplit. apply in_or_app. right. left. reflexivity. }
      assert (Hall : Forall (fun c => ns db c = true)
                            (c :: r1 ++ 64%N :: y :: r2)).
      { change (Forall (fun c => ns db c = true)
                       ((c :: r1) ++ 64%N :: y :: r2)).
        apply Forall_app. split; assumption. }
      rewrite Forall_forall in Hall. specialize (Hall c' Hin).
      cbn [ns_after] in Hafter. congruence. }
    rewrite Hs', sub_email_nil, app_nil_r. reflexivity. }
  rewrite He. vm_compute. reflexivity.
Qed.

End ScrubberUse.

Lemma X23_unchanged_text_witness :
  anonymize_text ascii_only (VStr (py "order no_5551234567 is late"))
  = VStr (py "order no_5551234567 is late").
Proof.
  apply (X23_unchanged_text ascii_only).
  intros u c v H.
  assert (Hlen : length u < 27).
  { apply (f_equal (@length N)) in H. rewrite length_app in H.
    cbn in H. lia. }
  do 27 (destruct u as [|? u];
         [cbn in H; injection H as <- _;
          split; [discriminate | cbn; intros E; first [discriminate E
                                                      | reflexivity]]
         | cbn in H; injection H as <- H; cbn in Hlen]).
  lia.
Defined.

Lemma X24_email_token_witness :
  anonymize_text ascii_only (VStr (py "<j.doe" ++ 64%N :: py "x.org>,"))
  = VStr (py "[EMAIL_REDACTED]").
Proof.
  apply (X24_email_token ascii_only (py "<j.doe") (py "x.org>,")).
  - discriminate.
  - discriminate.
  - apply Forall_forall. intros c Hc.
    vm_compute in Hc.
    repeat (destruct Hc as [<- | Hc]; [reflexivity|]). destruct Hc.
Defined.

Section PhoneUse.

Variable db : unicode_db.

Hypothesis decimal_not_space :
  forall c, uni_isdecimal db c = true -> uni_isspace db c = false.

Lemma match_digit (pat : pattern) (p : option N) (d : N) (s : str) :
  is_digit db d = true ->
  match_here db (One Digit :: pat) p (d :: s) = match_here db pat (Some d) s.
Proof. intros Hd. cbn [match_here in_cset]. rewrite Hd. reflexivity. Qed.

Lemma match_opt_skip (cs : cset) (pat : pattern) (p : option N) (c : N)
    (s : str) :
  in_cset db cs c = false ->
  match_here db (Opt cs :: pat) p (c :: s) = match_here db pat p (c :: s).
Proof. intros Hc. cbn [match_here]. rewrite Hc. reflexivity. Qed.

Lemma match_opt_take (cs : cset) (pat : pattern) (p : option N) (c : N)
    (s : str) (r : position) :
  in_cset db cs c = true ->
  match_here db pat (Some c) s = Some r ->
  match_here db (Opt cs :: pat) p (c :: s) = Some r.
Proof. intros Hc Hr. cbn [match_here]. rewrite Hc, Hr. reflexivity. Qed.

Lemma digit_not_separator (d : N) :
  is_digit db d = true -> in_cset db separator d = false.
Proof.
  intros Hd. pose proof (is_digit_ns db decimal_not_space d Hd) as Hns.
  unfold ns in Hns. apply negb_true_iff in Hns.
  cbn [in_cset separator]. rewrite Hns.
  destruct (N.eqb_spec d 45) as [->|_]; [vm_compute in Hd; discriminate|].
  destruct (N.eqb_spec d 46) as [->|_]; [vm_compute in Hd; discriminate|].
  reflexivity.
Qed.

Lemma phone_last_group (p : option N) (d7 d8 d9 d10 : N) :
  is_digit db d7 = true -> is_digit db d8 = true ->
  is_digit db d9 = true -> is_digit db d10 = true ->
  match_here db (times 4 Digit ++ [WordBoundary]) p [d7; d8; d9; d10]
  = Some (Some d10, []).
Proof.
  intros H7 H8 H9 H10. unfold times. cbn [repeat app].
  rewrite !match_digit by assumption.
  cbn [match_here]. rewrite at_boundary_eq. cbn [word_before word_after].
  rewrite (is_digit_word db d10 H10). reflexivity.
Qed.

Lemma phone_group (pat : pattern) (p : option N) (a b c : N) (sep rest : str)
    (r : position) :
  is_digit db a = true -> is_digit db b = true -> is_digit db c = true ->
  Forall (fun x => in_cset db separator x = true) sep ->
  length sep <= 1 ->
  (forall q, match_here db pat q rest = Some r) ->
  (exists d tl, rest = d :: tl /\ is_digit db d = true) ->
  match_here db (times 3 Digit ++ [Opt separator] ++ pat) p
             ([a; b; c] ++ sep ++ rest) = Some r.
Proof.
  intros Ha Hb Hc Hsep Hlen Hrest [d [tl [Hd1 Hd2]]].
  unfold times. cbn [repeat app].
  rewrite !match_digit by assumption.
  destruct sep as [|x [|y sep]].
  - cbn [app]. rewrite Hd1, match_opt_skip by (apply digit_not_separator, Hd2).
    rewrite <- Hd1. apply Hrest.
  - cbn [app]. apply match_opt_take; [exact (Forall_inv Hsep) | apply Hrest].
  - cbn [length] in Hlen. lia.
Qed.

(** X25. Ten decimal digits grouped 3-3-4, each group joined to the next
    directly or by one hyphen, full stop or white-space character, and
    standing alone, are replaced by the phone placeholder: the forms
    555-123-4567, 555.123.4567, 555 123 4567, 5551234567 and their
    mixtures. *)
Theorem X25_phone_number (d1 d2 d3 d4 d5 d6 d7 d8 d9 d10 : N)
    (sep1 sep2 : str) :
  Forall (fun d => is_digit db d = true)
         [d1; d2; d3; d4; d5; d6; d7; d8; d9; d10] ->
  Forall (fun c => in_cset db separator c = true) (sep1 ++ sep2) ->
  length sep1 <= 1 -> length sep2 <= 1 ->
  anonymize_text db
    (VStr ([d1; d2; d3] ++ sep1 ++ [d4; d5; d6] ++ sep2 ++ [d7; d8; d9; d10]))
  = VStr (py "[PHONE_REDACTED]").
Proof.
  intros Hd Hsep Hl1 Hl2.
  apply Forall_app in Hsep. destruct Hsep as [Hs1 Hs2].
  set (s := [d1; d2; d3] ++ sep1 ++ [d4; d5; d6] ++ sep2 ++ [d7; d8; d9; d10]).
  rewrite anonymize_text_str.
  assert (Hno : forall x, In x s -> x <> 64%N).
  { assert (Hdig : forall x, is_digit db x = true -> x <> 64%N)
      by (intros x Hx ->; vm_compute in Hx; discriminate).
    assert (Hsp : forall x, in_cset db separator x = true -> x <> 64%N)
      by (intros x Hx ->; vm_compute in Hx; discriminate).
    rewrite Forall_forall in Hd, Hs1, Hs2.
    intros x Hx. unfold s in Hx.
    repeat (apply in_app_or in Hx; destruct Hx as [Hx|Hx]);
      first [ apply Hsp, Hs1; exact Hx
            | apply Hsp, Hs2; exact Hx
            | apply Hdig, Hd; cbn [In] in *; tauto ]. }
  assert (He : re_sub db email_pattern EMAIL s = s).
  { unfold re_sub. apply sub_from_no_match. intros u v Huv.
    destruct (match_here db email_pattern (lastc None u) v) as [r|] eqn:E;
      [exfalso | reflexivity].
    destruct (email_shape db _ _ _ E) as [a [x [y [t [-> _]]]]].
    apply (Hno 64%N); [|reflexivity].
    rewrite Huv. apply in_or_app. right. apply in_or_app. right.
    right. left. reflexivity. }
  rewrite He. f_equal. unfold re_sub.
  repeat match goal with
         | H : Forall _ (_ :: _) |- _ =>
             let Hx := fresh "Hdig" in
             pose proof (Forall_inv H) as Hx; apply Forall_inv_tail in H
         end.
  assert (Hm : match_here db phone_pattern None s = Some (Some d10, [])).
  { unfold phone_pattern. cbn [app]. cbn [match_here].
    rewrite at_boundary_eq. cbn [word_before word_after s app].
    rewrite (is_digit_word db d1) by assumption. cbn [xorb].
    apply (phone_group _ _ d1 d2 d3 sep1); try assumption.
    - intros q.
      apply (phone_group _ _ d4 d5 d6 sep2); try assumption.
      + intros q'. apply phone_last_group; assumption.
      + exists d7, [d8; d9; d10]. split; [reflexivity | assumption].
    - exists d4, ([d5; d6] ++ sep2 ++ [d7; d8; d9; d10]).
      split; [reflexivity | assumption]. }
  rewrite (sub_phone_match db _ _ _ _ _ Hm).
  assert (Hnil : forall n, sub_from db n phone_pattern PHONE (Some d10) [] = []).
  { intros [|n]; [reflexivity|]. rewrite sub_from_step.
    rewrite phone_not_at by (intros ? ? Heq; discriminate Heq). reflexivity. }
  rewrite Hnil, app_nil_r. reflexivity.
Qed.

End PhoneUse.

Lemma X25_phone_number_witness :
  anonymize_text ascii_only (VStr (py "555-123 4567"))
  = VStr (py "[PHONE_REDACTED]").
Proof.
  refine (X25_phone_number ascii_only _
            53 53 53 49 50 51 52 53 54 55 [45] [32] _ _ _ _)%N.
  - intros c H. vm_compute in H. discriminate.
  - repeat (apply Forall_cons; [reflexivity|]). apply Forall_nil.
  - repeat (apply Forall_cons; [reflexivity|]). apply Forall_nil.
  - cbn. lia.
  - cbn. lia.
Defined.
